(** * LockfreeMandelbrot: a shallow embedding of [main.cpp]

    The program renders the Mandelbrot set over a pixel grid with a pool of
    worker threads.  Every worker repeatedly claims a batch of pixel indices
    from an atomic counter, computes the escape time of each pixel into a
    private buffer ([Stack]) and copies the buffer into the shared result
    map under a spin flag.

    Conventions of the embedding:
    - [int] values are integers of [Z]; signed overflow is undefined in the
      source and is ruled out by the range hypotheses of the theorems.
      Conversions to unsigned or narrower types are written out with their
      wrap-around ([to_u16], [to_u32], [to_u64], [to_int]).
    - [double] is the kernel's IEEE 754 binary64 type [float], every
      operation rounded on its own, in the order the source writes them.
    - Undefined behaviour (an index outside an array or a vector) is the
      result [None].
    - Threads are interleaved: one step of the system is one step of one
      worker, and every access to shared memory is a step of its own. *)

From Stdlib Require Import ZArith Lia Bool List Ascii.
From Stdlib Require Import Uint63 PrimFloat.
From stdpp Require Import base tactics option list relations.

Set Warnings "-inexact-float".
Local Open Scope Z_scope.

(** ** Machine integers *)

Definition INT_MAX : Z := 2147483647.

(** Conversion to [uint16_t] ([ResultType]). *)
Definition to_u16 (z : Z) : Z := z mod 65536.

(** Conversion to [uint32_t]. *)
Definition to_u32 (z : Z) : Z := z mod 4294967296.

(** Conversion to [uint64_t]. *)
Definition to_u64 (z : Z) : Z := z mod 18446744073709551616.

(** Conversion to [int] (two's complement, 32 bits). *)
Definition to_int (z : Z) : Z := (z + 2147483648) mod 4294967296 - 2147483648.

(** ** Configuration constants *)

(** [using ResultType = uint16_t]: a value of [Z], from 0 to 65535. *)
Abbreviation ResultType := Z (only parsing).

Definition cBatchSize_main : Z := 20000.
Definition cWidthPixels : Z := 170.
Definition cHeightPixels : Z := 118.
Definition cBufferSize : Z := 99999.
Definition cMaxIterations : Z := 1000.

(** ** The escape-time kernel *)

Module Kernel.

Local Open Scope float_scope.

(** Conversion of an [int] to [double]. *)
Definition double_of_int (z : Z) : float :=
  if (z <? 0)%Z then - PrimFloat.of_uint63 (Uint63.of_Z (- z))
  else PrimFloat.of_uint63 (Uint63.of_Z z).

(** The test [x * x + y * y > 2 * 2] of [render]. *)
Definition escaped (x y : float) : bool :=
  PrimFloat.ltb (double_of_int (2 * 2)) (x * x + y * y).

(** The body of the loop of [render] up to the test: the new [x] and [y]. *)
Definition iterate (scaledX scaledY : float) (p : float * float) : float * float :=
  let '(x, y) := p in
  let xtemp := x * x - y * y + scaledX in
  let y := 2 * x * y + scaledY in
  let x := xtemp in
  (x, y).

(** The loop [for (; i != cMaxIterations; ++i)] of [render], started at
    counter [i] with the point [p]; [fuel] bounds the number of iterations
    still to run. *)
Fixpoint render_loop (fuel : nat) (scaledX scaledY : float)
    (p : float * float) (i : Z) : Z :=
  match fuel with
  | O => i
  | S fuel =>
      if (i =? cMaxIterations)%Z then i
      else
        let p' := iterate scaledX scaledY p in
        if escaped (fst p') (snd p') then i
        else render_loop fuel scaledX scaledY p' (i + 1)%Z
  end.

(** [render]: the counter the loop ends with, converted to [ResultType]. *)
Definition render (scaledX scaledY : float) : ResultType :=
  to_u16 (render_loop (Z.to_nat cMaxIterations) scaledX scaledY (0, 0) 0%Z).

(** [scaleX] and [scaleY], for a bitmap of the given width and height. *)
Definition scaleX (mWidthPixels : Z) (x : Z) : float :=
  PrimFloat.of_uint63 (Uint63.of_Z (to_u32 x)) / double_of_int mWidthPixels * 2.47
  - double_of_int 2.

Definition scaleY (mHeightPixels : Z) (y : Z) : float :=
  PrimFloat.of_uint63 (Uint63.of_Z (to_u32 y)) / double_of_int mHeightPixels * 2.24
  - 1.12.

End Kernel.


(** ** The thread-local buffer: [class Stack] *)

Module Stack.

Record Item := { x : Z; y : Z; res : ResultType }.

(** [arr] is the array of [cBufferSize] items, read at the indices below
    [lastPos] only; [lastPos] is the number of items pushed since the last
    dump. *)
Record t := { arr : Z -> Item; lastPos : Z }.

(** A [Stack] as a worker declares it: [lastPos{0}]; the array starts with
    content that is never read. *)
Definition fresh : t := {| arr := fun _ => {| x := 0; y := 0; res := 0 |}; lastPos := 0 |}.

(** [push]: [arr[lastPos] = item; ++lastPos].  Writing outside the array is
    undefined. *)
Definition push (s : t) (item : Item) : option t :=
  if (0 <=? lastPos s) && (lastPos s <? cBufferSize) then
    Some {| arr := fun k => if k =? lastPos s then item else arr s k;
            lastPos := lastPos s + 1 |}
  else None.

(** The vector of columns [std::vector<std::vector<ResultType>>]. *)
Abbreviation ResultMap := (list (list ResultType)) (only parsing).

(** Reading [resultMap[x][y]]. *)
Definition at_xy (resultMap : ResultMap) (x y : Z) : option ResultType :=
  if (0 <=? x) && (0 <=? y) then
    match resultMap !! Z.to_nat x with
    | Some col => col !! Z.to_nat y
    | None => None
    end
  else None.

(** [resultMap[e.x][e.y] = e.res]; undefined outside the vectors. *)
Definition assign (resultMap : ResultMap) (e : Item) : option ResultMap :=
  if (0 <=? x e) && (0 <=? y e) then
    match resultMap !! Z.to_nat (x e) with
    | Some col =>
        if (Z.to_nat (y e) <? length col)%nat then
          Some (<[Z.to_nat (x e) := <[Z.to_nat (y e) := res e]> col]> resultMap)
        else None
    | None => None
    end
  else None.

(** The loop [for (int i = 0; i != lastPos; ++i)] of [dumpToMap], with [n]
    iterations left, at index [i]. *)
Fixpoint dump_loop (n : nat) (a : Z -> Item) (i : Z) (resultMap : ResultMap)
    : option ResultMap :=
  match n with
  | O => Some resultMap
  | S n =>
      match assign resultMap (a i) with
      | Some resultMap' => dump_loop n a (i + 1) resultMap'
      | None => None
      end
  end.

(** [dumpToMap]: the loop from index 0, then [lastPos = 0].  With a
    [lastPos] outside the array the loop reads outside it, which is
    undefined. *)
Definition dumpToMap (s : t) (resultMap : ResultMap) : option (t * ResultMap) :=
  if (0 <=? lastPos s) && (lastPos s <=? cBufferSize) then
    match dump_loop (Z.to_nat (lastPos s)) (arr s) 0 resultMap with
    | Some resultMap' => Some ({| arr := arr s; lastPos := 0 |}, resultMap')
    | None => None
    end
  else None.

(** The accumulated entries [arr[0]], ..., [arr[lastPos - 1]], in order. *)
Definition entries (s : t) : list Item :=
  List.map (fun j => arr s (Z.of_nat j)) (seq 0 (Z.to_nat (lastPos s))).

End Stack.

(** ** [class LockfreeMandelbrot] *)

Record MandelbrotBitmap := {
  map : Stack.ResultMap;
  width : Z;
  height : Z
}.

(** The constructor of [MandelbrotBitmap], for [width >= 1] and
    [height >= 0]: [width] columns of [height] zeros each. *)
Definition MandelbrotBitmap_new (width height : Z) : MandelbrotBitmap :=
  {| map := replicate (Z.to_nat width) (replicate (Z.to_nat height) 0);
     width := width;
     height := height |}.

(** Where a worker is in [loop].  Every access to shared memory is a step
    of its own. *)
Inductive PC :=
| PLoop          (* at the top of the body of [while (true)] *)
| PSpin          (* at the [compare_exchange_weak] on [mIsSavingResults] *)
| PDump (i : Z)  (* in [dumpToMap], at the test [i != lastPos] *)
| PRelease       (* at [mIsSavingResults.store(false)] *)
| PFetch         (* at [mMandelbrotIterator.fetch_add(1)] *)
| PBody          (* at [positionFromIndex], before the pixel is computed *)
| PDone.         (* returned *)

(** The local variables of one activation of [loop]. *)
Record Worker := {
  pc : PC;
  currentIndex : Z;
  currentBatch : Z;
  dummy : bool;
  threadStack : Stack.t
}.

(** A [std::thread] of [mThreads] with the activation of [loop] it runs. *)
Record Thread := {
  joinable : bool;
  worker : Worker
}.

Record LockfreeMandelbrot := {
  mThreads : list Thread;
  mMandelbrotIterator : Z;
  mIsSavingResults : bool;
  mResults : MandelbrotBitmap;
  mIsStarted : bool;
  mWidthPixels : Z;
  mHeightPixels : Z
}.

Definition set_mThreads (v : list Thread) (o : LockfreeMandelbrot) :=
  {| mThreads := v; mMandelbrotIterator := mMandelbrotIterator o;
     mIsSavingResults := mIsSavingResults o; mResults := mResults o;
     mIsStarted := mIsStarted o; mWidthPixels := mWidthPixels o;
     mHeightPixels := mHeightPixels o |}.

Definition set_mMandelbrotIterator (v : Z) (o : LockfreeMandelbrot) :=
  {| mThreads := mThreads o; mMandelbrotIterator := v;
     mIsSavingResults := mIsSavingResults o; mResults := mResults o;
     mIsStarted := mIsStarted o; mWidthPixels := mWidthPixels o;
     mHeightPixels := mHeightPixels o |}.

Definition set_mIsSavingResults (v : bool) (o : LockfreeMandelbrot) :=
  {| mThreads := mThreads o; mMandelbrotIterator := mMandelbrotIterator o;
     mIsSavingResults := v; mResults := mResults o;
     mIsStarted := mIsStarted o; mWidthPixels := mWidthPixels o;
     mHeightPixels := mHeightPixels o |}.

Definition set_map (v : Stack.ResultMap) (o : LockfreeMandelbrot) :=
  {| mThreads := mThreads o; mMandelbrotIterator := mMandelbrotIterator o;
     mIsSavingResults := mIsSavingResults o;
     mResults := {| map := v; width := width (mResults o); height := height (mResults o) |};
     mIsStarted := mIsStarted o; mWidthPixels := mWidthPixels o;
     mHeightPixels := mHeightPixels o |}.

Definition set_mIsStarted (v : bool) (o : LockfreeMandelbrot) :=
  {| mThreads := mThreads o; mMandelbrotIterator := mMandelbrotIterator o;
     mIsSavingResults := mIsSavingResults o; mResults := mResults o;
     mIsStarted := v; mWidthPixels := mWidthPixels o;
     mHeightPixels := mHeightPixels o |}.

(** The constructor.  [mMandelbrotIterator] and [mIsSavingResults] have no
    initialiser: their first values [iterator0] and [saving0] are whatever
    the default constructor of [std::atomic] leaves. *)
Definition LockfreeMandelbrot_new (iterator0 : Z) (saving0 : bool) (width height : Z)
    : LockfreeMandelbrot :=
  {| mThreads := [];
     mMandelbrotIterator := iterator0;
     mIsSavingResults := saving0;
     mResults := MandelbrotBitmap_new width height;
     mIsStarted := false;
     mWidthPixels := width;
     mHeightPixels := height |}.

Definition getMap (o : LockfreeMandelbrot) : MandelbrotBitmap := mResults o.

(** [positionFromIndex]: [in] is a [uint64_t], the results are [int]s. *)
Definition positionFromIndex (o : LockfreeMandelbrot) (index : Z) : Z * Z :=
  let y := to_int (to_u64 index / to_u64 (mWidthPixels o)) in
  let x := to_int (to_u64 (to_u64 index - to_u64 (y * mWidthPixels o))) in
  (x, y).

(** The pixel of [loop]: position, scaling and [render]. *)
Definition pixel (o : LockfreeMandelbrot) (index : Z) : Stack.Item :=
  let '(x, y) := positionFromIndex o index in
  let scaledX := Kernel.scaleX (mWidthPixels o) x in
  let scaledY := Kernel.scaleY (mHeightPixels o) y in
  let result := Kernel.render scaledX scaledY in
  {| Stack.x := x; Stack.y := y; Stack.res := result |}.

Definition set_pc (p : PC) (w : Worker) : Worker :=
  {| pc := p; currentIndex := currentIndex w; currentBatch := currentBatch w;
     dummy := dummy w; threadStack := threadStack w |}.

Section Loop.

(** The batch size, [cBatchSize] in the source (where it is 20000). *)
Variable cBatchSize : Z.

(** One step of a worker in [loop]: the object and the worker after it, and
    the index whose pixel the step computed, if it computed one.  [None] is
    undefined behaviour, or a worker that has returned. *)
Definition loop_step (o : LockfreeMandelbrot) (w : Worker)
    : option (LockfreeMandelbrot * Worker * option Z) :=
  let totalArea := mWidthPixels o * mHeightPixels o in
  match pc w with
  | PLoop =>
      let ci := currentIndex w + 1 in
      if cBatchSize =? 0 then None
      else if (Z.rem ci cBatchSize =? 0) || (totalArea <=? ci) then
        Some (o, {| pc := PSpin; currentIndex := ci; currentBatch := currentBatch w;
                    dummy := false; threadStack := threadStack w |}, None)
      else
        Some (o, {| pc := PBody; currentIndex := ci; currentBatch := currentBatch w;
                    dummy := dummy w; threadStack := threadStack w |}, None)
  | PSpin =>
      if Bool.eqb (mIsSavingResults o) (dummy w) then
        Some (set_mIsSavingResults true o, set_pc (PDump 0) w, None)
      else
        Some (o, {| pc := PSpin; currentIndex := currentIndex w;
                    currentBatch := currentBatch w; dummy := mIsSavingResults o;
                    threadStack := threadStack w |}, None)
  | PDump i =>
      if i =? Stack.lastPos (threadStack w) then
        Some (o, {| pc := PRelease; currentIndex := currentIndex w;
                    currentBatch := currentBatch w; dummy := dummy w;
                    threadStack := {| Stack.arr := Stack.arr (threadStack w);
                                      Stack.lastPos := 0 |} |}, None)
      else if (0 <=? i) && (i <? cBufferSize) then
        match Stack.assign (map (mResults o)) (Stack.arr (threadStack w) i) with
        | Some m => Some (set_map m o, set_pc (PDump (i + 1)) w, None)
        | None => None
        end
      else None
  | PRelease =>
      Some (set_mIsSavingResults false o, set_pc PFetch w, None)
  | PFetch =>
      let fetched := mMandelbrotIterator o in
      let o' := set_mMandelbrotIterator (to_u64 (fetched + 1)) o in
      let cb := to_int fetched in
      if Z.quot totalArea cBatchSize <=? cb then
        Some (o', {| pc := PDone; currentIndex := currentIndex w; currentBatch := cb;
                     dummy := dummy w; threadStack := threadStack w |}, None)
      else
        Some (o', {| pc := PBody; currentIndex := cb * cBatchSize; currentBatch := cb;
                     dummy := dummy w; threadStack := threadStack w |}, None)
  | PBody =>
      match Stack.push (threadStack w) (pixel o (currentIndex w)) with
      | Some st =>
          Some (o, {| pc := PLoop; currentIndex := currentIndex w;
                      currentBatch := currentBatch w; dummy := dummy w;
                      threadStack := st |}, Some (currentIndex w))
      | None => None
      end
  | PDone => None
  end.

End Loop.

(** ** The orchestrator: [startThreads] and [waitToFinish] *)

(** The activation of [loop] a new thread starts with:
    [Stack threadStack; int currentBatch, currentIndex{-1};].  The source
    leaves [currentBatch] without a first value; it is assigned by
    [fetch_add] before it is read, and starts as 0 here. *)
Definition spawned : Thread :=
  {| joinable := true;
     worker := {| pc := PLoop; currentIndex := -1; currentBatch := 0;
                  dummy := false; threadStack := Stack.fresh |} |}.

(** [startThreads]: the store to the counter comes first, then the
    [compare_exchange_strong] on [mIsStarted].  A negative [numThreads] makes
    [reserve] throw, which is the result [None]. *)
Definition startThreads (numThreads : Z) (o : LockfreeMandelbrot)
    : option (bool * LockfreeMandelbrot) :=
  let o := set_mMandelbrotIterator 0 o in
  if Bool.eqb (mIsStarted o) false then
    let o := set_mIsStarted true o in
    if numThreads <? 0 then None
    else Some (true, set_mThreads (mThreads o ++ replicate (Z.to_nat numThreads) spawned) o)
  else Some (false, o).

(** [t.join()] returns once the thread's [loop] has returned; until then the
    caller is blocked, which is the result [None]. *)
Definition join (t : Thread) : option Thread :=
  match pc (worker t) with
  | PDone => Some {| joinable := false; worker := worker t |}
  | _ => None
  end.

(** The loop [for (auto &t: mThreads)] of [waitToFinish], from the thread
    of index [i] on: the threads after it, and the indices of the threads
    [join] was called on. *)
Fixpoint join_all (i : nat) (ts : list Thread) : option (list Thread * list nat) :=
  match ts with
  | [] => Some ([], [])
  | t :: ts =>
      if joinable t then
        match join t with
        | Some t' =>
            match join_all (S i) ts with
            | Some (ts', joined) => Some (t' :: ts', i :: joined)
            | None => None
            end
        | None => None
        end
      else
        match join_all (S i) ts with
        | Some (ts', joined) => Some (t :: ts', joined)
        | None => None
        end
  end.

(** [waitToFinish]: the object when the call returns and the threads it
    joined; [None] while a thread it has to join is still running. *)
Definition waitToFinish (o : LockfreeMandelbrot) : option (LockfreeMandelbrot * list nat) :=
  if Bool.eqb (mIsStarted o) false then Some (o, [])
  else
    let o := set_mIsStarted false o in
    match join_all 0 (mThreads o) with
    | Some (ts, joined) => Some (set_mThreads ts o, joined)
    | None => None
    end.

(** ** Executions *)

(** The object together with the history of the pixels computed so far:
    [(i, k)] when the thread of index [i] computed the pixel of index [k].
    The history is an observation of the run, no part of the program. *)
Record System := {
  this : LockfreeMandelbrot;
  processed : list (nat * Z)
}.

Definition set_worker (i : nat) (w : Worker) (o : LockfreeMandelbrot) : LockfreeMandelbrot :=
  match mThreads o !! i with
  | Some t => set_mThreads (<[i := {| joinable := joinable t; worker := w |}]> (mThreads o)) o
  | None => o
  end.

Section Executions.

Variable cBatchSize : Z.

(** The thread of index [i] takes its next step. *)
Definition thread_step (i : nat) (s : System) : option System :=
  match mThreads (this s) !! i with
  | Some t =>
      match loop_step cBatchSize (this s) (worker t) with
      | Some (o, w, ev) =>
          Some {| this := set_worker i w o;
                  processed := match ev with
                               | Some k => processed s ++ [(i, k)]
                               | None => processed s
                               end |}
      | None => None
      end
  | None => None
  end.

(** One step of the system: some thread takes a step.  (A spurious failure
    of [compare_exchange_weak] changes nothing and is no step.) *)
Definition step (s s' : System) : Prop :=
  exists i, thread_step i s = Some s'.

(** A thread is about to run into undefined behaviour. *)
Definition undefined (s : System) : Prop :=
  exists i t, mThreads (this s) !! i = Some t /\ pc (worker t) <> PDone /\
              loop_step cBatchSize (this s) (worker t) = None.

(** Running a schedule: the threads named take one step each, in order. *)
Fixpoint run_schedule (schedule : list nat) (s : System) : option System :=
  match schedule with
  | [] => Some s
  | i :: schedule =>
      match thread_step i s with
      | Some s' => run_schedule schedule s'
      | None => None
      end
  end.

(** Thread [i] runs alone for at most [fuel] steps, until it has returned. *)
Fixpoint run_thread (fuel : nat) (i : nat) (s : System) : System :=
  match fuel with
  | O => s
  | S fuel =>
      match thread_step i s with
      | Some s' => run_thread fuel i s'
      | None => s
      end
  end.

(** A complete run of the program of [main] on a [width] by [height]
    bitmap with [numThreads] threads: construction, a successful
    [startThreads], steps of the workers, and a [waitToFinish] that
    returns.  [final] is the object [waitToFinish] leaves and [history] the
    pixels computed. *)
Definition complete_run (iterator0 : Z) (saving0 : bool) (width height numThreads : Z)
    (final : LockfreeMandelbrot) (history : list (nat * Z)) : Prop :=
  exists started s joined,
    startThreads numThreads (LockfreeMandelbrot_new iterator0 saving0 width height)
      = Some (true, started) /\
    rtc step {| this := started; processed := [] |} s /\
    waitToFinish (this s) = Some (final, joined) /\
    history = processed s.

End Executions.

(** A worker is in the critical section from the moment its
    [compare_exchange_weak] has succeeded until it has stored [false] into
    [mIsSavingResults]. *)
Definition in_critical_section (w : Worker) : bool :=
  match pc w with
  | PDump _ | PRelease => true
  | _ => false
  end.

(** The object after a successful [startThreads], or the object as it was. *)
Definition started (numThreads : Z) (o : LockfreeMandelbrot) : LockfreeMandelbrot :=
  match startThreads numThreads o with
  | Some (true, o') => o'
  | _ => o
  end.

(** The program of [main] after [lfm.startThreads(24)], for either first
    value of [mIsSavingResults]. *)
Definition main_started (saving0 : bool) : System :=
  {| this := started 24 (LockfreeMandelbrot_new 0 saving0 cWidthPixels cHeightPixels);
     processed := [] |}.

(** A 2 by 2 bitmap with two threads started; then the first thread has
    run until it returned while the second has not run yet; then
    [waitToFinish] has returned after the second has run as well. *)
Definition small_started : System :=
  {| this := started 2 (LockfreeMandelbrot_new 0 false 2 2); processed := [] |}.

Definition small_first_done : System :=
  run_thread cBatchSize_main 10 0 small_started.

Definition small_all_done : System :=
  run_thread cBatchSize_main 10 1 small_first_done.

Definition small_joined : LockfreeMandelbrot :=
  match waitToFinish (this small_all_done) with
  | Some (o, _) => o
  | None => this small_all_done
  end.

(** A 3 by 2 bitmap computed by two threads in batches of 4: the first
    thread runs until it has returned, then the second, then
    [waitToFinish] returns. *)
Definition tiny_started : System :=
  {| this := started 2 (LockfreeMandelbrot_new 0 false 3 2); processed := [] |}.

Definition tiny_all_done : System :=
  run_thread 4 50 1 (run_thread 4 50 0 tiny_started).

Definition tiny_joined : LockfreeMandelbrot :=
  match waitToFinish (this tiny_all_done) with
  | Some (o, _) => o
  | None => this tiny_all_done
  end.

(** ** Rendering: [drawFromResults] *)

(** The conditions of the four branches of [drawFromResults], in order. *)
Definition branch1 (r : Z) : bool := r <=? 10.
Definition branch2 (r : Z) : bool := (10 <? r) && (r <=? 100).
Definition branch3 (r : Z) : bool := (100 <? r) && (r <=? 200).
Definition branch4 (r : Z) : bool := (200 <? r) && (r <=? 1000).

(** The character [drawFromResults] prints for the result [r]; [None] when
    no branch assigns [c], which is then printed uninitialised. *)
Definition draw_char (r : Z) : option ascii :=
  if branch1 r then Some " "%char
  else if branch2 r then Some "."%char
  else if branch3 r then Some "x"%char
  else if branch4 r then Some "O"%char
  else None.

(** The number of branch conditions that hold for [r]. *)
Definition branches_taken (r : Z) : nat :=
  length (filter (fun b => b = true) [branch1 r; branch2 r; branch3 r; branch4 r]).

(** ** Concrete inputs *)

(** A buffer with the two entries (0, 0, 1) and (0, 0, 2). *)
Definition twice_the_same_cell : Stack.t :=
  {| Stack.arr := fun k => {| Stack.x := 0; Stack.y := 0; Stack.res := k + 1 |};
     Stack.lastPos := 2 |}.

(** ** What the workers maintain *)

Section InvariantDefinitions.

(** The batch size and the size of the bitmap. *)
Variables cBatchSize mWidth mHeight : Z.

(** The number of batches the workers accept: [totalArea / cBatchSize]. *)
Definition batches : Z := (mWidth * mHeight) / cBatchSize.

(** The result of the pixel at [(x, y)]. *)
Definition value_at (x y : Z) : Z :=
  Kernel.render (Kernel.scaleX mWidth x) (Kernel.scaleY mHeight y).

(** The item [loop] pushes for the index [k]. *)
Definition expected (k : Z) : Stack.Item :=
  {| Stack.x := k mod mWidth; Stack.y := k / mWidth;
     Stack.res := value_at (k mod mWidth) (k / mWidth) |}.

(** The indices of the pixels of a history. *)
Definition indices (history : list (nat * Z)) : list Z := List.map snd history.

(** The cell of index [k] holds the result of its pixel. *)
Definition cell_ok (m : Stack.ResultMap) (k : Z) : Prop :=
  Stack.at_xy m (k mod mWidth) (k / mWidth) = Some (value_at (k mod mWidth) (k / mWidth)).

(** The map has the shape the constructor gave it, and every cell holds
    its first value 0 or, for an index inside a batch the workers accept,
    the result of its pixel. *)
Definition map_inv (m : Stack.ResultMap) : Prop :=
  length m = Z.to_nat mWidth /\
  Forall (fun col => length col = Z.to_nat mHeight) m /\
  forall x y, 0 <= x < mWidth -> 0 <= y < mHeight ->
    Stack.at_xy m x y = Some 0 \/
    (y * mWidth + x < batches * cBatchSize /\ Stack.at_xy m x y = Some (value_at x y)).

(** The worker has claimed a batch the workers accept, and its buffer
    holds the pixels of that batch in order, each of them computed. *)
Definition holds (s : System) (w : Worker) : Prop :=
  0 <= currentBatch w < batches /\
  currentBatch w < mMandelbrotIterator (this s) /\
  forall j, 0 <= j < Stack.lastPos (threadStack w) ->
    Stack.arr (threadStack w) j = expected (currentBatch w * cBatchSize + j) /\
    In (currentBatch w * cBatchSize + j) (indices (processed s)).

Definition worker_inv (s : System) (w : Worker) : Prop :=
  let lp := Stack.lastPos (threadStack w) in
  let b := currentBatch w in
  match pc w with
  | PLoop =>
      (currentIndex w = -1 /\ lp = 0) \/
      (holds s w /\ 1 <= lp <= cBatchSize /\ currentIndex w = b * cBatchSize + lp - 1)
  | PBody =>
      holds s w /\ 0 <= lp < cBatchSize /\ currentIndex w = b * cBatchSize + lp
  | PSpin =>
      lp = 0 \/ (holds s w /\ lp = cBatchSize)
  | PDump i =>
      (lp = 0 /\ i = 0) \/
      (holds s w /\ lp = cBatchSize /\ 0 <= i <= cBatchSize /\
       forall j, 0 <= j < i -> cell_ok (map (mResults (this s))) (b * cBatchSize + j))
  | PRelease | PFetch => lp = 0
  | PDone => batches < mMandelbrotIterator (this s)
  end.

(** The worker is at work on the batch [b]. *)
Definition owns (w : Worker) (b : Z) : Prop :=
  currentBatch w = b /\
  match pc w with
  | PBody => True
  | PLoop | PSpin | PDump _ => 0 < Stack.lastPos (threadStack w)
  | PRelease | PFetch | PDone => False
  end.

(** Every pixel of the batch [b] has been computed and is in the map. *)
Definition batch_done (s : System) (b : Z) : Prop :=
  forall k, b * cBatchSize <= k < (b + 1) * cBatchSize ->
    cell_ok (map (mResults (this s))) k /\ In k (indices (processed s)).

Definition returned (w : Worker) : Z :=
  match pc w with PDone => 1 | _ => 0 end.

(** The number of workers that have returned. *)
Fixpoint done_count (ts : list Thread) : Z :=
  match ts with
  | [] => 0
  | t :: ts => returned (worker t) + done_count ts
  end.

Record inv (s : System) : Prop := {
  inv_width : mWidthPixels (this s) = mWidth;
  inv_height : mHeightPixels (this s) = mHeight;
  inv_started : mIsStarted (this s) = true;
  inv_joinable : forall i t, mThreads (this s) !! i = Some t -> joinable t = true;
  inv_threads_int : batches + Z.of_nat (length (mThreads (this s))) <= INT_MAX;
  inv_counter :
    0 <= mMandelbrotIterator (this s) <= batches + done_count (mThreads (this s));
  inv_map : map_inv (map (mResults (this s)));
  inv_history :
    forall k, In k (indices (processed s)) -> 0 <= k < batches * cBatchSize;
  inv_workers :
    forall i t, mThreads (this s) !! i = Some t -> worker_inv s (worker t);
  inv_progress :
    forall b, 0 <= b < batches -> b < mMandelbrotIterator (this s) ->
      batch_done s b \/ exists i t, mThreads (this s) !! i = Some t /\ owns (worker t) b
}.

(** The counter has not gone down, the cells that were right are right and
    the history has grown. *)
Definition extends (s s' : System) : Prop :=
  mMandelbrotIterator (this s) <= mMandelbrotIterator (this s') /\
  (forall k, cell_ok (map (mResults (this s))) k ->
             cell_ok (map (mResults (this s'))) k) /\
  (forall k, In k (indices (processed s)) -> In k (indices (processed s'))).

(** Every worker has returned. *)
Definition all_returned (s : System) : Prop :=
  forall i t, mThreads (this s) !! i = Some t -> pc (worker t) = PDone.

(** A bound on the steps the worker still takes when it runs alone: the
    steps left in its present round of the loop, and a full round for every
    batch not yet claimed. *)
Definition steps_in_round (o : LockfreeMandelbrot) (w : Worker) : Z :=
  let lp := Stack.lastPos (threadStack w) in
  match pc w with
  | PDone => 0
  | PFetch => 1
  | PRelease => 2
  | PDump i => 3 + (lp - i)
  | PSpin => 4 + lp + (if Bool.eqb (mIsSavingResults o) (dummy w) then 0 else 1)
  | PBody => 6 + cBatchSize + 2 * (cBatchSize - lp)
  | PLoop => 7 + cBatchSize + 2 * (cBatchSize - lp)
  end.

Definition steps_left (o : LockfreeMandelbrot) (w : Worker) : Z :=
  Z.max 0 (batches - mMandelbrotIterator o) * (3 * cBatchSize + 6) + steps_in_round o w.

(** No pixel has been computed twice: the history has no index twice, its
    indices lie in batches already claimed, those of a batch a worker is at
    work on are the ones in that worker's buffer, and no two workers are
    at work on the same batch. *)
Definition once_inv (s : System) : Prop :=
  List.NoDup (indices (processed s)) /\
  (forall k, In k (indices (processed s)) ->
     k < mMandelbrotIterator (this s) * cBatchSize) /\
  (forall i t b k,
     mThreads (this s) !! i = Some t -> owns (worker t) b ->
     In k (indices (processed s)) -> b * cBatchSize <= k < (b + 1) * cBatchSize ->
     k < b * cBatchSize + Stack.lastPos (threadStack (worker t))) /\
  (forall i j ti tj b,
     mThreads (this s) !! i = Some ti -> mThreads (this s) !! j = Some tj ->
     owns (worker ti) b -> owns (worker tj) b -> i = j).

End InvariantDefinitions.

(** ** The constructor of [MandelbrotBitmap], loop by loop *)

(** The loop [for (int y = 0; y != height; ++y) map[0].emplace_back()],
    with [n] iterations left: a zero is appended to the column each time. *)
Fixpoint emplace_cells (n : nat) (column : list Z) : list Z :=
  match n with
  | O => column
  | S n => emplace_cells n (column ++ [0])
  end.

(** The loop [for (int x = 1; x != width; ++x) map.push_back(map[0])],
    with [n] iterations left. *)
Fixpoint push_columns (n : nat) (m : list (list Z)) : list (list Z) :=
  match n with
  | O => m
  | S n =>
      match m !! 0%nat with
      | Some column => push_columns n (m ++ [column])
      | None => m
      end
  end.

(** The constructor as the source writes it.  With [width < 1] or
    [height < 0] a loop counter never meets its bound, which is the result
    [None]. *)
Definition MandelbrotBitmap_loops (width height : Z) : option MandelbrotBitmap :=
  if (1 <=? width) && (0 <=? height) then
    let m := [] ++ [[]] in
    let m := <[0%nat := emplace_cells (Z.to_nat height) []]> m in
    let m := push_columns (Z.to_nat (width - 1)) m in
    Some {| map := m; width := width; height := height |}
  else None.

(** ** [drawFromResults], loop by loop *)

Definition newline : ascii := "010"%char.

(** The inner loop [for (int x = 0; x != mandelbrotBitmap.width; ++x)] of
    the row [y], with [n] iterations left at [x]: the characters printed.
    A cell outside the vectors and a character no branch has assigned are
    undefined. *)
Fixpoint draw_row (n : nat) (m : Stack.ResultMap) (x y : Z) : option (list ascii) :=
  match n with
  | O => Some []
  | S n =>
      match Stack.at_xy m x y with
      | Some r =>
          match draw_char r with
          | Some c =>
              match draw_row n m (x + 1) y with
              | Some rest => Some (c :: rest)
              | None => None
              end
          | None => None
          end
      | None => None
      end
  end.

(** The outer loop [for (int y = 0; y != mandelbrotBitmap.height; ++y)],
    with [n] iterations left at [y]: each row is followed by a newline. *)
Fixpoint draw_rows (n : nat) (bitmap : MandelbrotBitmap) (y : Z) : option (list ascii) :=
  match n with
  | O => Some []
  | S n =>
      match draw_row (Z.to_nat (width bitmap)) (map bitmap) 0 y with
      | Some row =>
          match draw_rows n bitmap (y + 1) with
          | Some rest => Some (row ++ newline :: rest)
          | None => None
          end
      | None => None
      end
  end.

(** [drawFromResults]: the characters written to [std::cout].  With a
    negative [width] or [height] a loop counter never meets its bound. *)
Definition drawFromResults (bitmap : MandelbrotBitmap) : option (list ascii) :=
  if (0 <=? width bitmap) && (0 <=? height bitmap) then
    draw_rows (Z.to_nat (height bitmap)) bitmap 0
  else None.

(** The bitmap in which every cell holds the result of its pixel. *)
Definition exact_bitmap (mWidth mHeight : Z) : MandelbrotBitmap :=
  {| map := (fun x => (fun y => value_at mWidth mHeight (Z.of_nat x) (Z.of_nat y))
                      <$> seq 0 (Z.to_nat mHeight))
            <$> seq 0 (Z.to_nat mWidth);
     width := mWidth;
     height := mHeight |}.

(** ** More concrete inputs *)

(** A buffer with the three entries (0, 0, 5), (1, 0, 6) and (0, 1, 7). *)
Definition three_entries : Stack.t :=
  {| Stack.arr := fun k => {| Stack.x := k mod 2; Stack.y := k / 2; Stack.res := k + 5 |};
     Stack.lastPos := 3 |}.

(** A 2 by 2 bitmap with the cells 0, 11, 101 and 1000, and one with a
    cell above 1000. *)
Definition four_symbols : MandelbrotBitmap :=
  {| map := [[0; 101]; [11; 1000]]; width := 2; height := 2 |}.

Definition above_the_cap : MandelbrotBitmap :=
  {| map := [[0; 101]; [11; 1001]]; width := 2; height := 2 |}.

(** ** States a run passes through *)

(** The state [s] is reached by steps of the workers after construction
    and a successful [startThreads]. *)
Definition reachable (cBatchSize iterator0 : Z) (saving0 : bool)
    (width height numThreads : Z) (s : System) : Prop :=
  exists o,
    startThreads numThreads (LockfreeMandelbrot_new iterator0 saving0 width height)
      = Some (true, o) /\
    rtc (step cBatchSize) {| this := o; processed := [] |} s.

(** The thread [i] takes a step if it has one. *)
Definition try_step (cBatchSize : Z) (i : nat) (s : System) : System :=
  match thread_step cBatchSize i s with
  | Some s' => s'
  | None => s
  end.

(** [rounds] rounds in each of which the threads 0 to [n - 1] take a step
    each, in this order. *)
Fixpoint run_rounds (cBatchSize : Z) (rounds n : nat) (s : System) : System :=
  match rounds with
  | O => s
  | S rounds =>
      run_rounds cBatchSize rounds n
        (fold_left (fun s i => try_step cBatchSize i s) (seq 0 n) s)
  end.

(** A 3 by 2 bitmap computed in batches of 2 by two threads that take
    their steps in turn, with the flag set at the start: after 8 rounds
    and after 40, and the object [waitToFinish] leaves then. *)
Definition pair_started : System :=
  {| this := started 2 (LockfreeMandelbrot_new 5 true 3 2); processed := [] |}.

Definition pair_midway : System := run_rounds 2 8 2 pair_started.

Definition pair_all_done : System := run_rounds 2 40 2 pair_started.

Definition pair_joined : LockfreeMandelbrot :=
  match waitToFinish (this pair_all_done) with
  | Some (o, _) => o
  | None => this pair_all_done
  end.

(** The same run after 12 rounds, when both workers are in [dumpToMap],
    and the thread of index [i] of a state. *)
Definition pair_dumping : System := run_rounds 2 12 2 pair_started.

Definition thread_of (i : nat) (s : System) : Thread :=
  match mThreads (this s) !! i with
  | Some t => t
  | None => spawned
  end.

(** ** What the workers maintain besides *)

Section MoreInvariantDefinitions.

Variable cBatchSize : Z.

(** The pixels of one batch have all been computed by one thread, and
    those of a batch a worker is at work on by that worker's thread. *)
Definition batch_workers (s : System) : Prop :=
  (forall i j k k', In (i, k) (processed s) -> In (j, k') (processed s) ->
     k / cBatchSize = k' / cBatchSize -> i = j) /\
  (forall i t b j k, mThreads (this s) !! i = Some t -> owns (worker t) b ->
     In (j, k) (processed s) -> b * cBatchSize <= k < (b + 1) * cBatchSize -> j = i).

(** While the flag is set there is a worker that has not yet stored
    [false] into it for the last time. *)
Definition flag_inv (s : System) : Prop :=
  mIsSavingResults (this s) = true ->
  exists i t, mThreads (this s) !! i = Some t /\
    pc (worker t) <> PFetch /\ pc (worker t) <> PDone.

(** The workers that have returned are as many as the fetches that found
    no batch left. *)
Definition counter_inv (mWidth mHeight : Z) (s : System) : Prop :=
  done_count (mThreads (this s))
  = Z.max 0 (mMandelbrotIterator (this s) - batches cBatchSize mWidth mHeight).

End MoreInvariantDefinitions.

(** ** The picture and the length of executions *)

(** The value the cell [(x, y)] holds after a complete run. *)
Definition value_after_run (cBatchSize mWidth mHeight x y : Z) : Z :=
  if y * mWidth + x <? batches cBatchSize mWidth mHeight * cBatchSize
  then value_at mWidth mHeight x y else 0.

Section StepBoundDefinitions.

Variables cBatchSize mWidth mHeight : Z.

(** The weight [K] of a store to the flag, which will be the number of
    threads: such a store can make every other worker fail once more at
    its [compare_exchange_weak]. *)
Variable K : Z.

(** A bound on what a worker still does in its present round of the loop:
    its steps, a store to the flag counting [K]. *)
Definition round_weight (o : LockfreeMandelbrot) (w : Worker) : Z :=
  let lp := Stack.lastPos (threadStack w) in
  match pc w with
  | PDone => 0
  | PFetch => 1
  | PRelease => K + 1
  | PDump i => K + 2 + (lp - i)
  | PSpin => 2 * K + 2 + lp + (if Bool.eqb (mIsSavingResults o) (dummy w) then 0 else 1)
  | PBody => 2 * K + 4 + cBatchSize + 2 * (cBatchSize - lp)
  | PLoop => 2 * K + 5 + cBatchSize + 2 * (cBatchSize - lp)
  end.

(** The same for a full round. *)
Definition round_cost : Z := 3 * cBatchSize + 2 * K + 4.

(** A full round for every batch not yet claimed, and the present round. *)
Definition weight (o : LockfreeMandelbrot) (w : Worker) : Z :=
  Z.max 0 (batches cBatchSize mWidth mHeight - mMandelbrotIterator o) * round_cost
  + round_weight o w.

Fixpoint total_weight (o : LockfreeMandelbrot) (ts : list Thread) : Z :=
  match ts with
  | [] => 0
  | t :: ts => weight o (worker t) + total_weight o ts
  end.

End StepBoundDefinitions.

(** The sum of the weights of the workers, a store to the flag counting
    the number of threads. *)
Definition potential (cBatchSize mWidth mHeight : Z) (s : System) : Z :=
  total_weight cBatchSize mWidth mHeight (Z.of_nat (length (mThreads (this s))))
    (this s) (mThreads (this s)).

(** The number of steps no execution exceeds. *)
Definition step_bound (cBatchSize mWidth mHeight numThreads : Z) : Z :=
  numThreads * ((batches cBatchSize mWidth mHeight + 1)
                * (3 * cBatchSize + 2 * numThreads + 4) + 1).

(** ** The reference recurrence of the specification *)

Module Reference.

Local Open Scope float_scope.

(** [z] after [n] iterations of [z <- z^2 + c] from [z = 0], by the
    expansion into real and imaginary part. *)
Fixpoint orbit (cx cy : float) (n : nat) : float * float :=
  match n with
  | O => (0, 0)
  | S n =>
      let '(x, y) := orbit cx cy n in
      (x * x - y * y + cx, 2 * x * y + cy)
  end.

(** Whether [|z|^2] exceeds 4.0 after [n] iterations. *)
Definition escapes_at (cx cy : float) (n : nat) : bool :=
  let '(x, y) := orbit cx cy n in PrimFloat.ltb 4 (x * x + y * y).

(** Counting iterations from [n] completed ones, at most [cap] more, until
    the iteration just made escapes. *)
Fixpoint count_from (cap : nat) (cx cy : float) (n : nat) : nat :=
  match cap with
  | O => n
  | S cap => if escapes_at cx cy (S n) then n else count_from cap cx cy (S n)
  end.

(** The iteration count of the recurrence with the cap of 1000. *)
Definition escape_time (cx cy : float) : Z :=
  Z.of_nat (count_from 1000 cx cy 0).

End Reference.

(** * Properties *)

(** ** The kernel *)

Section KernelFacts.

Import Kernel Reference.

Variables cx cy : float.

Lemma escaped_orbit n :
  escaped (fst (iterate cx cy (orbit cx cy n))) (snd (iterate cx cy (orbit cx cy n)))
  = escapes_at cx cy (S n).
Proof.
  unfold escapes_at, iterate. simpl. destruct (orbit cx cy n) as [x y]. reflexivity.
Qed.

Lemma iterate_orbit n : iterate cx cy (orbit cx cy n) = orbit cx cy (S n).
Proof. unfold iterate. simpl. destruct (orbit cx cy n) as [x y]. reflexivity. Qed.

(** The loop of [render] counts as the reference does, as long as the fuel
    covers the iterations left below the cap. *)
Lemma render_loop_count fuel : forall n : nat,
  (n + fuel = 1000)%nat ->
  render_loop fuel cx cy (orbit cx cy n) (Z.of_nat n) = Z.of_nat (count_from fuel cx cy n).
Proof.
  induction fuel as [|fuel IH]; intros n Hn; simpl; [reflexivity|].
  destruct (Z.eqb_spec (Z.of_nat n) cMaxIterations) as [E|_].
  { unfold cMaxIterations in E. lia. }
  rewrite escaped_orbit, iterate_orbit.
  destruct (escapes_at cx cy (S n)); [reflexivity|].
  replace (Z.of_nat n + 1) with (Z.of_nat (S n)) by lia.
  apply IH. lia.
Qed.

(** More fuel than the cap needs changes nothing: the loop of [render] has
    ended after [cMaxIterations - i] iterations. *)
Lemma render_loop_fuel fuel : forall extra p (i : Z),
  0 <= i <= cMaxIterations -> (Z.to_nat (cMaxIterations - i) <= fuel)%nat ->
  render_loop (fuel + extra) cx cy p i = render_loop fuel cx cy p i.
Proof.
  induction fuel as [|fuel IH]; intros extra p i Hi Hf.
  - assert (i = cMaxIterations) as -> by lia.
    destruct extra; reflexivity.
  - simpl. destruct (Z.eqb_spec i cMaxIterations); [reflexivity|].
    destruct (escaped _ _); [reflexivity|]. apply IH; lia.
Qed.

Lemma count_from_bounds cap : forall n, (n <= count_from cap cx cy n <= n + cap)%nat.
Proof.
  induction cap as [|cap IH]; intros n; simpl; [lia|].
  destruct (escapes_at cx cy (S n)); [lia|]. specialize (IH (S n)). lia.
Qed.

Lemma count_from_before cap : forall n m,
  (n <= m < count_from cap cx cy n)%nat -> escapes_at cx cy (S m) = false.
Proof.
  induction cap as [|cap IH]; intros n m Hm; simpl in Hm; [lia|].
  destruct (escapes_at cx cy (S n)) eqn:E; [lia|].
  destruct (decide (m = n)) as [->|Hne]; [exact E|].
  apply (IH (S n)). lia.
Qed.

Lemma count_from_stop cap : forall n,
  (count_from cap cx cy n < n + cap)%nat ->
  escapes_at cx cy (S (count_from cap cx cy n)) = true.
Proof.
  induction cap as [|cap IH]; intros n Hlt; simpl in *; [lia|].
  destruct (escapes_at cx cy (S n)) eqn:E; [exact E|].
  apply IH. lia.
Qed.

Lemma render_escape_time : render cx cy = escape_time cx cy.
Proof.
  unfold render, escape_time.
  change (to_u16 (render_loop 1000 cx cy (orbit cx cy 0) (Z.of_nat 0))
          = Z.of_nat (count_from 1000 cx cy 0)).
  rewrite (render_loop_count 1000 0) by reflexivity.
  pose proof (count_from_bounds 1000 0).
  unfold to_u16. apply Z.mod_small. lia.
Qed.

End KernelFacts.

Lemma render_range cx cy : 0 <= Kernel.render cx cy <= 1000.
Proof.
  rewrite render_escape_time. unfold Reference.escape_time.
  pose proof (count_from_bounds cx cy 1000 0). lia.
Qed.

(** C7: [render] ends within [cMaxIterations] iterations of its loop (more
    fuel than that never changes the result), and what it returns is the
    iteration count of the reference recurrence: a value from 0 to 1000,
    before which no iterate has escaped, at which the next iterate escapes
    when it is below 1000, and which is 1000 exactly when none of the first
    1000 iterates escapes. *)
Theorem C7_render_is_escape_time (cx cy : float) :
  (forall extra : nat,
     Kernel.render_loop (1000 + extra)%nat cx cy (0%float, 0%float) 0
     = Kernel.render_loop 1000 cx cy (0%float, 0%float) 0) /\
  (Kernel.render cx cy = Reference.escape_time cx cy) /\
  (0 <= Kernel.render cx cy <= 1000) /\
  (forall n : nat, Z.of_nat n < Kernel.render cx cy ->
     Reference.escapes_at cx cy (S n) = false) /\
  (Kernel.render cx cy < 1000 ->
     Reference.escapes_at cx cy (S (Z.to_nat (Kernel.render cx cy))) = true) /\
  (Kernel.render cx cy = 1000 <->
     forall n : nat, (n < 1000)%nat -> Reference.escapes_at cx cy (S n) = false).
Proof.
  pose proof (render_range cx cy) as Hr.
  pose proof (render_escape_time cx cy) as He.
  unfold Reference.escape_time in He.
  assert (Hbefore : forall n : nat, Z.of_nat n < Kernel.render cx cy ->
            Reference.escapes_at cx cy (S n) = false).
  { intros n Hn. apply (count_from_before cx cy 1000 0). lia. }
  assert (Hstop : Kernel.render cx cy < 1000 ->
            Reference.escapes_at cx cy (S (Z.to_nat (Kernel.render cx cy))) = true).
  { intros Hlt. rewrite He, Nat2Z.id. apply count_from_stop. lia. }
  split; [|split; [|split; [|split; [|split]]]].
  - intros extra. apply render_loop_fuel; unfold cMaxIterations; lia.
  - exact (render_escape_time cx cy).
  - exact Hr.
  - exact Hbefore.
  - exact Hstop.
  - split.
    + intros E n Hn. apply Hbefore. lia.
    + intros Hall. destruct (decide (Kernel.render cx cy = 1000)) as [|Hne]; [assumption|].
      assert (Hlt : Kernel.render cx cy < 1000) by lia.
      specialize (Hstop Hlt). rewrite Hall in Hstop; [discriminate|]. lia.
Qed.

(** ** The buffer *)

Section StackFacts.

Import Stack.

Implicit Types (m : ResultMap) (e : Item).

Lemma at_xy_Some m x y r :
  at_xy m x y = Some r ->
  0 <= x /\ 0 <= y /\ exists col, m !! Z.to_nat x = Some col /\ col !! Z.to_nat y = Some r.
Proof.
  unfold at_xy. intros H.
  destruct (Z.leb_spec 0 x), (Z.leb_spec 0 y); simpl in H; try discriminate.
  destruct (m !! Z.to_nat x) as [col|] eqn:Hc; [|discriminate]. eauto.
Qed.

Lemma assign_at_same m e m' :
  assign m e = Some m' -> at_xy m' (x e) (y e) = Some (res e).
Proof.
  unfold assign, at_xy. intros H.
  destruct ((0 <=? x e) && (0 <=? y e)); [|discriminate].
  destruct (m !! Z.to_nat (x e)) as [col|] eqn:Hc; [|discriminate].
  destruct (Nat.ltb_spec (Z.to_nat (y e)) (length col)); [|discriminate].
  injection H as <-.
  rewrite list_lookup_insert_eq by (eapply lookup_lt_Some; eassumption).
  apply list_lookup_insert_eq. assumption.
Qed.

Lemma assign_at_other m e m' x' y' :
  assign m e = Some m' -> (x', y') <> (x e, y e) -> at_xy m' x' y' = at_xy m x' y'.
Proof.
  unfold assign, at_xy. intros H Hne.
  destruct (Z.leb_spec 0 (x e)), (Z.leb_spec 0 (y e)); simpl in H; try discriminate.
  destruct (m !! Z.to_nat (x e)) as [col|] eqn:Hc; [|discriminate].
  destruct (Nat.ltb_spec (Z.to_nat (y e)) (length col)); [|discriminate].
  injection H as <-.
  destruct (Z.leb_spec 0 x'), (Z.leb_spec 0 y'); simpl; try reflexivity.
  destruct (decide (Z.to_nat x' = Z.to_nat (x e))) as [Ex|Ex].
  - rewrite Ex, Hc.
    rewrite list_lookup_insert_eq by (eapply lookup_lt_Some; eassumption).
    apply list_lookup_insert_ne. intros Ey. apply Hne. f_equal; lia.
  - rewrite list_lookup_insert_ne by auto. reflexivity.
Qed.

Lemma assign_defined m e :
  is_Some (at_xy m (x e) (y e)) -> is_Some (assign m e).
Proof.
  intros [r Hr]. apply at_xy_Some in Hr as (Hx & Hy & col & Hc & Hy').
  unfold assign.
  destruct (Z.leb_spec 0 (x e)), (Z.leb_spec 0 (y e)); try lia. simpl.
  rewrite Hc. apply lookup_lt_Some in Hy'.
  destruct (Nat.ltb_spec (Z.to_nat (y e)) (length col)); [eauto|lia].
Qed.

Lemma assign_is_Some m e m' x' y' :
  assign m e = Some m' -> is_Some (at_xy m' x' y') <-> is_Some (at_xy m x' y').
Proof.
  intros H.
  destruct (decide ((x', y') = (x e, y e))) as [E|Hne].
  - injection E as -> ->. rewrite (assign_at_same _ _ _ H).
    split; [intros _|eauto].
    unfold assign in H. unfold at_xy.
    destruct ((0 <=? x e) && (0 <=? y e)); [|discriminate].
    destruct (m !! Z.to_nat (x e)) as [col|]; [|discriminate].
    destruct (Nat.ltb_spec (Z.to_nat (y e)) (length col)); [|discriminate].
    apply lookup_lt_is_Some. assumption.
  - rewrite (assign_at_other _ _ _ _ _ H Hne). reflexivity.
Qed.

(** What the loop of [dumpToMap] does to the map when every entry it
    copies lies inside it. *)
Lemma dump_loop_spec n (a : Z -> Item) : forall i m,
  (forall j, i <= j < i + Z.of_nat n -> is_Some (at_xy m (x (a j)) (y (a j)))) ->
  exists m', dump_loop n a i m = Some m' /\
    (forall x' y', is_Some (at_xy m' x' y') <-> is_Some (at_xy m x' y')) /\
    (forall x' y',
       (forall j, i <= j < i + Z.of_nat n -> (x (a j), y (a j)) <> (x', y')) ->
       at_xy m' x' y' = at_xy m x' y') /\
    (forall j, i <= j < i + Z.of_nat n ->
       (forall j', j < j' < i + Z.of_nat n -> (x (a j'), y (a j')) <> (x (a j), y (a j))) ->
       at_xy m' (x (a j)) (y (a j)) = Some (res (a j))).
Proof.
  induction n as [|n IH]; intros i m Hin; simpl.
  - exists m. repeat split; auto; intros; lia.
  - destruct (assign_defined m (a i)) as [m1 Hm1]; [apply Hin; lia|].
    rewrite Hm1.
    destruct (IH (i + 1) m1) as (m' & Hrun & Hdom & Hframe & Hlast).
    { intros j Hj. apply (assign_is_Some _ _ _ _ _ Hm1). apply Hin. lia. }
    exists m'. split; [exact Hrun|]. split; [|split].
    + intros x' y'. rewrite Hdom. apply (assign_is_Some _ _ _ _ _ Hm1).
    + intros x' y' Hnot. rewrite Hframe by (intros j Hj; apply Hnot; lia).
      apply (assign_at_other _ _ _ _ _ Hm1). intros E. apply (Hnot i); [lia|]. congruence.
    + intros j Hj Hlater.
      destruct (decide (j = i)) as [->|Hne].
      * rewrite Hframe by (intros j' Hj'; apply Hlater; lia).
        apply (assign_at_same _ _ _ Hm1).
      * apply Hlast; [lia|]. intros j' Hj'. apply Hlater. lia.
Qed.

End StackFacts.

(** C8, as stated, fails: of two entries for the same cell the later one
    is what the cell holds after the dump, not the earlier one; and for a
    map that does not have the cell of an entry the dump is undefined. *)
Lemma C8_earlier_duplicate_is_overwritten :
  (exists s' m',
     Stack.dumpToMap twice_the_same_cell [[0]] = Some (s', m') /\
     Stack.entries twice_the_same_cell
       = [ {| Stack.x := 0; Stack.y := 0; Stack.res := 1 |};
           {| Stack.x := 0; Stack.y := 0; Stack.res := 2 |} ] /\
     Stack.at_xy m' 0 0 = Some 2 /\
     Stack.at_xy m' 0 0 <> Some 1) /\
  Stack.dumpToMap twice_the_same_cell [] = None.
Proof.
  split; [|reflexivity].
  eexists _, _. split; [reflexivity|]. split; [reflexivity|].
  split; [reflexivity|]. discriminate.
Qed.

(** C8, amended: when every accumulated entry lies inside the map,
    [dumpToMap] returns, leaves the buffer empty, has set the cell of every
    entry that no later entry shares its cell with to that entry's result,
    and has left every cell that is the cell of no entry as it was. *)
Theorem C8_dumpToMap_last_entry_wins (s : Stack.t) (m : Stack.ResultMap) :
  0 <= Stack.lastPos s <= cBufferSize ->
  (forall j, 0 <= j < Stack.lastPos s ->
     is_Some (Stack.at_xy m (Stack.x (Stack.arr s j)) (Stack.y (Stack.arr s j)))) ->
  exists s' m',
    Stack.dumpToMap s m = Some (s', m') /\
    Stack.lastPos s' = 0 /\
    Stack.entries s' = [] /\
    (forall j, 0 <= j < Stack.lastPos s ->
       (forall j', j < j' < Stack.lastPos s ->
          (Stack.x (Stack.arr s j'), Stack.y (Stack.arr s j'))
          <> (Stack.x (Stack.arr s j), Stack.y (Stack.arr s j))) ->
       Stack.at_xy m' (Stack.x (Stack.arr s j)) (Stack.y (Stack.arr s j))
       = Some (Stack.res (Stack.arr s j))) /\
    (forall x y,
       (forall j, 0 <= j < Stack.lastPos s ->
          (Stack.x (Stack.arr s j), Stack.y (Stack.arr s j)) <> (x, y)) ->
       Stack.at_xy m' x y = Stack.at_xy m x y).
Proof.
  intros Hpos Hin.
  destruct (dump_loop_spec (Z.to_nat (Stack.lastPos s)) (Stack.arr s) 0 m)
    as (m' & Hrun & _ & Hframe & Hlast).
  { intros j Hj. apply Hin. lia. }
  unfold Stack.dumpToMap.
  destruct (Z.leb_spec 0 (Stack.lastPos s)), (Z.leb_spec (Stack.lastPos s) cBufferSize);
    try lia. simpl.
  rewrite Hrun. eexists _, m'. split; [reflexivity|].
  split; [reflexivity|]. split; [reflexivity|]. split.
  - intros j Hj Hlater. apply Hlast; [lia|]. intros j' Hj'. apply Hlater. lia.
  - intros x y Hnot. apply Hframe. intros j Hj. apply Hnot. lia.
Qed.

Lemma C8_dumpToMap_last_entry_wins_witness :
  exists s' m',
    Stack.dumpToMap twice_the_same_cell [[0; 7]] = Some (s', m') /\
    Stack.lastPos s' = 0 /\
    Stack.entries s' = [] /\
    (forall j, 0 <= j < Stack.lastPos twice_the_same_cell ->
       (forall j', j < j' < Stack.lastPos twice_the_same_cell ->
          (Stack.x (Stack.arr twice_the_same_cell j'), Stack.y (Stack.arr twice_the_same_cell j'))
          <> (Stack.x (Stack.arr twice_the_same_cell j), Stack.y (Stack.arr twice_the_same_cell j))) ->
       Stack.at_xy m' (Stack.x (Stack.arr twice_the_same_cell j))
                      (Stack.y (Stack.arr twice_the_same_cell j))
       = Some (Stack.res (Stack.arr twice_the_same_cell j))) /\
    (forall x y,
       (forall j, 0 <= j < Stack.lastPos twice_the_same_cell ->
          (Stack.x (Stack.arr twice_the_same_cell j), Stack.y (Stack.arr twice_the_same_cell j))
          <> (x, y)) ->
       Stack.at_xy m' x y = Stack.at_xy [[0; 7]] x y).
Proof.
  apply (C8_dumpToMap_last_entry_wins twice_the_same_cell [[0; 7]]).
  - unfold cBufferSize. simpl. lia.
  - intros j Hj. simpl. eauto.
Defined.

(** ** The orchestrator *)

Lemma startThreads_running numThreads o :
  mIsStarted o = true ->
  startThreads numThreads o = Some (false, set_mMandelbrotIterator 0 o).
Proof. unfold startThreads. simpl. intros ->. reflexivity. Qed.

Lemma startThreads_fresh numThreads o :
  mIsStarted o = false -> 0 <= numThreads ->
  startThreads numThreads o
  = Some (true, set_mThreads (mThreads o ++ replicate (Z.to_nat numThreads) spawned)
                  (set_mIsStarted true (set_mMandelbrotIterator 0 o))).
Proof.
  unfold startThreads. simpl. intros -> H. simpl.
  destruct (Z.ltb_spec numThreads 0); [lia|reflexivity].
Qed.

(** C4, evaluated: on an object that is running (two threads started, the
    first has claimed a batch so that the counter is 1, the second has not
    run yet) [startThreads] returns [false] and leaves the threads, the
    flags and the bitmap as they were, but the counter is 0 afterwards:
    the store to the counter is made before the guard. *)
Theorem C4_failed_start_resets_counter :
  mIsStarted (this small_first_done) = true /\
  mMandelbrotIterator (this small_first_done) = 1 /\
  exists o',
    startThreads 24 (this small_first_done) = Some (false, o') /\
    mMandelbrotIterator o' = 0 /\
    mThreads o' = mThreads (this small_first_done) /\
    mIsStarted o' = true /\
    mIsSavingResults o' = mIsSavingResults (this small_first_done) /\
    mResults o' = mResults (this small_first_done).
Proof.
  split; [reflexivity|]. split; [reflexivity|].
  eexists. split; [apply startThreads_running; reflexivity|].
  repeat split; reflexivity.
Qed.

(** C9: when a call of [waitToFinish] has returned, a second call returns
    at once, joins no thread and leaves the object as the first call left
    it. *)
Theorem C9_waitToFinish_twice (o o' : LockfreeMandelbrot) (joined : list nat) :
  waitToFinish o = Some (o', joined) ->
  waitToFinish o' = Some (o', []).
Proof.
  unfold waitToFinish. destruct (mIsStarted o) eqn:Es; simpl.
  - destruct (join_all 0 (mThreads o)) as [[ts js]|]; [|discriminate].
    intros [= <- _]. reflexivity.
  - intros [= <- _]. rewrite Es. reflexivity.
Qed.

Lemma C9_waitToFinish_twice_witness :
  waitToFinish small_joined = Some (small_joined, []).
Proof.
  apply (C9_waitToFinish_twice (this small_all_done) small_joined [0%nat; 1%nat]).
  vm_compute. reflexivity.
Defined.

(** ** Executions *)

Lemma set_worker_threads i w o t :
  mThreads o !! i = Some t ->
  set_worker i w o
  = set_mThreads (<[i := {| joinable := joinable t; worker := w |}]> (mThreads o)) o.
Proof. unfold set_worker. intros ->. reflexivity. Qed.

Section RunFacts.

Variable cBatchSize : Z.

Lemma run_schedule_rtc schedule : forall s s',
  run_schedule cBatchSize schedule s = Some s' -> rtc (step cBatchSize) s s'.
Proof.
  induction schedule as [|i schedule IH]; intros s s' H; simpl in H.
  - injection H as ->. apply rtc_refl.
  - destruct (thread_step cBatchSize i s) as [s1|] eqn:E; [|discriminate].
    eapply rtc_l; [exists i; exact E|]. apply IH, H.
Qed.

Lemma run_thread_rtc fuel i : forall s,
  rtc (step cBatchSize) s (run_thread cBatchSize fuel i s).
Proof.
  induction fuel as [|fuel IH]; intros s; simpl; [apply rtc_refl|].
  destruct (thread_step cBatchSize i s) as [s1|] eqn:E; [|apply rtc_refl].
  eapply rtc_l; [exists i; exact E|]. apply IH.
Qed.

(** The map is written by workers in the critical section only. *)
Lemma map_written_in_critical_section i s s' t :
  mThreads (this s) !! i = Some t ->
  thread_step cBatchSize i s = Some s' ->
  map (mResults (this s')) <> map (mResults (this s)) ->
  in_critical_section (worker t) = true.
Proof.
  intros Ht Hstep Hmap. unfold thread_step in Hstep. rewrite Ht in Hstep.
  destruct (loop_step cBatchSize (this s) (worker t)) as [[[o' w'] ev]|] eqn:Hl;
    [|discriminate].
  injection Hstep as <-.
  assert (Hsame : map (mResults (set_worker i w' o')) = map (mResults o')).
  { unfold set_worker. destruct (mThreads o' !! i); reflexivity. }
  cbn [this] in Hmap. rewrite Hsame in Hmap.
  unfold in_critical_section. unfold loop_step in Hl.
  destruct (pc (worker t)); try reflexivity; exfalso; apply Hmap;
    repeat match type of Hl with
      | (if ?c then _ else _) = _ => destruct c
      | match ?c with Some _ => _ | None => _ end = _ => destruct c
      end;
    try discriminate; injection Hl as <- <- <-; reflexivity.
Qed.

(** The steps of a worker in the loop of [dumpToMap], taken without a
    step of another thread in between, do what the loop does. *)
Lemma dump_loop_steps n : forall s i t j m',
  mThreads (this s) !! i = Some t ->
  pc (worker t) = PDump j -> 0 <= j ->
  Stack.lastPos (threadStack (worker t)) = j + Z.of_nat n ->
  j + Z.of_nat n <= cBufferSize ->
  Stack.dump_loop n (Stack.arr (threadStack (worker t))) j (map (mResults (this s)))
    = Some m' ->
  exists s' t',
    rtc (step cBatchSize) s s' /\
    mThreads (this s') !! i = Some t' /\
    pc (worker t') = PDump (j + Z.of_nat n) /\
    threadStack (worker t') = threadStack (worker t) /\
    map (mResults (this s')) = m'.
Proof.
  induction n as [|n IH]; intros s i t j m' Ht Hpc Hj Hlast Hbuf Hloop.
  - injection Hloop as <-. exists s, t. rewrite Z.add_0_r.
    split; [apply rtc_refl|]. auto.
  - cbn [Stack.dump_loop] in Hloop.
    destruct (Stack.assign (map (mResults (this s))) (Stack.arr (threadStack (worker t)) j))
      as [m1|] eqn:Hassign; [|discriminate].
    pose (w1 := set_pc (PDump (j + 1)) (worker t)).
    pose (s1 := {| this := set_worker i w1 (set_map m1 (this s)); processed := processed s |}).
    assert (Hstep : thread_step cBatchSize i s = Some s1).
    { unfold thread_step, loop_step. rewrite Ht, Hpc, Hlast.
      destruct (Z.eqb_spec j (j + Z.of_nat (S n))); [lia|].
      destruct (Z.leb_spec 0 j), (Z.ltb_spec j cBufferSize); try lia.
      cbn [andb]. rewrite Hassign. reflexivity. }
    assert (Ht1 : mThreads (this s1) !! i = Some {| joinable := joinable t; worker := w1 |}).
    { unfold s1. cbn [this]. rewrite (set_worker_threads i w1 _ t) by exact Ht.
      cbn [mThreads set_mThreads set_map]. apply list_lookup_insert_eq.
      eapply lookup_lt_Some. exact Ht. }
    destruct (IH s1 i _ (j + 1) m' Ht1 eq_refl ltac:(lia)) as (s' & t' & Hsteps & Ht' & Hpc' & Hst & Hm).
    + cbn. lia.
    + lia.
    + unfold s1. cbn [this]. rewrite (set_worker_threads i w1 _ t) by exact Ht. exact Hloop.
    + exists s', t'. split; [eapply rtc_l; [exists i; exact Hstep|exact Hsteps]|].
      split; [exact Ht'|]. split; [rewrite Hpc'; f_equal; lia|]. split; [exact Hst|exact Hm].
Qed.

(** A worker that has won the flag and runs without a step of another
    thread in between leaves the map and its buffer as [dumpToMap] does. *)
Lemma dumpToMap_steps s i t st' m' :
  mThreads (this s) !! i = Some t ->
  pc (worker t) = PDump 0 ->
  Stack.dumpToMap (threadStack (worker t)) (map (mResults (this s))) = Some (st', m') ->
  exists s' t',
    rtc (step cBatchSize) s s' /\
    mThreads (this s') !! i = Some t' /\
    pc (worker t') = PRelease /\
    Stack.lastPos (threadStack (worker t')) = Stack.lastPos st' /\
    Stack.arr (threadStack (worker t')) = Stack.arr st' /\
    map (mResults (this s')) = m'.
Proof.
  intros Ht Hpc Hdump. unfold Stack.dumpToMap in Hdump.
  destruct (Z.leb_spec 0 (Stack.lastPos (threadStack (worker t)))),
           (Z.leb_spec (Stack.lastPos (threadStack (worker t))) cBufferSize);
    try discriminate. cbn [andb] in Hdump.
  destruct (Stack.dump_loop _ _ _ _) as [m1|] eqn:Hloop; [|discriminate].
  injection Hdump as <- <-.
  destruct (dump_loop_steps (Z.to_nat (Stack.lastPos (threadStack (worker t)))) s i t 0 m1
              Ht Hpc ltac:(lia) ltac:(lia) ltac:(lia) Hloop)
    as (s1 & t1 & Hsteps & Ht1 & Hpc1 & Hst1 & Hm1).
  pose (w2 := {| pc := PRelease; currentIndex := currentIndex (worker t1);
                 currentBatch := currentBatch (worker t1); dummy := dummy (worker t1);
                 threadStack := {| Stack.arr := Stack.arr (threadStack (worker t1));
                                   Stack.lastPos := 0 |} |}).
  pose (s2 := {| this := set_worker i w2 (this s1); processed := processed s1 |}).
  assert (Hstep : thread_step cBatchSize i s1 = Some s2).
  { unfold thread_step, loop_step. rewrite Ht1, Hpc1, Hst1.
    destruct (Z.eqb_spec (0 + Z.of_nat (Z.to_nat (Stack.lastPos (threadStack (worker t)))))
                (Stack.lastPos (threadStack (worker t)))); [|lia].
    rewrite <- Hst1. reflexivity. }
  exists s2, {| joinable := joinable t1; worker := w2 |}.
  split; [eapply rtc_r; [exact Hsteps|exists i; exact Hstep]|].
  unfold s2. cbn [this]. rewrite (set_worker_threads i w2 _ t1) by exact Ht1.
  unfold w2.
  cbn [mThreads set_mThreads mResults worker pc threadStack Stack.lastPos Stack.arr].
  split; [apply list_lookup_insert_eq; eapply lookup_lt_Some; exact Ht1|].
  rewrite Hst1. auto.
Qed.

End RunFacts.

(** C6, evaluated: in the program of [main], whatever the first value of
    [mIsSavingResults], three steps of the first worker and three of the
    second lead to a state in which both are in the critical section.  The
    second worker's first [compare_exchange_weak] fails and loads [true]
    into [dummy]; its second one then expects [true], finds it and
    succeeds while the first worker still holds the flag.  That every
    write to the map is made by a worker in the critical section does
    hold. *)
Theorem C6_two_workers_in_critical_section (saving0 : bool) :
  (exists s t0 t1,
     rtc (step cBatchSize_main) (main_started saving0) s /\
     mThreads (this s) !! 0%nat = Some t0 /\
     mThreads (this s) !! 1%nat = Some t1 /\
     in_critical_section (worker t0) = true /\
     in_critical_section (worker t1) = true /\
     mIsSavingResults (this s) = true) /\
  (forall cBatchSize i s s' t,
     mThreads (this s) !! i = Some t ->
     thread_step cBatchSize i s = Some s' ->
     map (mResults (this s')) <> map (mResults (this s)) ->
     in_critical_section (worker t) = true).
Proof.
  split; [|exact map_written_in_critical_section].
  destruct (run_schedule cBatchSize_main [0; 0; 0; 1; 1; 1]%nat (main_started saving0))
    as [s|] eqn:E.
  - exists s. apply run_schedule_rtc in E as Hr.
    destruct saving0; vm_compute in E; injection E as <-;
      (eexists _, _; split; [exact Hr|]; repeat split; reflexivity).
  - destruct saving0; vm_compute in E; discriminate.
Qed.

(** ** Machine integers in range *)

Lemma to_u64_small z : 0 <= z < 18446744073709551616 -> to_u64 z = z.
Proof. intros H. unfold to_u64. apply Z.mod_small. exact H. Qed.

Lemma to_int_small z : - 2147483648 <= z <= INT_MAX -> to_int z = z.
Proof.
  unfold INT_MAX, to_int. intros H.
  rewrite Z.mod_small by lia. lia.
Qed.

(** ** The invariant of the workers *)

Section Invariant.

Variables cBatchSize mWidth mHeight : Z.

Hypothesis width_pos : 0 < mWidth.
Hypothesis height_nonneg : 0 <= mHeight.
Hypothesis area_int : mWidth * mHeight <= INT_MAX.
Hypothesis batch_pos : 0 < cBatchSize.
Hypothesis batch_fits : cBatchSize <= cBufferSize.

Local Abbreviation batches := (batches cBatchSize mWidth mHeight).
Local Abbreviation value_at := (value_at mWidth mHeight).
Local Abbreviation expected := (expected mWidth mHeight).
Local Abbreviation extends := (extends mWidth mHeight).
Local Abbreviation steps_left := (steps_left cBatchSize mWidth mHeight).
Local Abbreviation once_inv := (once_inv cBatchSize).

Lemma batches_nonneg : 0 <= batches.
Proof. unfold batches. apply Z.div_pos; nia. Qed.

Lemma batches_area : batches * cBatchSize <= mWidth * mHeight.
Proof.
  unfold batches. pose proof (Z.mul_div_le (mWidth * mHeight) cBatchSize batch_pos). lia.
Qed.

Lemma batches_quot : Z.quot (mWidth * mHeight) cBatchSize = batches.
Proof. unfold batches. apply Z.quot_div_nonneg; nia. Qed.

Lemma index_in_batch b j :
  0 <= b < batches -> 0 <= j < cBatchSize ->
  0 <= b * cBatchSize + j < batches * cBatchSize.
Proof. intros Hb Hj. nia. Qed.

Lemma index_coordinates k :
  0 <= k < mWidth * mHeight ->
  0 <= k mod mWidth < mWidth /\ 0 <= k / mWidth < mHeight /\
  k / mWidth * mWidth + k mod mWidth = k.
Proof.
  intros Hk.
  pose proof (Z.mod_pos_bound k mWidth width_pos).
  pose proof (Z.div_mod k mWidth ltac:(lia)).
  assert (0 <= k / mWidth) by (apply Z.div_pos; lia).
  assert (k / mWidth < mHeight) by (apply Z.div_lt_upper_bound; lia).
  lia.
Qed.

Lemma coordinates_index x y :
  0 <= x < mWidth -> 0 <= y ->
  (y * mWidth + x) mod mWidth = x /\ (y * mWidth + x) / mWidth = y.
Proof.
  intros Hx Hy. split.
  - rewrite Z.add_comm, Z.mod_add by lia. apply Z.mod_small. lia.
  - rewrite Z.add_comm, Z.div_add by lia. rewrite Z.div_small by lia. lia.
Qed.

Lemma positionFromIndex_in_range o k :
  mWidthPixels o = mWidth -> 0 <= k < mWidth * mHeight ->
  positionFromIndex o k = (k mod mWidth, k / mWidth).
Proof.
  intros Hw Hk. unfold positionFromIndex. rewrite Hw.
  destruct (index_coordinates k Hk) as (Hx & Hy & Hxy).
  unfold INT_MAX in area_int.
  rewrite (to_u64_small k) by lia.
  rewrite (to_u64_small mWidth) by nia.
  rewrite (to_int_small (k / mWidth)) by (unfold INT_MAX; nia).
  rewrite (to_u64_small (k / mWidth * mWidth)) by nia.
  replace (k - k / mWidth * mWidth) with (k mod mWidth) by lia.
  rewrite (to_u64_small (k mod mWidth)) by lia.
  rewrite (to_int_small (k mod mWidth)) by (unfold INT_MAX; nia).
  reflexivity.
Qed.

Lemma pixel_expected o k :
  mWidthPixels o = mWidth -> mHeightPixels o = mHeight ->
  0 <= k < mWidth * mHeight -> pixel o k = expected k.
Proof.
  intros Hw Hh Hk. unfold pixel. rewrite (positionFromIndex_in_range o k Hw Hk).
  rewrite Hw, Hh. reflexivity.
Qed.


(** *** Counting the workers that have returned *)

Lemma returned_bounds w : 0 <= returned w <= 1.
Proof. unfold returned. destruct (pc w); lia. Qed.

Lemma done_count_bounds ts : 0 <= done_count ts <= Z.of_nat (length ts).
Proof.
  induction ts as [|t ts IH]; simpl; [lia|].
  pose proof (returned_bounds (worker t)). lia.
Qed.

Lemma done_count_insert ts : forall i t t',
  ts !! i = Some t ->
  done_count (<[i := t']> ts) = done_count ts - returned (worker t) + returned (worker t').
Proof.
  induction ts as [|t0 ts IH]; intros i t t' H; [discriminate|].
  destruct i as [|i]; simpl in *.
  - injection H as ->. lia.
  - rewrite (IH i t t' H). lia.
Qed.

Lemma done_count_positive ts i t :
  ts !! i = Some t -> pc (worker t) = PDone -> 0 < done_count ts.
Proof.
  revert i. induction ts as [|t0 ts IH]; intros i H Hd; [discriminate|].
  destruct i as [|i]; simpl in *.
  - injection H as ->. unfold returned. rewrite Hd.
    pose proof (done_count_bounds ts). lia.
  - pose proof (returned_bounds (worker t0)). specialize (IH i H Hd). lia.
Qed.

(** *** The map under the assignments of the workers *)

Lemma map_inv_defined m x y :
  map_inv cBatchSize mWidth mHeight m ->
  0 <= x < mWidth -> 0 <= y < mHeight -> is_Some (Stack.at_xy m x y).
Proof.
  intros (_ & _ & H) Hx Hy. destruct (H x y Hx Hy) as [E|[_ E]]; rewrite E; eauto.
Qed.

Lemma assign_shape (m : list (list Z)) e m' :
  Stack.assign m e = Some m' ->
  length m' = length m /\
  (Forall (fun col => length col = Z.to_nat mHeight) m ->
   Forall (fun col => length col = Z.to_nat mHeight) m').
Proof.
  unfold Stack.assign. intros H.
  destruct ((0 <=? Stack.x e) && (0 <=? Stack.y e)); [|discriminate].
  destruct (m !! Z.to_nat (Stack.x e)) as [col|] eqn:Hc; [|discriminate].
  destruct (Nat.ltb_spec (Z.to_nat (Stack.y e)) (length col)); [|discriminate].
  injection H as <-. split.
  - apply length_insert.
  - intros Hall. apply Forall_insert; [exact Hall|].
    rewrite length_insert. eapply (proj1 (Forall_lookup _ _) Hall). exact Hc.
Qed.

Lemma assign_expected_defined m k :
  map_inv cBatchSize mWidth mHeight m -> 0 <= k < mWidth * mHeight ->
  is_Some (Stack.assign m (expected k)).
Proof.
  intros Hm Hk. apply assign_defined. simpl.
  destruct (index_coordinates k Hk) as (Hx & Hy & _).
  apply (map_inv_defined m _ _ Hm Hx Hy).
Qed.

Lemma assign_expected_same m k m' :
  Stack.assign m (expected k) = Some m' -> cell_ok mWidth mHeight m' k.
Proof. intros H. apply (assign_at_same _ _ _ H). Qed.

Lemma assign_expected_at m k m' x y :
  Stack.assign m (expected k) = Some m' ->
  Stack.at_xy m' x y = Stack.at_xy m x y \/
  ((x, y) = (k mod mWidth, k / mWidth) /\ Stack.at_xy m' x y = Some (value_at x y)).
Proof.
  intros H. destruct (decide ((x, y) = (k mod mWidth, k / mWidth))) as [E|Hne].
  - right. split; [exact E|]. injection E as -> ->. apply (assign_at_same _ _ _ H).
  - left. apply (assign_at_other _ _ _ _ _ H). exact Hne.
Qed.

Lemma assign_expected_cell_ok m k m' k' :
  Stack.assign m (expected k) = Some m' ->
  cell_ok mWidth mHeight m k' -> cell_ok mWidth mHeight m' k'.
Proof.
  unfold cell_ok. intros H Hok.
  destruct (assign_expected_at m k m' (k' mod mWidth) (k' / mWidth) H) as [E|[_ E]].
  - rewrite E. exact Hok.
  - exact E.
Qed.

Lemma assign_expected_inv m k m' :
  map_inv cBatchSize mWidth mHeight m -> 0 <= k < batches * cBatchSize ->
  Stack.assign m (expected k) = Some m' -> map_inv cBatchSize mWidth mHeight m'.
Proof.
  intros (Hlen & Hcols & Hcells) Hk H.
  destruct (assign_shape m _ m' H) as [Hlen' Hcols'].
  split; [lia|]. split; [auto|].
  intros x y Hx Hy.
  destruct (assign_expected_at m k m' x y H) as [E|[E Hv]].
  - rewrite E. apply Hcells; assumption.
  - right. split; [|exact Hv]. injection E as -> ->.
    pose proof batches_area.
    destruct (index_coordinates k ltac:(lia)) as (_ & _ & Hxy). lia.
Qed.

(** *** What a step of one worker leaves to the others *)

Lemma holds_extends s s' w :
  extends s s' -> holds cBatchSize mWidth mHeight s w -> holds cBatchSize mWidth mHeight s' w.
Proof.
  intros (Hc & _ & Hh) (Hb & Hlt & Hitems).
  split; [exact Hb|]. split; [lia|].
  intros j Hj. destruct (Hitems j Hj) as [Ha Hin]. split; [exact Ha|]. apply Hh, Hin.
Qed.

Lemma worker_inv_extends s s' w :
  extends s s' ->
  worker_inv cBatchSize mWidth mHeight s w -> worker_inv cBatchSize mWidth mHeight s' w.
Proof.
  intros Hext. pose proof Hext as (Hc & Hcells & _).
  unfold worker_inv. destruct (pc w); try (intros H; exact H).
  - intros [H|(Hh & H)]; [left; exact H|right].
    split; [apply (holds_extends s s' w Hext Hh)|exact H].
  - intros [H|(Hh & H)]; [left; exact H|right].
    split; [apply (holds_extends s s' w Hext Hh)|exact H].
  - intros [H|(Hh & Hlp & Hi & Hdone)]; [left; exact H|right].
    split; [apply (holds_extends s s' w Hext Hh)|].
    split; [exact Hlp|]. split; [exact Hi|].
    intros j Hj. apply Hcells, Hdone, Hj.
  - intros (Hh & H). split; [apply (holds_extends s s' w Hext Hh)|exact H].
  - intros H. lia.
Qed.

Lemma batch_done_extends s s' b :
  extends s s' ->
  batch_done cBatchSize mWidth mHeight s b -> batch_done cBatchSize mWidth mHeight s' b.
Proof.
  intros (_ & Hcells & Hh) Hd k Hk. destruct (Hd k Hk) as [Hok Hin].
  split; [apply Hcells, Hok|apply Hh, Hin].
Qed.

(** *** One step of one worker *)

(** A step of a worker leaves the threads, the size and [mIsStarted]. *)
Lemma loop_step_frame o w o' w' ev :
  loop_step cBatchSize o w = Some (o', w', ev) ->
  mThreads o' = mThreads o /\ mWidthPixels o' = mWidthPixels o /\
  mHeightPixels o' = mHeightPixels o /\ mIsStarted o' = mIsStarted o.
Proof.
  unfold loop_step. intros H.
  destruct (pc w);
    repeat match type of H with
      | (if ?c then _ else _) = _ => destruct c
      | match ?c with Some _ => _ | None => _ end = _ => destruct c
      end;
    try discriminate; injection H as <- <- <-; repeat split; reflexivity.
Qed.

Lemma steps_length s s' :
  rtc (step cBatchSize) s s' -> length (mThreads (this s')) = length (mThreads (this s)).
Proof.
  induction 1 as [|s0 s1 s2 [i Hstep] _ IH]; [reflexivity|].
  rewrite IH. unfold thread_step in Hstep.
  destruct (mThreads (this s0) !! i) as [t|] eqn:Ht; [|discriminate].
  destruct (loop_step cBatchSize (this s0) (worker t)) as [[[o' w'] ev]|] eqn:Hl;
    [|discriminate].
  injection Hstep as <-. cbn [this].
  destruct (loop_step_frame _ _ _ _ _ Hl) as (Hfts & _).
  rewrite (set_worker_threads i w' o' t) by (rewrite Hfts; exact Ht).
  cbn [mThreads set_mThreads]. rewrite length_insert, Hfts. reflexivity.
Qed.

(** The invariant after a step of the thread [i], from what the step does
    to the shared state and to the worker of that thread. *)
Lemma inv_after_step s s' i t w' :
  inv cBatchSize mWidth mHeight s ->
  mThreads (this s) !! i = Some t ->
  mThreads (this s') = <[i := {| joinable := joinable t; worker := w' |}]> (mThreads (this s)) ->
  mWidthPixels (this s') = mWidthPixels (this s) ->
  mHeightPixels (this s') = mHeightPixels (this s) ->
  mIsStarted (this s') = mIsStarted (this s) ->
  extends s s' ->
  map_inv cBatchSize mWidth mHeight (map (mResults (this s'))) ->
  (forall k, In k (indices (processed s')) -> 0 <= k < batches * cBatchSize) ->
  worker_inv cBatchSize mWidth mHeight s' w' ->
  0 <= mMandelbrotIterator (this s')
    <= batches + done_count (mThreads (this s)) - returned (worker t) + returned w' ->
  (forall b, owns (worker t) b -> owns w' b \/ batch_done cBatchSize mWidth mHeight s' b) ->
  (forall b, 0 <= b < batches ->
     mMandelbrotIterator (this s) <= b < mMandelbrotIterator (this s') -> owns w' b) ->
  inv cBatchSize mWidth mHeight s'.
Proof.
  intros Hinv Ht Hts Hw Hh Hst Hext Hmap Hhist Hwi Hcnt Hown Hnew.
  assert (Hi : (i < length (mThreads (this s)))%nat) by (eapply lookup_lt_Some; exact Ht).
  constructor.
  - rewrite Hw. apply Hinv.
  - rewrite Hh. apply Hinv.
  - rewrite Hst. apply Hinv.
  - intros j tj. rewrite Hts. intros Hj.
    apply list_lookup_insert_Some in Hj as [(-> & <- & _)|(_ & Hj)]; simpl.
    + apply (inv_joinable _ _ _ _ Hinv _ _ Ht).
    + apply (inv_joinable _ _ _ _ Hinv _ _ Hj).
  - rewrite Hts, length_insert. apply Hinv.
  - rewrite Hts, (done_count_insert _ _ _ _ Ht). simpl. lia.
  - exact Hmap.
  - exact Hhist.
  - intros j tj. rewrite Hts. intros Hj.
    apply list_lookup_insert_Some in Hj as [(-> & <- & _)|(_ & Hj)]; simpl.
    + exact Hwi.
    + apply (worker_inv_extends s s' _ Hext). apply (inv_workers _ _ _ _ Hinv _ _ Hj).
  - intros b Hb Hlt.
    destruct (Z.lt_ge_cases b (mMandelbrotIterator (this s))) as [Hold|Hfresh].
    + destruct (inv_progress _ _ _ _ Hinv b Hb Hold) as [Hd|(j & tj & Hj & Ho)].
      * left. apply (batch_done_extends s s' b Hext Hd).
      * destruct (decide (j = i)) as [->|Hne].
        -- rewrite Ht in Hj. injection Hj as <-.
           destruct (Hown b Ho) as [Ho'|Hd]; [|left; exact Hd].
           right. exists i, {| joinable := joinable t; worker := w' |}.
           split; [|exact Ho']. rewrite Hts. apply list_lookup_insert_eq. exact Hi.
        -- right. exists j, tj. split; [|exact Ho].
           rewrite Hts, list_lookup_insert_ne by auto. exact Hj.
    + right. exists i, {| joinable := joinable t; worker := w' |}.
      split; [rewrite Hts; apply list_lookup_insert_eq; exact Hi|].
      apply Hnew; [exact Hb|lia].
Qed.

Lemma extends_refl_like s s' :
  mMandelbrotIterator (this s') = mMandelbrotIterator (this s) ->
  map (mResults (this s')) = map (mResults (this s)) ->
  processed s' = processed s ->
  extends s s'.
Proof.
  intros Hc Hm Hh. unfold extends. rewrite Hc, Hm, Hh. repeat split; auto. lia.
Qed.

Lemma rem_in_batch b lp :
  0 <= b -> 0 <= lp -> Z.rem (b * cBatchSize + lp) cBatchSize = lp mod cBatchSize.
Proof.
  intros Hb Hlp. rewrite Z.rem_mod_nonneg by nia.
  rewrite Z.add_comm. apply Z.mod_add. lia.
Qed.

Ltac proj_simpl :=
  cbn [this processed mThreads mMandelbrotIterator mIsSavingResults mResults
       mIsStarted mWidthPixels mHeightPixels map width height
       set_mThreads set_mMandelbrotIterator set_mIsSavingResults set_map
       set_mIsStarted set_pc pc currentIndex currentBatch dummy threadStack
       worker joinable Stack.lastPos Stack.arr] in *.

Ltac after_step Hinv Ht :=
  eapply (inv_after_step _ _ _ _ _ Hinv Ht);
  [reflexivity|reflexivity|reflexivity|reflexivity|..]; proj_simpl.

Lemma step_inv s s' :
  inv cBatchSize mWidth mHeight s -> step cBatchSize s s' ->
  inv cBatchSize mWidth mHeight s'.
Proof.
  intros Hinv [i Hstep]. unfold thread_step in Hstep.
  destruct (mThreads (this s) !! i) as [t|] eqn:Ht; [|discriminate].
  destruct (loop_step cBatchSize (this s) (worker t)) as [[[o' w'] ev]|] eqn:Hl;
    [|discriminate].
  injection Hstep as <-.
  destruct (loop_step_frame _ _ _ _ _ Hl) as (Hfts & _).
  rewrite (set_worker_threads i w' o' t) by (rewrite Hfts; exact Ht).
  clear Hfts.
  pose proof (inv_workers _ _ _ _ Hinv i t Ht) as Hwi.
  pose proof (inv_counter _ _ _ _ Hinv) as Hcnt.
  pose proof (inv_width _ _ _ _ Hinv) as Hwd.
  pose proof (inv_height _ _ _ _ Hinv) as Hhg.
  pose proof (inv_map _ _ _ _ Hinv) as Hmap.
  pose proof (inv_history _ _ _ _ Hinv) as Hhist.
  pose proof (done_count_bounds (mThreads (this s))) as Hdc.
  pose proof (inv_threads_int _ _ _ _ Hinv) as Hint.
  pose proof batches_nonneg as Hbn. pose proof batches_area as Hba.
  unfold loop_step in Hl. unfold worker_inv in Hwi.
  rewrite Hwd, Hhg in Hl.
  destruct (pc (worker t)) eqn:Hpc.
  - (* the top of the loop *)
    destruct (Z.eqb_spec cBatchSize 0) as [|_]; [lia|].
    destruct ((Z.rem (currentIndex (worker t) + 1) cBatchSize =? 0)
              || (mWidth * mHeight <=? currentIndex (worker t) + 1)) eqn:Hcond;
      injection Hl as <- <- <-.
    + after_step Hinv Ht.
      * apply extends_refl_like; reflexivity.
      * exact Hmap.
      * exact Hhist.
      * unfold worker_inv; proj_simpl.
        destruct Hwi as [[Hci Hlp]|(Hh & Hlp & Hci)]; [left; exact Hlp|right].
        split; [exact Hh|].
        destruct (decide (Stack.lastPos (threadStack (worker t)) = cBatchSize)) as [|Hne];
          [assumption|exfalso].
        destruct Hh as (Hb & _).
        replace (currentIndex (worker t) + 1)
          with (currentBatch (worker t) * cBatchSize + Stack.lastPos (threadStack (worker t)))
          in Hcond by lia.
        rewrite rem_in_batch in Hcond by lia.
        rewrite Z.mod_small in Hcond by lia.
        apply orb_true_iff in Hcond as [E|E]; [apply Z.eqb_eq in E; lia|].
        apply Z.leb_le in E. nia.
      * unfold returned. rewrite Hpc. proj_simpl. lia.
      * intros b [Hb Ho]. rewrite Hpc in Ho. left. split; [exact Hb|exact Ho].
      * intros b Hb Hr. lia.
    + after_step Hinv Ht.
      * apply extends_refl_like; reflexivity.
      * exact Hmap.
      * exact Hhist.
      * unfold worker_inv; proj_simpl.
        apply orb_false_iff in Hcond as [E1 E2].
        apply Z.eqb_neq in E1. apply Z.leb_gt in E2.
        destruct Hwi as [[Hci Hlp]|(Hh & Hlp & Hci)].
        { exfalso. apply E1. rewrite Hci. simpl. apply Z.rem_0_l. lia. }
        pose proof Hh as (Hb & _).
        replace (currentIndex (worker t) + 1)
          with (currentBatch (worker t) * cBatchSize + Stack.lastPos (threadStack (worker t)))
          in * by lia.
        rewrite rem_in_batch in E1 by lia.
        assert (Stack.lastPos (threadStack (worker t)) <> cBatchSize).
        { intros E. apply E1. rewrite E. apply Z.mod_same. lia. }
        split; [exact Hh|]. split; lia.
      * unfold returned. rewrite Hpc. proj_simpl. lia.
      * intros b [Hb Ho]. left. split; [exact Hb|exact I].
      * intros b Hb Hr. lia.
  - (* the compare-and-swap on the flag *)
    destruct (Bool.eqb (mIsSavingResults (this s)) (dummy (worker t)));
      injection Hl as <- <- <-.
    + after_step Hinv Ht.
      * apply extends_refl_like; reflexivity.
      * exact Hmap.
      * exact Hhist.
      * unfold worker_inv; proj_simpl.
        destruct Hwi as [Hlp|(Hh & Hlp)]; [left; auto|right].
        split; [exact Hh|]. split; [exact Hlp|]. split; [lia|]. intros j Hj. lia.
      * unfold returned. rewrite Hpc. proj_simpl. lia.
      * intros b [Hb Ho]. rewrite Hpc in Ho. left. split; [exact Hb|exact Ho].
      * intros b Hb Hr. lia.
    + after_step Hinv Ht.
      * apply extends_refl_like; reflexivity.
      * exact Hmap.
      * exact Hhist.
      * unfold worker_inv; proj_simpl. exact Hwi.
      * unfold returned. rewrite Hpc. proj_simpl. lia.
      * intros b [Hb Ho]. rewrite Hpc in Ho. left. split; [exact Hb|exact Ho].
      * intros b Hb Hr. lia.
  - (* the loop of dumpToMap *)
    destruct (Z.eqb_spec i0 (Stack.lastPos (threadStack (worker t)))) as [Elast|Hmore].
    + injection Hl as <- <- <-.
      after_step Hinv Ht.
      * apply extends_refl_like; reflexivity.
      * exact Hmap.
      * exact Hhist.
      * unfold worker_inv; proj_simpl. reflexivity.
      * unfold returned. rewrite Hpc. proj_simpl. lia.
      * intros b [Hb Ho]. rewrite Hpc in Ho. right.
        destruct Hwi as [[Hlp _]|(Hh & Hlp & Hi & Hcells)]; [lia|].
        destruct Hh as (_ & _ & Hitems).
        intros k Hk. proj_simpl.
        replace k with (currentBatch (worker t) * cBatchSize + (k - b * cBatchSize))
          by (rewrite Hb; lia).
        split; [apply Hcells; lia|]. apply Hitems. lia.
      * intros b Hb Hr. lia.
    + destruct Hwi as [[Hlp Hi0]|(Hh & Hlp & Hi & Hcells)]; [lia|].
      pose proof Hh as (Hb & Hbc & Hitems).
      destruct (Hitems i0 ltac:(lia)) as [Harr _].
      assert (Hk : 0 <= currentBatch (worker t) * cBatchSize + i0 < batches * cBatchSize)
        by (apply index_in_batch; lia).
      destruct (Z.leb_spec 0 i0), (Z.ltb_spec i0 cBufferSize); try lia.
      cbn [andb] in Hl. rewrite Harr in Hl.
      destruct (Stack.assign (map (mResults (this s)))
                  (expected (currentBatch (worker t) * cBatchSize + i0)))
        as [m'|] eqn:Hassign; [|discriminate].
      injection Hl as <- <- <-.
      after_step Hinv Ht.
      * split; [proj_simpl; lia|]. split; proj_simpl; [|auto].
        intros k. apply (assign_expected_cell_ok _ _ _ _ Hassign).
      * apply (assign_expected_inv _ _ _ Hmap Hk Hassign).
      * exact Hhist.
      * unfold worker_inv; proj_simpl. right.
        split; [exact Hh|]. split; [exact Hlp|]. split; [lia|].
        intros j Hj. destruct (decide (j = i0)) as [->|Hne].
        -- apply (assign_expected_same _ _ _ Hassign).
        -- apply (assign_expected_cell_ok _ _ _ _ Hassign). apply Hcells. lia.
      * unfold returned. rewrite Hpc. proj_simpl. lia.
      * intros b [Hb' Ho]. rewrite Hpc in Ho. left. split; [exact Hb'|exact Ho].
      * intros b Hb' Hr. lia.
  - (* the release of the flag *)
    injection Hl as <- <- <-.
    after_step Hinv Ht.
    + apply extends_refl_like; reflexivity.
    + exact Hmap.
    + exact Hhist.
    + unfold worker_inv; proj_simpl. exact Hwi.
    + unfold returned. rewrite Hpc. proj_simpl. lia.
    + intros b [_ Ho]. rewrite Hpc in Ho. destruct Ho.
    + intros b Hb Hr. lia.
  - (* the fetch of a batch *)
    rewrite batches_quot in Hl.
    rewrite (to_int_small (mMandelbrotIterator (this s))) in Hl by (unfold INT_MAX in *; lia).
    rewrite (to_u64_small (mMandelbrotIterator (this s) + 1)) in Hl
      by (unfold INT_MAX in *; lia).
    destruct (Z.leb_spec batches (mMandelbrotIterator (this s))) as [Hnone|Hsome];
      injection Hl as <- <- <-.
    + after_step Hinv Ht.
      * split; [proj_simpl; lia|]. split; proj_simpl; auto.
      * exact Hmap.
      * exact Hhist.
      * unfold worker_inv; proj_simpl. lia.
      * unfold returned. rewrite Hpc. proj_simpl. lia.
      * intros b [_ Ho]. rewrite Hpc in Ho. destruct Ho.
      * intros b Hb Hr. lia.
    + after_step Hinv Ht.
      * split; [proj_simpl; lia|]. split; proj_simpl; auto.
      * exact Hmap.
      * exact Hhist.
      * unfold worker_inv; proj_simpl. rewrite Hwi.
        split; [|split; lia]. split; [proj_simpl; lia|]. split; [proj_simpl; lia|].
        proj_simpl. intros j Hj. lia.
      * unfold returned. rewrite Hpc. proj_simpl. lia.
      * intros b [_ Ho]. rewrite Hpc in Ho. destruct Ho.
      * intros b Hb Hr. split; [proj_simpl; lia|exact I].
  - (* the pixel *)
    destruct Hwi as (Hh & Hlp & Hci).
    pose proof Hh as (Hb & Hbc & Hitems).
    assert (Hk : 0 <= currentIndex (worker t) < batches * cBatchSize)
      by (rewrite Hci; apply index_in_batch; lia).
    rewrite (pixel_expected (this s) _ Hwd Hhg) in Hl by lia.
    unfold Stack.push in Hl.
    destruct (Z.leb_spec 0 (Stack.lastPos (threadStack (worker t)))),
             (Z.ltb_spec (Stack.lastPos (threadStack (worker t))) cBufferSize); try lia.
    cbn [andb] in Hl. injection Hl as <- <- <-.
    after_step Hinv Ht.
    + split; [proj_simpl; lia|]. split; proj_simpl; [auto|].
      intros k Hin. unfold indices in *. rewrite map_app. apply in_or_app. left. exact Hin.
    + exact Hmap.
    + intros k Hin. unfold indices in Hin. rewrite map_app in Hin.
      apply in_app_or in Hin as [Hin|[<-|[]]]; [apply Hhist, Hin|exact Hk].
    + unfold worker_inv; proj_simpl. right.
      split; [|lia]. split; [exact Hb|]. split; [proj_simpl; exact Hbc|].
      proj_simpl. intros j Hj. unfold indices. rewrite map_app.
      destruct (Z.eqb_spec j (Stack.lastPos (threadStack (worker t)))) as [->|Hne].
      * split; [rewrite Hci; reflexivity|].
        apply in_or_app. right. left. simpl. lia.
      * destruct (Hitems j ltac:(lia)) as [Ha Hin].
        split; [exact Ha|]. apply in_or_app. left. exact Hin.
    + unfold returned. rewrite Hpc. proj_simpl. lia.
    + intros b [Hb' _]. left. split; [exact Hb'|]. proj_simpl. lia.
    + intros b Hb' Hr. lia.
  - discriminate.
Qed.

Lemma steps_inv s s' :
  inv cBatchSize mWidth mHeight s -> rtc (step cBatchSize) s s' ->
  inv cBatchSize mWidth mHeight s'.
Proof.
  intros Hinv Hsteps. induction Hsteps as [|s s1 s' Hstep _ IH]; [exact Hinv|].
  apply IH. apply (step_inv s s1 Hinv Hstep).
Qed.

(** *** The state after a successful [startThreads] *)

Lemma done_count_spawned n : done_count (replicate n spawned) = 0.
Proof. induction n as [|n IH]; simpl; [reflexivity|]. rewrite IH. reflexivity. Qed.

Lemma new_map_inv :
  map_inv cBatchSize mWidth mHeight (map (MandelbrotBitmap_new mWidth mHeight)).
Proof.
  unfold MandelbrotBitmap_new. cbn [map].
  split; [apply length_replicate|]. split.
  - apply Forall_replicate. apply length_replicate.
  - intros x y Hx Hy. left. unfold Stack.at_xy.
    destruct (Z.leb_spec 0 x), (Z.leb_spec 0 y); try lia. cbn [andb].
    rewrite lookup_replicate_2 by lia. apply lookup_replicate_2. lia.
Qed.

Lemma started_inv iterator0 saving0 numThreads o :
  startThreads numThreads (LockfreeMandelbrot_new iterator0 saving0 mWidth mHeight)
    = Some (true, o) ->
  batches + numThreads <= INT_MAX ->
  0 <= numThreads /\
  mThreads o = replicate (Z.to_nat numThreads) spawned /\
  inv cBatchSize mWidth mHeight {| this := o; processed := [] |}.
Proof.
  unfold startThreads. cbn. destruct (Z.ltb_spec numThreads 0) as [|Hn]; [discriminate|].
  intros [= <-] Hint. split; [exact Hn|]. split; [reflexivity|].
  constructor; proj_simpl; try reflexivity.
  - intros i t Ht. apply lookup_replicate in Ht as [-> _]. reflexivity.
  - rewrite length_replicate. lia.
  - rewrite done_count_spawned. pose proof batches_nonneg. lia.
  - apply new_map_inv.
  - intros k [].
  - intros i t Ht. apply lookup_replicate in Ht as [-> _].
    unfold worker_inv. cbn. left. split; reflexivity.
  - intros b Hb Hlt. lia.
Qed.

(** *** No worker runs into undefined behaviour *)

Lemma inv_can_step s i t :
  inv cBatchSize mWidth mHeight s ->
  mThreads (this s) !! i = Some t -> pc (worker t) <> PDone ->
  is_Some (thread_step cBatchSize i s).
Proof.
  intros Hinv Ht Hrun. unfold thread_step. rewrite Ht.
  assert (Hl : is_Some (loop_step cBatchSize (this s) (worker t))).
  { pose proof (inv_workers _ _ _ _ Hinv i t Ht) as Hwi.
    pose proof (inv_width _ _ _ _ Hinv) as Hwd.
    pose proof (inv_height _ _ _ _ Hinv) as Hhg.
    pose proof (inv_map _ _ _ _ Hinv) as Hmap.
    pose proof batches_area as Hba.
    unfold loop_step. unfold worker_inv in Hwi.
    destruct (pc (worker t)) eqn:Hpc; try congruence.
    - destruct (Z.eqb_spec cBatchSize 0); [lia|].
      destruct (_ || _); eauto.
    - destruct (Bool.eqb _ _); eauto.
    - destruct (Z.eqb_spec i0 (Stack.lastPos (threadStack (worker t)))); [eauto|].
      destruct Hwi as [[Hlp Hi0]|(Hh & Hlp & Hi & Hcells)]; [lia|].
      destruct Hh as (Hb & Hbc & Hitems).
      destruct (Hitems i0 ltac:(lia)) as [Harr _].
      destruct (Z.leb_spec 0 i0), (Z.ltb_spec i0 cBufferSize); try lia. cbn [andb].
      rewrite Harr.
      destruct (assign_expected_defined (map (mResults (this s)))
                  (currentBatch (worker t) * cBatchSize + i0) Hmap) as [m' ->]; [|eauto].
      pose proof (index_in_batch (currentBatch (worker t)) i0 Hb). lia.
    - eauto.
    - destruct (_ <=? _); eauto.
    - destruct Hwi as (Hh & Hlp & Hci). unfold Stack.push.
      destruct (Z.leb_spec 0 (Stack.lastPos (threadStack (worker t)))),
               (Z.ltb_spec (Stack.lastPos (threadStack (worker t))) cBufferSize); try lia.
      cbn [andb]. eauto. }
  destruct Hl as [[[o' w'] ev] ->]. eauto.
Qed.

Lemma inv_defined s : inv cBatchSize mWidth mHeight s -> ~ undefined cBatchSize s.
Proof.
  intros Hinv (i & t & Ht & Hrun & Hnone).
  destruct (inv_can_step s i t Hinv Ht Hrun) as [s' Hs'].
  unfold thread_step in Hs'. rewrite Ht, Hnone in Hs'. discriminate.
Qed.

(** *** When every worker has returned *)

Lemma all_returned_counter s :
  inv cBatchSize mWidth mHeight s -> all_returned s -> mThreads (this s) <> [] ->
  batches < mMandelbrotIterator (this s).
Proof.
  intros Hinv Hall Hne. destruct (mThreads (this s)) as [|t ts] eqn:Ets; [congruence|].
  assert (Ht : mThreads (this s) !! 0%nat = Some t) by (rewrite Ets; reflexivity).
  pose proof (inv_workers _ _ _ _ Hinv _ _ Ht) as Hwi. unfold worker_inv in Hwi.
  rewrite (Hall _ _ Ht) in Hwi. exact Hwi.
Qed.

Lemma all_returned_batches s b :
  inv cBatchSize mWidth mHeight s -> all_returned s -> mThreads (this s) <> [] ->
  0 <= b < batches -> batch_done cBatchSize mWidth mHeight s b.
Proof.
  intros Hinv Hall Hne Hb.
  pose proof (all_returned_counter s Hinv Hall Hne) as Hc.
  destruct (inv_progress _ _ _ _ Hinv b Hb ltac:(lia)) as [Hd|(i & t & Ht & _ & Ho)];
    [exact Hd|].
  rewrite (Hall _ _ Ht) in Ho. destruct Ho.
Qed.

(** Where every worker has returned, the map and the history are these. *)
Lemma all_returned_result s :
  inv cBatchSize mWidth mHeight s -> all_returned s -> mThreads (this s) <> [] ->
  (forall x y, 0 <= x < mWidth -> 0 <= y < mHeight ->
     Stack.at_xy (map (mResults (this s))) x y
     = Some (if y * mWidth + x <? batches * cBatchSize then value_at x y else 0)) /\
  (forall k, In k (indices (processed s)) <-> 0 <= k < batches * cBatchSize).
Proof.
  intros Hinv Hall Hne.
  assert (Hdone : forall k, 0 <= k < batches * cBatchSize ->
            cell_ok mWidth mHeight (map (mResults (this s))) k /\ In k (indices (processed s))).
  { intros k Hk.
    apply (all_returned_batches s (k / cBatchSize) Hinv Hall Hne).
    - split; [apply Z.div_pos; lia|]. apply Z.div_lt_upper_bound; lia.
    - pose proof (Z.div_mod k cBatchSize ltac:(lia)).
      pose proof (Z.mod_pos_bound k cBatchSize batch_pos). lia. }
  split.
  - intros x y Hx Hy.
    destruct (Z.ltb_spec (y * mWidth + x) (batches * cBatchSize)) as [Hin|Hout].
    + destruct (Hdone (y * mWidth + x) ltac:(nia)) as [Hok _].
      unfold cell_ok in Hok.
      destruct (coordinates_index x y Hx ltac:(lia)) as [-> ->] in Hok. exact Hok.
    + destruct (inv_map _ _ _ _ Hinv) as (_ & _ & Hcells).
      destruct (Hcells x y Hx Hy) as [E|[Hlt _]]; [exact E|lia].
  - intros k. split; [apply (inv_history _ _ _ _ Hinv)|apply Hdone].
Qed.

(** *** [waitToFinish] after the workers *)

Lemma join_all_returned ts : forall k ts' joined,
  join_all k ts = Some (ts', joined) ->
  forall i t, ts !! i = Some t -> joinable t = true -> pc (worker t) = PDone.
Proof.
  induction ts as [|t0 ts IH]; intros k ts' joined H i t Ht Hj; [discriminate|].
  simpl in H.
  destruct (joinable t0) eqn:Hj0.
  - unfold join in H. destruct (pc (worker t0)) eqn:Hpc; try discriminate.
    destruct (join_all (S k) ts) as [[ts1 js]|] eqn:Hrest; [|discriminate].
    destruct i as [|i]; simpl in Ht.
    + injection Ht as <-. exact Hpc.
    + apply (IH _ _ _ Hrest i t Ht Hj).
  - destruct (join_all (S k) ts) as [[ts1 js]|] eqn:Hrest; [|discriminate].
    destruct i as [|i]; simpl in Ht.
    + injection Ht as <-. congruence.
    + apply (IH _ _ _ Hrest i t Ht Hj).
Qed.

Lemma join_all_defined ts : forall k,
  (forall i t, ts !! i = Some t -> pc (worker t) = PDone) ->
  is_Some (join_all k ts).
Proof.
  induction ts as [|t0 ts IH]; intros k Hall; simpl; [eauto|].
  destruct (IH (S k)) as [[ts1 js] ->].
  { intros i t Ht. apply (Hall (S i) t Ht). }
  unfold join. rewrite (Hall 0%nat t0 eq_refl).
  destruct (joinable t0); eauto.
Qed.

Lemma waitToFinish_inv s final joined :
  inv cBatchSize mWidth mHeight s ->
  waitToFinish (this s) = Some (final, joined) ->
  all_returned s /\ mResults final = mResults (this s).
Proof.
  intros Hinv. unfold waitToFinish. rewrite (inv_started _ _ _ _ Hinv). cbn.
  destruct (join_all 0 (mThreads (this s))) as [[ts js]|] eqn:Hj; [|discriminate].
  intros [= <- _]. split; [|reflexivity].
  intros i t Ht. apply (join_all_returned _ _ _ _ Hj i t Ht).
  apply (inv_joinable _ _ _ _ Hinv i t Ht).
Qed.

Lemma waitToFinish_defined s :
  all_returned s -> is_Some (waitToFinish (this s)).
Proof.
  intros Hall. unfold waitToFinish. destruct (Bool.eqb _ _); [eauto|]. cbn.
  destruct (join_all_defined (mThreads (this s)) 0 Hall) as [[ts js] ->]. eauto.
Qed.

(** What a complete run leaves: the cells whose index lies in a batch the
    workers accept hold the result of their pixel and have been computed,
    the other cells hold 0 and have not been computed. *)
Lemma complete_run_result iterator0 saving0 numThreads final history :
  complete_run cBatchSize iterator0 saving0 mWidth mHeight numThreads final history ->
  batches + numThreads <= INT_MAX ->
  map_inv cBatchSize mWidth mHeight (map (getMap final)) /\
  (forall k, In k (indices history) -> 0 <= k < batches * cBatchSize) /\
  (1 <= numThreads ->
   (forall x y, 0 <= x < mWidth -> 0 <= y < mHeight ->
      Stack.at_xy (map (getMap final)) x y
      = Some (if y * mWidth + x <? batches * cBatchSize then value_at x y else 0)) /\
   (forall k, In k (indices history) <-> 0 <= k < batches * cBatchSize)).
Proof.
  intros (o & s & joined & Hstart & Hsteps & Hwait & ->) Hint.
  destruct (started_inv _ _ _ _ Hstart Hint) as (Hn & Hts & Hinv0).
  pose proof (steps_inv _ _ Hinv0 Hsteps) as Hinv.
  destruct (waitToFinish_inv s final joined Hinv Hwait) as [Hall Hres].
  unfold getMap. rewrite Hres.
  split; [apply Hinv|]. split; [apply Hinv|].
  intros Hone. apply (all_returned_result s Hinv Hall).
  intros Hnil. pose proof (inv_threads_int _ _ _ _ Hinv) as Hlen.
  assert (Hlen0 : length (mThreads (this s)) = Z.to_nat numThreads).
  { rewrite (steps_length _ _ Hsteps). cbn [this]. rewrite Hts. apply length_replicate. }
  rewrite Hnil in Hlen0. simpl in Hlen0. lia.
Qed.

(** *** Every worker returns *)

Lemma steps_left_nonneg s i t :
  inv cBatchSize mWidth mHeight s -> mThreads (this s) !! i = Some t ->
  0 <= steps_left (this s) (worker t).
Proof.
  intros Hinv Ht. pose proof (inv_workers _ _ _ _ Hinv i t Ht) as Hwi.
  unfold steps_left, steps_in_round. unfold worker_inv in Hwi. cbv zeta in Hwi.
  assert (0 <= Z.max 0 (batches - mMandelbrotIterator (this s)) * (3 * cBatchSize + 6))
    by nia.
  destruct (pc (worker t)); try lia.
  destruct (Bool.eqb _ _); lia.
Qed.

(** A step of a thread brings it nearer to its return and leaves the
    other threads as they are. *)
Lemma thread_step_progress s i t s' :
  inv cBatchSize mWidth mHeight s -> mThreads (this s) !! i = Some t ->
  thread_step cBatchSize i s = Some s' ->
  (exists t', mThreads (this s') !! i = Some t' /\
              steps_left (this s') (worker t') < steps_left (this s) (worker t)) /\
  (forall j, j <> i -> mThreads (this s') !! j = mThreads (this s) !! j).
Proof.
  intros Hinv Ht Hstep. unfold thread_step in Hstep. rewrite Ht in Hstep.
  destruct (loop_step cBatchSize (this s) (worker t)) as [[[o' w'] ev]|] eqn:Hl;
    [|discriminate].
  injection Hstep as <-.
  destruct (loop_step_frame _ _ _ _ _ Hl) as (Hfts & _).
  rewrite (set_worker_threads i w' o' t) by (rewrite Hfts; exact Ht).
  cbn [this mThreads set_mThreads]. rewrite Hfts. split.
  2:{ intros j Hne. apply list_lookup_insert_ne. auto. }
  eexists. split.
  { apply list_lookup_insert_eq. eapply lookup_lt_Some. exact Ht. }
  cbn [worker]. clear Hfts.
  pose proof (inv_workers _ _ _ _ Hinv i t Ht) as Hwi.
  pose proof (inv_counter _ _ _ _ Hinv) as Hcnt.
  pose proof (done_count_bounds (mThreads (this s))) as Hdc.
  pose proof (inv_threads_int _ _ _ _ Hinv) as Hint.
  pose proof batches_nonneg as Hbn.
  unfold loop_step in Hl. unfold worker_inv in Hwi. cbv zeta in Hwi.
  rewrite (inv_width _ _ _ _ Hinv), (inv_height _ _ _ _ Hinv) in Hl.
  unfold steps_left, steps_in_round.
  destruct (pc (worker t)) eqn:Hpc.
  - destruct (cBatchSize =? 0); [discriminate|].
    destruct (_ || _); injection Hl as <- <- <-; proj_simpl.
    + destruct (Bool.eqb _ _); destruct Hwi as [[_ ->]|(_ & Hlp & _)]; lia.
    + lia.
  - destruct (Bool.eqb (mIsSavingResults (this s)) (dummy (worker t))) eqn:Eflag;
      injection Hl as <- <- <-; proj_simpl.
    + lia.
    + rewrite Bool.eqb_reflx. lia.
  - destruct (Z.eqb_spec i0 (Stack.lastPos (threadStack (worker t)))).
    + injection Hl as <- <- <-; proj_simpl. lia.
    + destruct (_ && _); [|discriminate].
      destruct (Stack.assign _ _); [|discriminate].
      injection Hl as <- <- <-; proj_simpl. lia.
  - injection Hl as <- <- <-; proj_simpl. lia.
  - rewrite batches_quot in Hl.
    rewrite (to_int_small (mMandelbrotIterator (this s))) in Hl by (unfold INT_MAX in *; lia).
    rewrite (to_u64_small (mMandelbrotIterator (this s) + 1)) in Hl
      by (unfold INT_MAX in *; lia).
    destruct (Z.leb_spec batches (mMandelbrotIterator (this s)));
      injection Hl as <- <- <-; proj_simpl.
    + rewrite !Z.max_l by lia. lia.
    + rewrite Hwi. rewrite !Z.max_r by lia. nia.
  - destruct (Stack.push _ _) as [st|] eqn:Hpush; [|discriminate].
    injection Hl as <- <- <-; proj_simpl.
    unfold Stack.push in Hpush. destruct (_ && _); [|discriminate].
    injection Hpush as <-. proj_simpl. lia.
  - discriminate.
Qed.

Lemma returned_or_running w : pc w = PDone \/ pc w <> PDone.
Proof. destruct (pc w); (left; reflexivity) || (right; discriminate). Qed.

(** From a state of the invariant, the thread [i] running alone returns. *)
Lemma thread_returns (fuel : nat) : forall s i t,
  inv cBatchSize mWidth mHeight s -> mThreads (this s) !! i = Some t ->
  steps_left (this s) (worker t) <= Z.of_nat fuel ->
  exists s', rtc (step cBatchSize) s s' /\
    (exists t', mThreads (this s') !! i = Some t' /\ pc (worker t') = PDone) /\
    (forall j, j <> i -> mThreads (this s') !! j = mThreads (this s) !! j).
Proof.
  induction fuel as [|fuel IH]; intros s i t Hinv Ht Hfuel.
  - destruct (returned_or_running (worker t)) as [Hd|Hrun].
    { exists s. split; [apply rtc_refl|]. split; [eauto|auto]. }
    destruct (inv_can_step s i t Hinv Ht Hrun) as [s1 Hs1].
    destruct (thread_step_progress s i t s1 Hinv Ht Hs1) as [(t1 & Ht1 & Hlt) _].
    assert (Hinv1 : inv cBatchSize mWidth mHeight s1) by (apply (step_inv s); [|exists i]; auto).
    pose proof (steps_left_nonneg s1 i t1 Hinv1 Ht1). lia.
  - destruct (returned_or_running (worker t)) as [Hd|Hrun].
    { exists s. split; [apply rtc_refl|]. split; [eauto|auto]. }
    destruct (inv_can_step s i t Hinv Ht Hrun) as [s1 Hs1].
    destruct (thread_step_progress s i t s1 Hinv Ht Hs1) as [(t1 & Ht1 & Hlt) Hothers].
    assert (Hinv1 : inv cBatchSize mWidth mHeight s1) by (apply (step_inv s); [|exists i]; auto).
    destruct (IH s1 i t1 Hinv1 Ht1 ltac:(lia)) as (s' & Hsteps & Hdone & Hothers').
    exists s'. split; [eapply rtc_l; [exists i; exact Hs1|exact Hsteps]|].
    split; [exact Hdone|].
    intros j Hne. rewrite (Hothers' j Hne). apply (Hothers j Hne).
Qed.

(** The threads below [k] can be run until all of them have returned. *)
Lemma threads_return (k : nat) : forall s,
  inv cBatchSize mWidth mHeight s -> (k <= length (mThreads (this s)))%nat ->
  exists s', rtc (step cBatchSize) s s' /\
    forall i t, (i < k)%nat -> mThreads (this s') !! i = Some t -> pc (worker t) = PDone.
Proof.
  induction k as [|k IH]; intros s Hinv Hk.
  - exists s. split; [apply rtc_refl|]. intros i t Hi. lia.
  - destruct (IH s Hinv ltac:(lia)) as (s1 & Hsteps1 & Hdone1).
    pose proof (steps_inv s s1 Hinv Hsteps1) as Hinv1.
    pose proof (steps_length _ _ Hsteps1) as Hlen.
    destruct (lookup_lt_is_Some_2 (mThreads (this s1)) k ltac:(lia)) as [t Ht].
    pose proof (steps_left_nonneg s1 k t Hinv1 Ht) as Hnn.
    destruct (thread_returns (Z.to_nat (steps_left (this s1) (worker t))) s1 k t Hinv1 Ht
                ltac:(lia)) as (s' & Hsteps & (t' & Ht' & Hd) & Hothers).
    exists s'. split; [eapply rtc_trans; eassumption|].
    intros i ti Hi Hti. destruct (decide (i = k)) as [->|Hne].
    + rewrite Ht' in Hti. injection Hti as <-. exact Hd.
    + rewrite (Hothers i Hne) in Hti. apply (Hdone1 i ti ltac:(lia) Hti).
Qed.

(** For every number of threads the program has a complete run. *)
Lemma complete_run_exists iterator0 saving0 numThreads :
  0 <= numThreads -> batches + numThreads <= INT_MAX ->
  exists final history,
    complete_run cBatchSize iterator0 saving0 mWidth mHeight numThreads final history.
Proof.
  intros Hn Hint.
  pose proof (startThreads_fresh numThreads
                (LockfreeMandelbrot_new iterator0 saving0 mWidth mHeight) eq_refl Hn) as Hstart.
  destruct (started_inv _ _ _ _ Hstart Hint) as (_ & _ & Hinv0).
  destruct (threads_return _ _ Hinv0 (le_n _)) as (s & Hsteps & Hdone).
  assert (Hall : all_returned s).
  { intros i t Ht. apply (Hdone i t); [|exact Ht].
    rewrite <- (steps_length _ _ Hsteps). eapply lookup_lt_Some. exact Ht. }
  destruct (waitToFinish_defined s Hall) as [[final joined] Hwait].
  exists final, (processed s). unfold complete_run. eexists _, s, joined.
  split; [exact Hstart|]. split; [exact Hsteps|]. split; [exact Hwait|reflexivity].
Qed.

(** *** No pixel is computed twice *)

Lemma NoDup_snoc (l : list Z) x : List.NoDup l -> ~ In x l -> List.NoDup (l ++ [x]).
Proof.
  induction l as [|a l IH]; intros Hnd Hx; simpl.
  - constructor; [intros []|constructor].
  - apply List.NoDup_cons_iff in Hnd as [Ha Hnd].
    apply List.NoDup_cons_iff. split.
    + intros Hin. apply in_app_or in Hin as [Hin|[<-|[]]]; [exact (Ha Hin)|].
      apply Hx. left. reflexivity.
    + apply IH; [exact Hnd|]. intros Hin. apply Hx. right. exact Hin.
Qed.

(** A worker at work on a batch has claimed it. *)
Lemma owns_holds s w b :
  worker_inv cBatchSize mWidth mHeight s w -> owns w b ->
  holds cBatchSize mWidth mHeight s w.
Proof.
  unfold worker_inv, owns. cbv zeta. intros Hwi [_ Ho].
  destruct (pc w); try (destruct Ho; fail).
  - destruct Hwi as [[_ Hlp]|(Hh & _)]; [lia|exact Hh].
  - destruct Hwi as [Hlp|(Hh & _)]; [lia|exact Hh].
  - destruct Hwi as [[Hlp _]|(Hh & _)]; [lia|exact Hh].
  - destruct Hwi as (Hh & _). exact Hh.
Qed.

(** What a step of a worker does to the history, to the counter and to
    the batch the worker is at work on: nothing, or it claims the batch
    the counter shows, or it computes the next pixel of its batch. *)
Lemma loop_step_summary s i t o' w' ev :
  inv cBatchSize mWidth mHeight s -> mThreads (this s) !! i = Some t ->
  loop_step cBatchSize (this s) (worker t) = Some (o', w', ev) ->
  (ev = None /\ mMandelbrotIterator o' = mMandelbrotIterator (this s) /\
   forall b, owns w' b ->
     owns (worker t) b /\
     Stack.lastPos (threadStack w') = Stack.lastPos (threadStack (worker t))) \/
  (ev = None /\ mMandelbrotIterator o' = mMandelbrotIterator (this s) + 1 /\
   forall b, owns w' b ->
     b = mMandelbrotIterator (this s) /\ Stack.lastPos (threadStack w') = 0) \/
  (ev = Some (currentBatch (worker t) * cBatchSize + Stack.lastPos (threadStack (worker t))) /\
   mMandelbrotIterator o' = mMandelbrotIterator (this s) /\
   owns (worker t) (currentBatch (worker t)) /\
   0 <= Stack.lastPos (threadStack (worker t)) < cBatchSize /\
   Stack.lastPos (threadStack w') = Stack.lastPos (threadStack (worker t)) + 1 /\
   forall b, owns w' b -> b = currentBatch (worker t)).
Proof.
  intros Hinv Ht Hl.
  pose proof (inv_workers _ _ _ _ Hinv i t Ht) as Hwi.
  pose proof (inv_counter _ _ _ _ Hinv) as Hcnt.
  pose proof (done_count_bounds (mThreads (this s))) as Hdc.
  pose proof (inv_threads_int _ _ _ _ Hinv) as Hint.
  pose proof batches_nonneg as Hbn.
  unfold loop_step in Hl. unfold worker_inv in Hwi. cbv zeta in Hwi.
  rewrite (inv_width _ _ _ _ Hinv), (inv_height _ _ _ _ Hinv) in Hl.
  destruct (pc (worker t)) eqn:Hpc.
  - destruct (Z.eqb_spec cBatchSize 0); [discriminate|].
    destruct (_ || _) eqn:Hcond; injection Hl as <- <- <-; left;
      (split; [reflexivity|]; split; [reflexivity|]);
      intros b [Hb Ho]; unfold owns; rewrite Hpc; proj_simpl.
    + auto.
    + split; [|reflexivity]. split; [exact Hb|].
      destruct Hwi as [[Hci Hlp]|(_ & Hlp & _)]; [|lia].
      apply orb_false_iff in Hcond as [E _]. apply Z.eqb_neq in E.
      exfalso. apply E. rewrite Hci. apply Z.rem_0_l. lia.
  - destruct (Bool.eqb _ _); injection Hl as <- <- <-; left;
      (split; [reflexivity|]; split; [reflexivity|]);
      intros b [Hb Ho]; unfold owns; rewrite Hpc; proj_simpl; auto.
  - destruct (Z.eqb_spec i0 (Stack.lastPos (threadStack (worker t)))).
    + injection Hl as <- <- <-. left.
      split; [reflexivity|]. split; [reflexivity|]. intros b [_ []].
    + destruct (_ && _); [|discriminate].
      destruct (Stack.assign _ _); [|discriminate].
      injection Hl as <- <- <-. left.
      split; [reflexivity|]. split; [reflexivity|].
      intros b [Hb Ho]; unfold owns; rewrite Hpc; proj_simpl; auto.
  - injection Hl as <- <- <-. left.
    split; [reflexivity|]. split; [reflexivity|]. intros b [_ []].
  - rewrite (to_int_small (mMandelbrotIterator (this s))) in Hl by (unfold INT_MAX in *; lia).
    rewrite (to_u64_small (mMandelbrotIterator (this s) + 1)) in Hl
      by (unfold INT_MAX in *; lia).
    destruct (_ <=? _); injection Hl as <- <- <-; right; left;
      (split; [reflexivity|]; split; [reflexivity|]).
    + intros b [_ []].
    + intros b [Hb _]. proj_simpl. split; [symmetry; exact Hb|exact Hwi].
  - destruct Hwi as (Hh & Hlp & Hci).
    destruct (Stack.push _ _) as [st|] eqn:Hpush; [|discriminate].
    injection Hl as <- <- <-. right. right.
    unfold Stack.push in Hpush. destruct (_ && _); [|discriminate].
    injection Hpush as <-. proj_simpl.
    split; [rewrite Hci; reflexivity|]. split; [reflexivity|].
    split; [split; [reflexivity|rewrite Hpc; exact I]|].
    split; [exact Hlp|]. split; [reflexivity|].
    intros b [Hb _]. symmetry. exact Hb.
  - discriminate.
Qed.

Lemma step_once s s' :
  inv cBatchSize mWidth mHeight s -> once_inv s -> step cBatchSize s s' -> once_inv s'.
Proof.
  intros Hinv (Hnd & Hclaimed & Hbuf & Huniq) [i Hstep].
  unfold thread_step in Hstep.
  destruct (mThreads (this s) !! i) as [t|] eqn:Ht; [|discriminate].
  destruct (loop_step cBatchSize (this s) (worker t)) as [[[o' w'] ev]|] eqn:Hl;
    [|discriminate].
  injection Hstep as <-.
  destruct (loop_step_frame _ _ _ _ _ Hl) as (Hfts & _).
  rewrite (set_worker_threads i w' o' t) by (rewrite Hfts; exact Ht).
  assert (Hlook : forall j tj,
            <[i := {| joinable := joinable t; worker := w' |}]> (mThreads (this s)) !! j
            = Some tj ->
            (j = i /\ worker tj = w') \/ (j <> i /\ mThreads (this s) !! j = Some tj)).
  { intros j tj Hj. apply list_lookup_insert_Some in Hj as [(-> & <- & _)|(Hne & Hj)].
    - left. split; reflexivity.
    - right. split; [congruence|exact Hj]. }
  pose proof (fun j tj (Hj : mThreads (this s) !! j = Some tj) b (Ho : owns (worker tj) b) =>
                owns_holds s (worker tj) b (inv_workers _ _ _ _ Hinv j tj Hj) Ho) as Hheld.
  unfold once_inv. cbn [this processed mThreads set_mThreads mMandelbrotIterator].
  rewrite Hfts.
  destruct (loop_step_summary s i t o' w' ev Hinv Ht Hl)
    as [(-> & Hc & Hown)|[(-> & Hc & Hown)|(-> & Hc & Ho & Hlp & Hlp' & Hown)]];
    replace (mMandelbrotIterator (set_mThreads
               (<[i := {| joinable := joinable t; worker := w' |}]> (mThreads (this s))) o'))
      with (mMandelbrotIterator o') by reflexivity; rewrite Hc.
  - (* nothing *)
    split; [exact Hnd|]. split; [exact Hclaimed|]. split.
    + intros j tj b k Hj Hoj Hin Hk.
      destruct (Hlook j tj Hj) as [[-> Ew]|[Hne Hj']].
      * rewrite Ew in *. destruct (Hown b Hoj) as [Hob ->]. apply (Hbuf i t b k Ht Hob Hin Hk).
      * apply (Hbuf j tj b k Hj' Hoj Hin Hk).
    + intros j1 j2 t1 t2 b Hj1 Hj2 Ho1 Ho2.
      destruct (Hlook j1 t1 Hj1) as [[-> E1]|[Hne1 Hj1']],
               (Hlook j2 t2 Hj2) as [[-> E2]|[Hne2 Hj2']]; try reflexivity.
      * rewrite E1 in Ho1. apply (Huniq i j2 t t2 b Ht Hj2' (proj1 (Hown b Ho1)) Ho2).
      * rewrite E2 in Ho2. apply (Huniq j1 i t1 t b Hj1' Ht Ho1 (proj1 (Hown b Ho2))).
      * apply (Huniq j1 j2 t1 t2 b Hj1' Hj2' Ho1 Ho2).
  - (* a batch is claimed *)
    split; [exact Hnd|]. split; [intros k Hin; specialize (Hclaimed k Hin); nia|]. split.
    + intros j tj b k Hj Hoj Hin Hk.
      destruct (Hlook j tj Hj) as [[-> Ew]|[Hne Hj']].
      * rewrite Ew in *. destruct (Hown b Hoj) as [-> _].
        specialize (Hclaimed k Hin). lia.
      * apply (Hbuf j tj b k Hj' Hoj Hin Hk).
    + intros j1 j2 t1 t2 b Hj1 Hj2 Ho1 Ho2.
      destruct (Hlook j1 t1 Hj1) as [[-> E1]|[Hne1 Hj1']],
               (Hlook j2 t2 Hj2) as [[-> E2]|[Hne2 Hj2']]; try reflexivity.
      * rewrite E1 in Ho1. destruct (Hown b Ho1) as [-> _].
        destruct (Hheld j2 t2 Hj2' _ Ho2) as (_ & Hlt & _). destruct Ho2 as [Eb _]. lia.
      * rewrite E2 in Ho2. destruct (Hown b Ho2) as [-> _].
        destruct (Hheld j1 t1 Hj1' _ Ho1) as (_ & Hlt & _). destruct Ho1 as [Eb _]. lia.
      * apply (Huniq j1 j2 t1 t2 b Hj1' Hj2' Ho1 Ho2).
  - (* a pixel is computed *)
    destruct (Hheld i t Ht _ Ho) as (Hb & Hlt & _).
    set (b0 := currentBatch (worker t)) in *.
    set (lp := Stack.lastPos (threadStack (worker t))) in *.
    assert (Hfresh : ~ In (b0 * cBatchSize + lp) (indices (processed s))).
    { intros Hin. pose proof (Hbuf i t b0 _ Ht Ho Hin ltac:(nia)). lia. }
    unfold indices in *. rewrite map_app. cbn [List.map snd].
    split; [apply NoDup_snoc; assumption|]. split; [|split].
    + intros k Hin. apply in_app_or in Hin as [Hin|[<-|[]]]; [apply Hclaimed, Hin|nia].
    + intros j tj b k Hj Hoj Hin Hk.
      destruct (Hlook j tj Hj) as [[-> Ew]|[Hne Hj']].
      * rewrite Ew in *. rewrite (Hown b Hoj) in *. rewrite Hlp'.
        apply in_app_or in Hin as [Hin|[<-|[]]]; [|lia].
        pose proof (Hbuf i t b0 k Ht Ho Hin Hk). lia.
      * apply in_app_or in Hin as [Hin|[<-|[]]]; [apply (Hbuf j tj b k Hj' Hoj Hin Hk)|].
        assert (b = b0) as -> by nia.
        exfalso. apply Hne. apply (Huniq j i tj t b0 Hj' Ht Hoj Ho).
    + intros j1 j2 t1 t2 b Hj1 Hj2 Ho1 Ho2.
      destruct (Hlook j1 t1 Hj1) as [[-> E1]|[Hne1 Hj1']],
               (Hlook j2 t2 Hj2) as [[-> E2]|[Hne2 Hj2']]; try reflexivity.
      * rewrite E1 in Ho1. rewrite (Hown b Ho1) in *.
        apply (Huniq i j2 t t2 b0 Ht Hj2' Ho Ho2).
      * rewrite E2 in Ho2. rewrite (Hown b Ho2) in *.
        apply (Huniq j1 i t1 t b0 Hj1' Ht Ho1 Ho).
      * apply (Huniq j1 j2 t1 t2 b Hj1' Hj2' Ho1 Ho2).
Qed.

Lemma steps_once s s' :
  inv cBatchSize mWidth mHeight s -> once_inv s -> rtc (step cBatchSize) s s' ->
  once_inv s'.
Proof.
  intros Hinv Honce Hsteps. induction Hsteps as [|s s1 s' Hstep _ IH]; [exact Honce|].
  apply IH; [apply (step_inv s s1 Hinv Hstep)|apply (step_once s s1 Hinv Honce Hstep)].
Qed.

(** In a complete run no pixel is computed twice. *)
Lemma complete_run_once iterator0 saving0 numThreads final history :
  complete_run cBatchSize iterator0 saving0 mWidth mHeight numThreads final history ->
  batches + numThreads <= INT_MAX ->
  List.NoDup (indices history).
Proof.
  intros (o & s & joined & Hstart & Hsteps & Hwait & ->) Hint.
  destruct (started_inv _ _ _ _ Hstart Hint) as (Hn & Hts & Hinv0).
  apply (steps_once _ s Hinv0); [|exact Hsteps].
  split; [constructor|]. split; [intros k []|]. split; [intros i t b k _ _ []|].
  cbn [this]. rewrite Hts. intros i j ti tj b Hi _ Ho.
  apply lookup_replicate in Hi as [-> _]. destruct Ho as [_ Ho]. cbn in Ho. lia.
Qed.

End Invariant.

(** ** Complete runs *)

Lemma small_run_complete :
  complete_run cBatchSize_main 0 false 2 2 2 small_joined (processed small_all_done).
Proof.
  exists (this small_started), small_all_done, [0; 1]%nat.
  split; [reflexivity|]. split; [|split; [vm_compute; reflexivity|reflexivity]].
  eapply rtc_trans; apply run_thread_rtc.
Qed.

Lemma tiny_run_complete :
  complete_run 4 0 false 3 2 2 tiny_joined (processed tiny_all_done).
Proof.
  exists (this tiny_started), tiny_all_done, [0; 1]%nat.
  split; [reflexivity|]. split; [|split; [vm_compute; reflexivity|reflexivity]].
  eapply rtc_trans; apply run_thread_rtc.
Qed.

(** Two maps of the shape of the bitmap with the same cells are equal. *)
Lemma map_inv_ext cBatchSize mWidth mHeight (m1 m2 : list (list Z)) :
  map_inv cBatchSize mWidth mHeight m1 -> map_inv cBatchSize mWidth mHeight m2 ->
  (forall x y, 0 <= x < mWidth -> 0 <= y < mHeight ->
     Stack.at_xy m1 x y = Stack.at_xy m2 x y) ->
  m1 = m2.
Proof.
  intros (Hl1 & Hc1 & _) (Hl2 & Hc2 & _) Hcells.
  apply list_eq. intros i.
  destruct (m1 !! i) as [c1|] eqn:E1.
  - pose proof (lookup_lt_Some _ _ _ E1) as Hi.
    destruct (lookup_lt_is_Some_2 m2 i ltac:(lia)) as [c2 E2]. rewrite E2. f_equal.
    pose proof (proj1 (Forall_lookup _ _) Hc1 i c1 E1) as Hlen1.
    pose proof (proj1 (Forall_lookup _ _) Hc2 i c2 E2) as Hlen2.
    simpl in Hlen1, Hlen2.
    apply list_eq. intros j.
    destruct (Nat.lt_ge_cases j (length c1)) as [Hj|Hj].
    + specialize (Hcells (Z.of_nat i) (Z.of_nat j) ltac:(lia) ltac:(lia)).
      unfold Stack.at_xy in Hcells.
      destruct (Z.leb_spec 0 (Z.of_nat i)), (Z.leb_spec 0 (Z.of_nat j)); try lia.
      cbn [andb] in Hcells. rewrite !Nat2Z.id, E1, E2 in Hcells. exact Hcells.
    + rewrite !lookup_ge_None_2 by lia. reflexivity.
  - symmetry. apply lookup_ge_None_2. apply lookup_ge_None_1 in E1. lia.
Qed.

(** With at least one thread the bitmap a complete run leaves depends on
    the size of the bitmap and the batch size only. *)
Lemma complete_runs_agree cBatchSize mWidth mHeight
    iterator1 saving1 threads1 final1 history1
    iterator2 saving2 threads2 final2 history2 :
  0 < mWidth -> 0 <= mHeight -> mWidth * mHeight <= INT_MAX ->
  0 < cBatchSize <= cBufferSize ->
  1 <= threads1 -> batches cBatchSize mWidth mHeight + threads1 <= INT_MAX ->
  1 <= threads2 -> batches cBatchSize mWidth mHeight + threads2 <= INT_MAX ->
  complete_run cBatchSize iterator1 saving1 mWidth mHeight threads1 final1 history1 ->
  complete_run cBatchSize iterator2 saving2 mWidth mHeight threads2 final2 history2 ->
  map (getMap final1) = map (getMap final2).
Proof.
  intros Hw Hh Ha [Hb Hbuf] Hn1 Hi1 Hn2 Hi2 Hrun1 Hrun2.
  destruct (complete_run_result _ _ _ Hw Hh Ha Hb Hbuf _ _ _ _ _ Hrun1 Hi1)
    as (Hm1 & _ & Hres1).
  destruct (complete_run_result _ _ _ Hw Hh Ha Hb Hbuf _ _ _ _ _ Hrun2 Hi2)
    as (Hm2 & _ & Hres2).
  destruct (Hres1 Hn1) as [Hcells1 _]. destruct (Hres2 Hn2) as [Hcells2 _].
  apply (map_inv_ext _ _ _ _ _ Hm1 Hm2).
  intros x y Hx Hy. rewrite Hcells1, Hcells2 by assumption. reflexivity.
Qed.

(** ** The program of [main]: 170 by 118 pixels in batches of 20000 *)

Lemma main_batches : batches cBatchSize_main cWidthPixels cHeightPixels = 1.
Proof. reflexivity. Qed.

Lemma main_last_pixels_positive x :
  110 <= x < 170 -> 0 < value_at cWidthPixels cHeightPixels x 117.
Proof.
  intros Hx.
  assert (H : forallb (fun n => 0 <? value_at cWidthPixels cHeightPixels (110 + Z.of_nat n) 117)
                (seq 0 60) = true) by (vm_compute; reflexivity).
  rewrite forallb_forall in H.
  specialize (H (Z.to_nat (x - 110))). rewrite in_seq in H.
  replace (110 + Z.of_nat (Z.to_nat (x - 110))) with x in H by lia.
  apply Z.ltb_lt, H. lia.
Qed.

(** C1, at the program's own input: [main] has complete runs; in every
    complete run with at least one thread the cells of the indices below
    20000 hold the result of their pixel, but the 60 cells (110, 117) to
    (169, 117), of the indices 20000 to 20059, still hold their first
    value 0; the result of each of those pixels is positive, 3 at
    (110, 117). *)
Theorem C1_main_leaves_last_pixels_unwritten :
  (exists final history,
     complete_run cBatchSize_main 0 false cWidthPixels cHeightPixels 24 final history) /\
  (forall iterator0 saving0 numThreads final history,
     1 <= numThreads < INT_MAX ->
     complete_run cBatchSize_main iterator0 saving0 cWidthPixels cHeightPixels
       numThreads final history ->
     (forall x y, 0 <= x < cWidthPixels -> 0 <= y < cHeightPixels ->
        y * cWidthPixels + x < 20000 ->
        Stack.at_xy (map (getMap final)) x y
        = Some (value_at cWidthPixels cHeightPixels x y)) /\
     (forall x, 110 <= x < 170 -> Stack.at_xy (map (getMap final)) x 117 = Some 0)) /\
  (forall x, 110 <= x < 170 -> 0 < value_at cWidthPixels cHeightPixels x 117) /\
  value_at cWidthPixels cHeightPixels 110 117 = 3.
Proof.
  assert (Hw : 0 < cWidthPixels) by reflexivity.
  assert (Hh : 0 <= cHeightPixels) by discriminate.
  assert (Ha : cWidthPixels * cHeightPixels <= INT_MAX) by discriminate.
  assert (Hb : 0 < cBatchSize_main) by reflexivity.
  assert (Hbuf : cBatchSize_main <= cBufferSize) by discriminate.
  split; [|split; [|split]].
  - apply complete_run_exists; try assumption; rewrite ?main_batches; unfold INT_MAX; lia.
  - intros iterator0 saving0 numThreads final history Hn Hrun.
    destruct (complete_run_result _ _ _ Hw Hh Ha Hb Hbuf _ _ _ _ _ Hrun)
      as (_ & _ & Hres); [rewrite main_batches; lia|].
    destruct (Hres ltac:(lia)) as [Hcells _]. rewrite main_batches in Hcells.
    unfold cWidthPixels, cHeightPixels, cBatchSize_main in *.
    split.
    + intros x y Hx Hy Hk. rewrite (Hcells x y Hx Hy).
      destruct (Z.ltb_spec (y * 170 + x) (1 * 20000)); [reflexivity|lia].
    + intros x Hx. rewrite (Hcells x 117) by lia.
      destruct (Z.ltb_spec (117 * 170 + x) (1 * 20000)); [lia|reflexivity].
  - exact main_last_pixels_positive.
  - vm_compute. reflexivity.
Qed.

(** The pixels a complete run with at least one thread computes. *)
Lemma processed_indices cBatchSize mWidth mHeight
    iterator0 saving0 numThreads final history :
  0 < mWidth -> 0 <= mHeight -> mWidth * mHeight <= INT_MAX ->
  0 < cBatchSize <= cBufferSize ->
  1 <= numThreads -> mWidth * mHeight / cBatchSize + numThreads <= INT_MAX ->
  complete_run cBatchSize iterator0 saving0 mWidth mHeight numThreads final history ->
  List.NoDup (indices history) /\
  forall k, In k (indices history) <-> 0 <= k < mWidth * mHeight / cBatchSize * cBatchSize.
Proof.
  intros Hw Hh Ha [Hb Hbuf] Hn Hint Hrun. split.
  - apply (complete_run_once _ _ _ Hw Hh Ha Hb Hbuf _ _ _ _ _ Hrun Hint).
  - destruct (complete_run_result _ _ _ Hw Hh Ha Hb Hbuf _ _ _ _ _ Hrun Hint)
      as (_ & _ & Hres).
    destruct (Hres Hn) as [_ Hhist]. exact Hhist.
Qed.

(** C2: in a complete run with at least one thread no pixel is computed
    twice, and the pixels computed are those of the indices below
    [totalArea / cBatchSize * cBatchSize], the full batches; the indices
    from there to [totalArea], of which there are some whenever the batch
    size does not divide the area, are never computed. *)
Theorem C2_processed_indices cBatchSize mWidth mHeight
    iterator0 saving0 numThreads final history :
  0 < mWidth -> 0 <= mHeight -> mWidth * mHeight <= INT_MAX ->
  0 < cBatchSize <= cBufferSize ->
  1 <= numThreads -> mWidth * mHeight / cBatchSize + numThreads <= INT_MAX ->
  complete_run cBatchSize iterator0 saving0 mWidth mHeight numThreads final history ->
  List.NoDup (indices history) /\
  (forall k, In k (indices history) <-> 0 <= k < mWidth * mHeight / cBatchSize * cBatchSize) /\
  (forall k, mWidth * mHeight / cBatchSize * cBatchSize <= k < mWidth * mHeight ->
     ~ In k (indices history)).
Proof.
  intros Hw Hh Ha Hb Hn Hint Hrun.
  destruct (processed_indices _ _ _ _ _ _ _ _ Hw Hh Ha Hb Hn Hint Hrun) as [Hnd Hhist].
  split; [exact Hnd|]. split; [exact Hhist|].
  intros k Hk Hin. apply Hhist in Hin. lia.
Qed.

Lemma C2_processed_indices_witness :
  List.NoDup (indices (processed tiny_all_done)) /\
  (forall k, In k (indices (processed tiny_all_done)) <-> 0 <= k < 3 * 2 / 4 * 4) /\
  (forall k, 3 * 2 / 4 * 4 <= k < 3 * 2 -> ~ In k (indices (processed tiny_all_done))).
Proof.
  apply (C2_processed_indices 4 3 2 0 false 2 tiny_joined (processed tiny_all_done)).
  - lia.
  - lia.
  - unfold INT_MAX. lia.
  - unfold cBufferSize. lia.
  - lia.
  - vm_compute. discriminate.
  - exact tiny_run_complete.
Defined.

(** In the program of [main] the indices 20000 to 20059 are left out. *)
Lemma main_skips_last_indices iterator0 saving0 numThreads final history k :
  1 <= numThreads < INT_MAX ->
  complete_run cBatchSize_main iterator0 saving0 cWidthPixels cHeightPixels
    numThreads final history ->
  20000 <= k < cWidthPixels * cHeightPixels -> ~ In k (indices history).
Proof.
  intros Hn Hrun Hk Hin.
  pose proof main_batches as Hone. unfold batches in Hone.
  destruct (processed_indices cBatchSize_main cWidthPixels cHeightPixels
              iterator0 saving0 numThreads final history) as [_ Hhist];
    [reflexivity|discriminate|discriminate|split; [reflexivity|discriminate]
    |lia|rewrite Hone; lia|exact Hrun|].
  apply Hhist in Hin. rewrite Hone in Hin. unfold cBatchSize_main in Hin. lia.
Qed.

(** C3: with a batch size above the area no pixel is computed by any
    worker, and every cell holds its first value 0 when [waitToFinish]
    has returned. *)
Theorem C3_batch_larger_than_area cBatchSize mWidth mHeight
    iterator0 saving0 numThreads final history :
  0 < mWidth -> 0 <= mHeight -> mWidth * mHeight <= INT_MAX ->
  mWidth * mHeight < cBatchSize <= cBufferSize ->
  numThreads <= INT_MAX ->
  complete_run cBatchSize iterator0 saving0 mWidth mHeight numThreads final history ->
  history = [] /\
  forall x y, 0 <= x < mWidth -> 0 <= y < mHeight ->
    Stack.at_xy (map (getMap final)) x y = Some 0.
Proof.
  intros Hw Hh Ha [Hb Hbuf] Hn Hrun.
  assert (Harea : 0 <= mWidth * mHeight) by (apply Z.mul_nonneg_nonneg; lia).
  assert (Hpos : 0 < cBatchSize) by lia.
  assert (Hnone : batches cBatchSize mWidth mHeight = 0)
    by (apply Z.div_small; lia).
  destruct (complete_run_result _ _ _ Hw Hh Ha Hpos Hbuf _ _ _ _ _ Hrun)
    as ((_ & _ & Hcells) & Hhist & _); [lia|].
  rewrite Hnone in *. split.
  - destruct history as [|[i k] history]; [reflexivity|].
    specialize (Hhist k (or_introl eq_refl)). lia.
  - intros x y Hx Hy. destruct (Hcells x y Hx Hy) as [E|[Hlt _]]; [exact E|nia].
Qed.

Lemma C3_batch_larger_than_area_witness :
  processed small_all_done = [] /\
  forall x y, 0 <= x < 2 -> 0 <= y < 2 ->
    Stack.at_xy (map (getMap small_joined)) x y = Some 0.
Proof.
  apply (C3_batch_larger_than_area cBatchSize_main 2 2 0 false 2).
  - lia.
  - lia.
  - unfold INT_MAX. lia.
  - unfold cBatchSize_main, cBufferSize. lia.
  - unfold INT_MAX. lia.
  - exact small_run_complete.
Defined.

(** The pixel at (1, 1) of a 2 by 2 bitmap never escapes. *)
Lemma small_pixel_value : value_at 2 2 1 1 = 1000.
Proof. vm_compute. reflexivity. Qed.

(** C5: for one batch size, complete runs with at least one thread each
    leave the same bitmap whatever the numbers of threads; but the bitmap
    depends on the batch size: in the program of [main] the cell
    (110, 117) holds 0 after a run in batches of 20000 and 3 after a run
    in batches of 10. *)
Theorem C5_threads_agree_batch_sizes_differ :
  (forall cBatchSize mWidth mHeight
          iterator1 saving1 threads1 final1 history1
          iterator2 saving2 threads2 final2 history2,
     0 < mWidth -> 0 <= mHeight -> mWidth * mHeight <= INT_MAX ->
     0 < cBatchSize <= cBufferSize ->
     1 <= threads1 -> batches cBatchSize mWidth mHeight + threads1 <= INT_MAX ->
     1 <= threads2 -> batches cBatchSize mWidth mHeight + threads2 <= INT_MAX ->
     complete_run cBatchSize iterator1 saving1 mWidth mHeight threads1 final1 history1 ->
     complete_run cBatchSize iterator2 saving2 mWidth mHeight threads2 final2 history2 ->
     map (getMap final1) = map (getMap final2)) /\
  (exists final1 history1 final2 history2,
     complete_run 20000 0 false cWidthPixels cHeightPixels 24 final1 history1 /\
     complete_run 10 0 false cWidthPixels cHeightPixels 24 final2 history2 /\
     Stack.at_xy (map (getMap final1)) 110 117 = Some 0 /\
     Stack.at_xy (map (getMap final2)) 110 117 = Some 3).
Proof.
  split; [exact complete_runs_agree|].
  assert (Hw : 0 < cWidthPixels) by reflexivity.
  assert (Hh : 0 <= cHeightPixels) by discriminate.
  assert (Ha : cWidthPixels * cHeightPixels <= INT_MAX) by discriminate.
  assert (Hb1 : 0 < 20000) by reflexivity.
  assert (Hbuf1 : 20000 <= cBufferSize) by discriminate.
  assert (Hb2 : 0 < 10) by reflexivity.
  assert (Hbuf2 : 10 <= cBufferSize) by discriminate.
  assert (E1 : batches 20000 cWidthPixels cHeightPixels = 1) by reflexivity.
  assert (E2 : batches 10 cWidthPixels cHeightPixels = 2006) by reflexivity.
  destruct (complete_run_exists 20000 _ _ Hw Hh Ha Hb1 Hbuf1 0 false 24)
    as (final1 & history1 & Hrun1); [lia|rewrite E1; unfold INT_MAX; lia|].
  destruct (complete_run_exists 10 _ _ Hw Hh Ha Hb2 Hbuf2 0 false 24)
    as (final2 & history2 & Hrun2); [lia|rewrite E2; unfold INT_MAX; lia|].
  exists final1, history1, final2, history2.
  split; [exact Hrun1|]. split; [exact Hrun2|].
  destruct (complete_run_result _ _ _ Hw Hh Ha Hb1 Hbuf1 _ _ _ _ _ Hrun1)
    as (_ & _ & Hres1); [rewrite E1; unfold INT_MAX; lia|].
  destruct (complete_run_result _ _ _ Hw Hh Ha Hb2 Hbuf2 _ _ _ _ _ Hrun2)
    as (_ & _ & Hres2); [rewrite E2; unfold INT_MAX; lia|].
  destruct (Hres1 ltac:(lia)) as [Hcells1 _]. destruct (Hres2 ltac:(lia)) as [Hcells2 _].
  rewrite E1 in Hcells1. rewrite E2 in Hcells2.
  split.
  - rewrite (Hcells1 110 117) by (unfold cWidthPixels, cHeightPixels; lia). reflexivity.
  - rewrite (Hcells2 110 117) by (unfold cWidthPixels, cHeightPixels; lia).
    vm_compute. reflexivity.
Qed.

(** ** Rendering *)

(** The cells of the bitmap of a complete run hold results from 0 to 1000. *)
Lemma complete_run_cells cBatchSize mWidth mHeight
    iterator0 saving0 numThreads final history x y r :
  0 < mWidth -> 0 <= mHeight -> mWidth * mHeight <= INT_MAX ->
  0 < cBatchSize <= cBufferSize ->
  batches cBatchSize mWidth mHeight + numThreads <= INT_MAX ->
  complete_run cBatchSize iterator0 saving0 mWidth mHeight numThreads final history ->
  0 <= x < mWidth -> 0 <= y < mHeight ->
  Stack.at_xy (map (getMap final)) x y = Some r -> 0 <= r <= 1000.
Proof.
  intros Hw Hh Ha [Hb Hbuf] Hint Hrun Hx Hy Hr.
  destruct (complete_run_result _ _ _ Hw Hh Ha Hb Hbuf _ _ _ _ _ Hrun Hint)
    as ((_ & _ & Hcells) & _).
  destruct (Hcells x y Hx Hy) as [E|[_ E]]; rewrite E in Hr; injection Hr as <-.
  - lia.
  - apply render_range.
Qed.

Lemma branches_of r :
  (0 <= r <= 1000 -> branches_taken r = 1%nat /\ is_Some (draw_char r)) /\
  (1000 < r -> branches_taken r = 0%nat /\ draw_char r = None).
Proof.
  unfold branches_taken, draw_char, branch1, branch2, branch3, branch4.
  split; intros Hr;
    destruct (Z.leb_spec r 10), (Z.ltb_spec 10 r), (Z.leb_spec r 100),
      (Z.ltb_spec 100 r), (Z.leb_spec r 200), (Z.ltb_spec 200 r),
      (Z.leb_spec r 1000); simpl; try lia; split; eauto.
Qed.

(** C10: for a result from 0 to 1000 exactly one branch condition of
    [drawFromResults] holds and the character is assigned; above 1000 no
    condition holds and the character is left unassigned; every value
    [render] returns, and every cell of the bitmap of a complete run, is a
    result from 0 to 1000 for which the character is assigned. *)
Theorem C10_draw_branches (r : Z) :
  (0 <= r <= 1000 -> branches_taken r = 1%nat /\ is_Some (draw_char r)) /\
  (1000 < r -> branches_taken r = 0%nat /\ draw_char r = None) /\
  (forall cx cy,
     0 <= Kernel.render cx cy <= 1000 /\ is_Some (draw_char (Kernel.render cx cy))) /\
  (forall cBatchSize mWidth mHeight iterator0 saving0 numThreads final history x y v,
     0 < mWidth -> 0 <= mHeight -> mWidth * mHeight <= INT_MAX ->
     0 < cBatchSize <= cBufferSize ->
     batches cBatchSize mWidth mHeight + numThreads <= INT_MAX ->
     complete_run cBatchSize iterator0 saving0 mWidth mHeight numThreads final history ->
     0 <= x < mWidth -> 0 <= y < mHeight ->
     Stack.at_xy (map (getMap final)) x y = Some v ->
     0 <= v <= 1000 /\ is_Some (draw_char v)).
Proof.
  split; [apply branches_of|]. split; [apply branches_of|]. split.
  - intros cx cy. pose proof (render_range cx cy) as Hr.
    split; [exact Hr|]. apply (branches_of (Kernel.render cx cy)), Hr.
  - intros cBatchSize mWidth mHeight iterator0 saving0 numThreads final history x y v
      Hw Hh Ha Hb Hint Hrun Hx Hy Hv.
    pose proof (complete_run_cells _ _ _ _ _ _ _ _ _ _ _ Hw Hh Ha Hb Hint Hrun Hx Hy Hv) as Hr.
    split; [exact Hr|]. apply (branches_of v), Hr.
Qed.

(** * Further properties of the code *)

(** ** [positionFromIndex] *)

(** X1: for a bitmap whose area fits an [int], [positionFromIndex] maps
    an index below the area to a position inside the bitmap from which the
    index is recovered as [y * width + x], and it maps [y * width + x]
    back to [(x, y)] for every position inside the bitmap: indices and
    positions correspond one to one. *)
Theorem X1_positionFromIndex_round_trip (o : LockfreeMandelbrot) :
  0 < mWidthPixels o -> 0 <= mHeightPixels o ->
  mWidthPixels o * mHeightPixels o <= INT_MAX ->
  (forall k, 0 <= k < mWidthPixels o * mHeightPixels o ->
     exists x y, positionFromIndex o k = (x, y) /\
       0 <= x < mWidthPixels o /\ 0 <= y < mHeightPixels o /\
       y * mWidthPixels o + x = k) /\
  (forall x y, 0 <= x < mWidthPixels o -> 0 <= y < mHeightPixels o ->
     positionFromIndex o (y * mWidthPixels o + x) = (x, y)).
Proof.
  intros Hw Hh Ha. split.
  - intros k Hk.
    rewrite (positionFromIndex_in_range _ _ Hw Hh Ha o k eq_refl Hk).
    destruct (index_coordinates _ _ Hw k Hk) as (Hx & Hy & Hxy).
    eexists _, _. split; [reflexivity|]. auto.
  - intros x y Hx Hy.
    rewrite (positionFromIndex_in_range _ _ Hw Hh Ha o _ eq_refl) by nia.
    destruct (coordinates_index _ Hw x y Hx ltac:(lia)) as [-> ->]. reflexivity.
Qed.

Lemma X1_positionFromIndex_round_trip_witness :
  (forall k, 0 <= k < 170 * 118 ->
     exists x y, positionFromIndex (LockfreeMandelbrot_new 0 false 170 118) k = (x, y) /\
       0 <= x < 170 /\ 0 <= y < 118 /\ y * 170 + x = k) /\
  (forall x y, 0 <= x < 170 -> 0 <= y < 118 ->
     positionFromIndex (LockfreeMandelbrot_new 0 false 170 118) (y * 170 + x) = (x, y)).
Proof.
  apply (X1_positionFromIndex_round_trip (LockfreeMandelbrot_new 0 false 170 118)).
  - reflexivity.
  - discriminate.
  - discriminate.
Defined.

(** ** [Stack::push] *)

Lemma entries_length s : 0 <= Stack.lastPos s -> length (Stack.entries s) = Z.to_nat (Stack.lastPos s).
Proof. intros _. unfold Stack.entries. rewrite length_map, length_seq. reflexivity. Qed.

Lemma push_defined s item :
  is_Some (Stack.push s item) <-> 0 <= Stack.lastPos s < cBufferSize.
Proof.
  unfold Stack.push.
  destruct (Z.leb_spec 0 (Stack.lastPos s)), (Z.ltb_spec (Stack.lastPos s) cBufferSize);
    cbn [andb]; split; intros Hp; try lia; eauto; destruct Hp; discriminate.
Qed.

Lemma push_entries s item s' :
  Stack.push s item = Some s' ->
  Stack.lastPos s' = Stack.lastPos s + 1 /\
  Stack.entries s' = Stack.entries s ++ [item] /\
  (forall j, j <> Stack.lastPos s -> Stack.arr s' j = Stack.arr s j) /\
  Stack.arr s' (Stack.lastPos s) = item.
Proof.
  unfold Stack.push.
  destruct (Z.leb_spec 0 (Stack.lastPos s)), (Z.ltb_spec (Stack.lastPos s) cBufferSize);
    cbn [andb]; try discriminate.
  intros [= <-]. cbn [Stack.lastPos Stack.arr]. split; [reflexivity|]. split; [|split].
  - unfold Stack.entries. cbn [Stack.lastPos Stack.arr].
    replace (Z.to_nat (Stack.lastPos s + 1)) with (Z.to_nat (Stack.lastPos s) + 1)%nat by lia.
    rewrite seq_app, map_app. cbn [seq List.map]. f_equal.
    + apply map_ext_in. intros j Hj. apply in_seq in Hj.
      destruct (Z.eqb_spec (Z.of_nat j) (Stack.lastPos s)); [lia|reflexivity].
    + destruct (Z.eqb_spec (Z.of_nat (0 + Z.to_nat (Stack.lastPos s))) (Stack.lastPos s));
        [reflexivity|lia].
  - intros j Hj. destruct (Z.eqb_spec j (Stack.lastPos s)); [contradiction|reflexivity].
  - rewrite Z.eqb_refl. reflexivity.
Qed.

(** X2: [push] is defined exactly while the buffer has room
    ([0 <= lastPos < cBufferSize]; beyond that it writes outside the
    array); when it is defined it appends the item to the accumulated
    entries and leaves the earlier ones as they were. *)
Theorem X2_push_appends (s : Stack.t) (item : Stack.Item) :
  (is_Some (Stack.push s item) <-> 0 <= Stack.lastPos s < cBufferSize) /\
  (forall s', Stack.push s item = Some s' ->
     Stack.lastPos s' = Stack.lastPos s + 1 /\
     Stack.entries s' = Stack.entries s ++ [item]).
Proof.
  split; [apply push_defined|].
  intros s' H. destruct (push_entries s item s' H) as (Hl & He & _). auto.
Qed.

(** ** [push] and [dumpToMap] together *)

Lemma dump_loop_ext n (a a' : Z -> Stack.Item) : forall i m,
  (forall j, i <= j < i + Z.of_nat n -> a' j = a j) ->
  Stack.dump_loop n a' i m = Stack.dump_loop n a i m.
Proof.
  induction n as [|n IH]; intros i m Hsame; [reflexivity|].
  cbn [Stack.dump_loop]. rewrite Hsame by lia.
  destruct (Stack.assign m (a i)); [|reflexivity]. apply IH. intros j Hj. apply Hsame. lia.
Qed.

Lemma dump_loop_last n (a : Z -> Stack.Item) : forall i m,
  Stack.dump_loop (S n) a i m
  = match Stack.dump_loop n a i m with
    | Some m1 => Stack.assign m1 (a (i + Z.of_nat n))
    | None => None
    end.
Proof.
  induction n as [|n IH]; intros i m.
  - cbn [Stack.dump_loop]. rewrite Z.add_0_r. destruct (Stack.assign m (a i)); reflexivity.
  - change (Stack.dump_loop (S (S n)) a i m)
      with (match Stack.assign m (a i) with
            | Some m' => Stack.dump_loop (S n) a (i + 1) m'
            | None => None
            end).
    change (Stack.dump_loop (S n) a i m)
      with (match Stack.assign m (a i) with
            | Some m' => Stack.dump_loop n a (i + 1) m'
            | None => None
            end).
    destruct (Stack.assign m (a i)) as [m'|]; [|reflexivity].
    rewrite IH. replace (i + 1 + Z.of_nat n) with (i + Z.of_nat (S n)) by lia. reflexivity.
Qed.

(** X3: dumping a buffer on which an item has just been pushed is dumping
    the buffer as it was and then assigning the pushed item to its cell;
    so whenever that dump is defined the cell of the item pushed last
    holds its result afterwards, and the buffer is empty. *)
Theorem X3_push_then_dump (s s1 : Stack.t) (e : Stack.Item) (m : Stack.ResultMap) :
  Stack.push s e = Some s1 ->
  option_map snd (Stack.dumpToMap s1 m)
  = match Stack.dumpToMap s m with
    | Some (_, m1) => Stack.assign m1 e
    | None => None
    end /\
  (forall s2 m2, Stack.dumpToMap s1 m = Some (s2, m2) ->
     Stack.lastPos s2 = 0 /\ Stack.at_xy m2 (Stack.x e) (Stack.y e) = Some (Stack.res e)).
Proof.
  intros Hpush.
  destruct (proj1 (push_defined s e) ltac:(rewrite Hpush; eauto)) as [Hlo Hhi].
  destruct (push_entries s e s1 Hpush) as (Hlast & _ & Hold & Hnew).
  assert (Hdump : Stack.dump_loop (Z.to_nat (Stack.lastPos s1)) (Stack.arr s1) 0 m
                  = match Stack.dump_loop (Z.to_nat (Stack.lastPos s)) (Stack.arr s) 0 m with
                    | Some m1 => Stack.assign m1 e
                    | None => None
                    end).
  { rewrite Hlast. replace (Z.to_nat (Stack.lastPos s + 1)) with (S (Z.to_nat (Stack.lastPos s))) by lia.
    rewrite dump_loop_last.
    rewrite (dump_loop_ext _ (Stack.arr s) (Stack.arr s1)) by (intros j Hj; apply Hold; lia).
    replace (0 + Z.of_nat (Z.to_nat (Stack.lastPos s))) with (Stack.lastPos s) by lia.
    rewrite Hnew. reflexivity. }
  assert (Heq : option_map snd (Stack.dumpToMap s1 m)
                = match Stack.dumpToMap s m with
                  | Some (_, m1) => Stack.assign m1 e
                  | None => None
                  end).
  { unfold Stack.dumpToMap. rewrite Hdump, Hlast.
    destruct (Z.leb_spec 0 (Stack.lastPos s)), (Z.leb_spec (Stack.lastPos s) cBufferSize),
             (Z.leb_spec 0 (Stack.lastPos s + 1)), (Z.leb_spec (Stack.lastPos s + 1) cBufferSize);
      try lia. cbn [andb].
    destruct (Stack.dump_loop _ (Stack.arr s) 0 m) as [m1|]; [|reflexivity].
    destruct (Stack.assign m1 e); reflexivity. }
  split; [exact Heq|].
  intros s2 m2 H2. rewrite H2 in Heq. cbn in Heq. split.
  - unfold Stack.dumpToMap in H2. destruct (_ && _); [|discriminate].
    destruct (Stack.dump_loop _ _ _ _); [|discriminate]. injection H2 as <- _. reflexivity.
  - destruct (Stack.dumpToMap s m) as [[s0 m1]|]; [|discriminate].
    symmetry in Heq. apply (assign_at_same _ _ _ Heq).
Qed.

Lemma X3_push_then_dump_witness :
  option_map snd
    (Stack.dumpToMap
       {| Stack.arr := fun k => if k =? 3 then {| Stack.x := 1; Stack.y := 1; Stack.res := 9 |}
                                else Stack.arr three_entries k;
          Stack.lastPos := 3 + 1 |} [[0; 0]; [0; 0]])
  = match Stack.dumpToMap three_entries [[0; 0]; [0; 0]] with
    | Some (_, m1) => Stack.assign m1 {| Stack.x := 1; Stack.y := 1; Stack.res := 9 |}
    | None => None
    end /\
  (forall s2 m2,
     Stack.dumpToMap
       {| Stack.arr := fun k => if k =? 3 then {| Stack.x := 1; Stack.y := 1; Stack.res := 9 |}
                                else Stack.arr three_entries k;
          Stack.lastPos := 3 + 1 |} [[0; 0]; [0; 0]] = Some (s2, m2) ->
     Stack.lastPos s2 = 0 /\ Stack.at_xy m2 1 1 = Some 9).
Proof.
  apply (X3_push_then_dump three_entries _ {| Stack.x := 1; Stack.y := 1; Stack.res := 9 |}).
  reflexivity.
Defined.

(** ** The constructor of [MandelbrotBitmap] *)

Lemma emplace_cells_replicate n : forall column,
  emplace_cells n column = column ++ replicate n 0.
Proof.
  induction n as [|n IH]; intros column; simpl.
  - rewrite app_nil_r. reflexivity.
  - rewrite IH, <- app_assoc. reflexivity.
Qed.

Lemma push_columns_replicate n : forall column m,
  push_columns n (column :: m) = column :: m ++ replicate n column.
Proof.
  induction n as [|n IH]; intros column m; simpl.
  - rewrite app_nil_r. reflexivity.
  - rewrite IH, <- app_assoc. reflexivity.
Qed.

Lemma at_xy_replicate (w h : nat) x y :
  Stack.at_xy (replicate w (replicate h 0)) x y
  = if (0 <=? x) && (x <? Z.of_nat w) && (0 <=? y) && (y <? Z.of_nat h) then Some 0 else None.
Proof.
  unfold Stack.at_xy.
  destruct (Z.leb_spec 0 x), (Z.ltb_spec x (Z.of_nat w)), (Z.leb_spec 0 y),
           (Z.ltb_spec y (Z.of_nat h)); cbn [andb]; try reflexivity.
  - rewrite lookup_replicate_2 by lia. apply lookup_replicate_2. lia.
  - rewrite lookup_replicate_2 by lia. apply lookup_replicate_None. lia.
  - assert (E : replicate w (replicate h 0) !! Z.to_nat x = None)
      by (apply lookup_replicate_None; lia).
    rewrite E. reflexivity.
  - assert (E : replicate w (replicate h 0) !! Z.to_nat x = None)
      by (apply lookup_replicate_None; lia).
    rewrite E. reflexivity.
Qed.

(** X4: for [width >= 1] and [height >= 0] the loops of the constructor
    build [width] columns of [height] zeros: every cell inside the bitmap
    reads 0 and there is no cell outside it. *)
Theorem X4_constructor_zero_grid (width height : Z) :
  1 <= width -> 0 <= height ->
  MandelbrotBitmap_loops width height = Some (MandelbrotBitmap_new width height) /\
  forall x y,
    Stack.at_xy (map (MandelbrotBitmap_new width height)) x y
    = if (0 <=? x) && (x <? width) && (0 <=? y) && (y <? height) then Some 0 else None.
Proof.
  intros Hw Hh. split.
  - unfold MandelbrotBitmap_loops, MandelbrotBitmap_new.
    destruct (Z.leb_spec 1 width), (Z.leb_spec 0 height); try lia. cbn [andb].
    f_equal. f_equal. cbn [app]. cbn [insert list_insert].
    rewrite emplace_cells_replicate. cbn [app].
    rewrite push_columns_replicate. cbn [app].
    replace (Z.to_nat width) with (S (Z.to_nat (width - 1))) by lia. reflexivity.
  - intros x y. unfold MandelbrotBitmap_new. cbn [map].
    rewrite at_xy_replicate. rewrite !Z2Nat.id by lia. reflexivity.
Qed.

Lemma X4_constructor_zero_grid_witness :
  MandelbrotBitmap_loops 3 2 = Some (MandelbrotBitmap_new 3 2) /\
  forall x y,
    Stack.at_xy (map (MandelbrotBitmap_new 3 2)) x y
    = if (0 <=? x) && (x <? 3) && (0 <=? y) && (y <? 2) then Some 0 else None.
Proof. apply (X4_constructor_zero_grid 3 2); lia. Defined.

(** ** [drawFromResults] *)

(** The character printed for the cell [(x, y)], if there is one. *)
Lemma draw_row_defined n (m : list (list Z)) y : forall x,
  (forall j, 0 <= j < Z.of_nat n ->
     exists r, Stack.at_xy m (x + j) y = Some r /\ 0 <= r <= 1000) ->
  exists row, draw_row n m x y = Some row /\ length row = n /\
    forall j : nat, (j < n)%nat ->
      exists r c, Stack.at_xy m (x + Z.of_nat j) y = Some r /\
                  draw_char r = Some c /\ row !! j = Some c.
Proof.
  induction n as [|n IH]; intros x Hcells.
  - exists []. split; [reflexivity|]. split; [reflexivity|]. intros j Hj. lia.
  - destruct (Hcells 0 ltac:(lia)) as (r & Hr & Hrange). rewrite Z.add_0_r in Hr.
    destruct (proj1 (branches_of r) Hrange) as [_ [c Hc]].
    destruct (IH (x + 1)) as (rest & Hrest & Hlen & Hchars).
    { intros j Hj. destruct (Hcells (1 + j) ltac:(lia)) as (r' & Hr' & Hrange').
      exists r'. rewrite <- Z.add_assoc. auto. }
    exists (c :: rest). cbn [draw_row]. rewrite Hr, Hc, Hrest.
    split; [reflexivity|]. split; [simpl; lia|].
    intros [|j] Hj.
    + exists r, c. rewrite Z.add_0_r. auto.
    + destruct (Hchars j ltac:(lia)) as (r' & c' & Hr' & Hc' & Hl).
      exists r', c'. replace (x + Z.of_nat (S j)) with (x + 1 + Z.of_nat j) by lia. auto.
Qed.

Lemma draw_rows_defined n (bitmap : MandelbrotBitmap) : forall y,
  0 <= width bitmap ->
  (forall x j, 0 <= x < width bitmap -> 0 <= j < Z.of_nat n ->
     exists r, Stack.at_xy (map bitmap) x (y + j) = Some r /\ 0 <= r <= 1000) ->
  exists out, draw_rows n bitmap y = Some out /\
    length out = (n * (Z.to_nat (width bitmap) + 1))%nat /\
    forall j : nat, (j < n)%nat ->
      (forall x : nat, (x < Z.to_nat (width bitmap))%nat ->
         exists r c, Stack.at_xy (map bitmap) (Z.of_nat x) (y + Z.of_nat j) = Some r /\
                     draw_char r = Some c /\
                     out !! (j * (Z.to_nat (width bitmap) + 1) + x)%nat = Some c) /\
      out !! (j * (Z.to_nat (width bitmap) + 1) + Z.to_nat (width bitmap))%nat = Some newline.
Proof.
  intros y Hw. revert y. induction n as [|n IH]; intros y Hcells.
  - exists []. split; [reflexivity|]. split; [reflexivity|]. intros j Hj. lia.
  - destruct (draw_row_defined (Z.to_nat (width bitmap)) (map bitmap) y 0)
      as (row & Hrow & Hlen & Hchars).
    { intros j Hj. destruct (Hcells (0 + j) 0 ltac:(lia) ltac:(lia)) as (r & Hr & Hrange).
      exists r. rewrite Z.add_0_r in Hr. auto. }
    destruct (IH (y + 1)) as (rest & Hrest & Hlen' & Hchars').
    { intros x j Hx Hj. destruct (Hcells x (1 + j) Hx ltac:(lia)) as (r & Hr & Hrange).
      exists r. rewrite <- Z.add_assoc. auto. }
    exists (row ++ newline :: rest). cbn [draw_rows]. rewrite Hrow, Hrest.
    split; [reflexivity|]. split; [rewrite length_app; simpl; lia|].
    intros [|j] Hj.
    + split.
      * intros x Hx. destruct (Hchars x Hx) as (r & c & Hr & Hc & Hl).
        exists r, c. rewrite Z.add_0_r. split; [exact Hr|]. split; [exact Hc|].
        rewrite lookup_app_l by lia. exact Hl.
      * rewrite lookup_app_r by lia.
        replace (0 * (Z.to_nat (width bitmap) + 1) + Z.to_nat (width bitmap) - length row)%nat
          with 0%nat by lia. reflexivity.
    + destruct (Hchars' j ltac:(lia)) as [Hcs Hnl]. split.
      * intros x Hx. destruct (Hcs x Hx) as (r & c & Hr & Hc & Hl).
        exists r, c. replace (y + Z.of_nat (S j)) with (y + 1 + Z.of_nat j) by lia.
        split; [exact Hr|]. split; [exact Hc|].
        rewrite lookup_app_r by lia.
        replace (S j * (Z.to_nat (width bitmap) + 1) + x - length row)%nat
          with (S (j * (Z.to_nat (width bitmap) + 1) + x)) by lia.
        exact Hl.
      * rewrite lookup_app_r by lia.
        replace (S j * (Z.to_nat (width bitmap) + 1) + Z.to_nat (width bitmap) - length row)%nat
          with (S (j * (Z.to_nat (width bitmap) + 1) + Z.to_nat (width bitmap))) by lia.
        exact Hnl.
Qed.

Lemma drawFromResults_defined (bitmap : MandelbrotBitmap) :
  0 <= width bitmap -> 0 <= height bitmap ->
  (forall x y, 0 <= x < width bitmap -> 0 <= y < height bitmap ->
     exists r, Stack.at_xy (map bitmap) x y = Some r /\ 0 <= r <= 1000) ->
  exists out,
    drawFromResults bitmap = Some out /\
    length out = Z.to_nat (height bitmap * (width bitmap + 1)) /\
    (forall x y, 0 <= x < width bitmap -> 0 <= y < height bitmap ->
       exists r c, Stack.at_xy (map bitmap) x y = Some r /\ draw_char r = Some c /\
                   out !! Z.to_nat (y * (width bitmap + 1) + x) = Some c) /\
    (forall y, 0 <= y < height bitmap ->
       out !! Z.to_nat (y * (width bitmap + 1) + width bitmap) = Some newline).
Proof.
  intros Hw Hh Hcells. unfold drawFromResults.
  destruct (Z.leb_spec 0 (width bitmap)), (Z.leb_spec 0 (height bitmap)); try lia.
  cbn [andb].
  destruct (draw_rows_defined (Z.to_nat (height bitmap)) bitmap 0 Hw)
    as (out & Hout & Hlen & Hchars).
  { intros x j Hx Hj. apply Hcells; lia. }
  exists out. split; [exact Hout|]. split; [rewrite Hlen; nia|]. split.
  - intros x y Hx Hy.
    destruct (Hchars (Z.to_nat y) ltac:(lia)) as [Hcs _].
    destruct (Hcs (Z.to_nat x) ltac:(lia)) as (r & c & Hr & Hc & Hl).
    exists r, c. rewrite !Z2Nat.id, Z.add_0_l in Hr by lia.
    split; [exact Hr|]. split; [exact Hc|].
    replace (Z.to_nat (y * (width bitmap + 1) + x))
      with (Z.to_nat y * (Z.to_nat (width bitmap) + 1) + Z.to_nat x)%nat by nia.
    exact Hl.
  - intros y Hy. destruct (Hchars (Z.to_nat y) ltac:(lia)) as [_ Hnl].
    replace (Z.to_nat (y * (width bitmap + 1) + width bitmap))
      with (Z.to_nat y * (Z.to_nat (width bitmap) + 1) + Z.to_nat (width bitmap))%nat by nia.
    exact Hnl.
Qed.

(** X5: for a bitmap whose cells all hold results from 0 to 1000,
    [drawFromResults] prints [height] rows of [width] characters, each
    row followed by a newline; the character at column [x] of row [y] is
    the one the thresholds give the cell [map[x][y]]. *)
Theorem X5_drawFromResults_picture (bitmap : MandelbrotBitmap) :
  0 <= width bitmap -> 0 <= height bitmap ->
  (forall x y, 0 <= x < width bitmap -> 0 <= y < height bitmap ->
     exists r, Stack.at_xy (map bitmap) x y = Some r /\ 0 <= r <= 1000) ->
  exists out,
    drawFromResults bitmap = Some out /\
    length out = Z.to_nat (height bitmap * (width bitmap + 1)) /\
    (forall x y, 0 <= x < width bitmap -> 0 <= y < height bitmap ->
       exists r c, Stack.at_xy (map bitmap) x y = Some r /\ draw_char r = Some c /\
                   out !! Z.to_nat (y * (width bitmap + 1) + x) = Some c) /\
    (forall y, 0 <= y < height bitmap ->
       out !! Z.to_nat (y * (width bitmap + 1) + width bitmap) = Some newline).
Proof. apply drawFromResults_defined. Qed.

Lemma X5_drawFromResults_picture_witness :
  exists out,
    drawFromResults four_symbols = Some out /\
    length out = Z.to_nat (height four_symbols * (width four_symbols + 1)) /\
    (forall x y, 0 <= x < width four_symbols -> 0 <= y < height four_symbols ->
       exists r c, Stack.at_xy (map four_symbols) x y = Some r /\ draw_char r = Some c /\
                   out !! Z.to_nat (y * (width four_symbols + 1) + x) = Some c) /\
    (forall y, 0 <= y < height four_symbols ->
       out !! Z.to_nat (y * (width four_symbols + 1) + width four_symbols) = Some newline).
Proof.
  apply (X5_drawFromResults_picture four_symbols).
  - simpl. lia.
  - simpl. lia.
  - simpl. intros x y Hx Hy.
    assert (Hxy : (x = 0 \/ x = 1) /\ (y = 0 \/ y = 1)) by lia.
    destruct Hxy as [[-> | ->] [-> | ->]]; eexists; (split; [reflexivity|lia]).
Defined.

Lemma draw_row_undefined n (m : list (list Z)) y : forall x j,
  0 <= j < Z.of_nat n ->
  match Stack.at_xy m (x + j) y with Some r => draw_char r | None => None end = None ->
  draw_row n m x y = None.
Proof.
  induction n as [|n IH]; intros x j Hj Hbad; [lia|].
  cbn [draw_row].
  destruct (Stack.at_xy m x y) as [r|] eqn:Hr; [|reflexivity].
  destruct (draw_char r) as [c|] eqn:Hc; [|reflexivity].
  rewrite (IH (x + 1) (j - 1)); [reflexivity| |].
  - destruct (decide (j = 0)) as [->|]; [|lia].
    rewrite Z.add_0_r, Hr, Hc in Hbad. discriminate.
  - replace (x + 1 + (j - 1)) with (x + j) by lia. exact Hbad.
Qed.

Lemma draw_rows_undefined n (bitmap : MandelbrotBitmap) x : forall y j,
  0 <= x < width bitmap -> 0 <= j < Z.of_nat n ->
  match Stack.at_xy (map bitmap) x (y + j) with Some r => draw_char r | None => None end = None ->
  draw_rows n bitmap y = None.
Proof.
  induction n as [|n IH]; intros y j Hx Hj Hbad; [lia|].
  cbn [draw_rows].
  destruct (decide (j = 0)) as [->|Hne].
  - rewrite (draw_row_undefined _ _ _ 0 x); [reflexivity|lia|].
    rewrite Z.add_0_r in Hbad. exact Hbad.
  - destruct (draw_row _ _ _ _); [|reflexivity].
    rewrite (IH (y + 1) (j - 1)); [reflexivity|exact Hx|lia|].
    replace (y + 1 + (j - 1)) with (y + j) by lia. exact Hbad.
Qed.

(** X6: when a cell inside the bitmap holds a value above 1000, or the
    map has no such cell, [drawFromResults] has no defined output: it
    prints a character no branch assigned, or reads outside the vectors. *)
Theorem X6_drawFromResults_undefined (bitmap : MandelbrotBitmap) (x y : Z) :
  0 <= x < width bitmap -> 0 <= y < height bitmap ->
  (Stack.at_xy (map bitmap) x y = None \/
   exists r, Stack.at_xy (map bitmap) x y = Some r /\ 1000 < r) ->
  drawFromResults bitmap = None.
Proof.
  intros Hx Hy Hbad. unfold drawFromResults.
  destruct (_ && _); [|reflexivity].
  apply (draw_rows_undefined (Z.to_nat (height bitmap)) bitmap x 0 y Hx ltac:(lia)).
  rewrite Z.add_0_l.
  destruct Hbad as [->|(r & -> & Hr)]; [reflexivity|].
  apply (proj2 (branches_of r) Hr).
Qed.

Lemma X6_drawFromResults_undefined_witness : drawFromResults above_the_cap = None.
Proof.
  apply (X6_drawFromResults_undefined above_the_cap 1 1).
  - simpl. lia.
  - simpl. lia.
  - right. exists 1001. split; [reflexivity|lia].
Defined.

(** ** More on executions *)

Lemma fold_try_step_rtc cBatchSize (l : list nat) : forall s,
  rtc (step cBatchSize) s (fold_left (fun s i => try_step cBatchSize i s) l s).
Proof.
  induction l as [|i l IH]; intros s; simpl; [apply rtc_refl|].
  eapply rtc_trans; [|apply IH].
  unfold try_step. destruct (thread_step cBatchSize i s) as [s'|] eqn:E; [|apply rtc_refl].
  apply rtc_once. exists i. exact E.
Qed.

Lemma run_rounds_rtc cBatchSize rounds n : forall s,
  rtc (step cBatchSize) s (run_rounds cBatchSize rounds n s).
Proof.
  induction rounds as [|rounds IH]; intros s; simpl; [apply rtc_refl|].
  eapply rtc_trans; [apply fold_try_step_rtc|apply IH].
Qed.

(** What a step of the thread [i] is made of. *)
Lemma thread_step_form cBatchSize i s s' :
  thread_step cBatchSize i s = Some s' ->
  exists t o' w' ev,
    mThreads (this s) !! i = Some t /\
    loop_step cBatchSize (this s) (worker t) = Some (o', w', ev) /\
    mThreads o' = mThreads (this s) /\
    s' = {| this := set_mThreads
                      (<[i := {| joinable := joinable t; worker := w' |}]> (mThreads (this s))) o';
            processed := match ev with
                         | Some k => processed s ++ [(i, k)]
                         | None => processed s
                         end |}.
Proof.
  unfold thread_step. intros H.
  destruct (mThreads (this s) !! i) as [t|] eqn:Ht; [|discriminate].
  destruct (loop_step cBatchSize (this s) (worker t)) as [[[o' w'] ev]|] eqn:Hl;
    [|discriminate].
  injection H as <-.
  destruct (loop_step_frame _ _ _ _ _ _ Hl) as (Hfts & _).
  exists t, o', w', ev. split; [reflexivity|]. split; [exact Hl|]. split; [exact Hfts|].
  rewrite (set_worker_threads i w' o' t) by (rewrite Hfts; exact Ht).
  rewrite Hfts. reflexivity.
Qed.

(** A step keeps the size recorded in the bitmap, and changes the flag
    only to release it or to take it. *)
Lemma loop_step_shared cBatchSize o w o' w' ev :
  loop_step cBatchSize o w = Some (o', w', ev) ->
  width (mResults o') = width (mResults o) /\
  height (mResults o') = height (mResults o) /\
  (mIsSavingResults o' = false \/
   (pc w' <> PFetch /\ pc w' <> PDone) \/
   (pc w = PFetch /\ mIsSavingResults o' = mIsSavingResults o)).
Proof.
  unfold loop_step. intros H.
  destruct (pc w) eqn:Hpc;
    repeat match type of H with
      | (if ?c then _ else _) = _ => destruct c
      | match ?c with Some _ => _ | None => _ end = _ => destruct c
      end;
    try discriminate; injection H as <- <- <-;
    (split; [reflexivity|]; split; [reflexivity|]); cbn;
    first [ left; reflexivity
          | right; left; split; discriminate
          | right; right; split; reflexivity ].
Qed.

Lemma steps_bitmap_size cBatchSize s s' :
  rtc (step cBatchSize) s s' ->
  width (mResults (this s')) = width (mResults (this s)) /\
  height (mResults (this s')) = height (mResults (this s)).
Proof.
  induction 1 as [|s0 s1 s2 [i Hstep] _ [IHw IHh]]; [split; reflexivity|].
  destruct (thread_step_form _ _ _ _ Hstep) as (t & o' & w' & ev & _ & Hl & _ & ->).
  destruct (loop_step_shared _ _ _ _ _ _ Hl) as (Hw & Hh & _).
  cbn [this mResults set_mThreads] in IHw, IHh. rewrite IHw, IHh. auto.
Qed.

Lemma step_flag cBatchSize s s' :
  flag_inv s -> step cBatchSize s s' -> flag_inv s'.
Proof.
  intros Hflag [i Hstep].
  destruct (thread_step_form _ _ _ _ Hstep) as (t & o' & w' & ev & Ht & Hl & _ & ->).
  pose proof (lookup_lt_Some _ _ _ Ht) as Hi.
  destruct (loop_step_shared _ _ _ _ _ _ Hl) as (_ & _ & [Hfalse|[[Hp1 Hp2]|[Hpc Hsame]]]);
    unfold flag_inv; cbn [this mIsSavingResults mThreads set_mThreads]; intros Hset.
  - congruence.
  - exists i, {| joinable := joinable t; worker := w' |}.
    split; [apply list_lookup_insert_eq; exact Hi|]. auto.
  - rewrite Hsame in Hset. destruct (Hflag Hset) as (j & tj & Hj & Hj1 & Hj2).
    exists j, tj. split; [|auto].
    rewrite list_lookup_insert_ne; [exact Hj|]. intros ->.
    rewrite Ht in Hj. injection Hj as <-. contradiction.
Qed.

Lemma steps_flag cBatchSize s s' :
  flag_inv s -> rtc (step cBatchSize) s s' -> flag_inv s'.
Proof.
  intros Hflag Hsteps. induction Hsteps as [|s s1 s' Hstep _ IH]; [exact Hflag|].
  apply IH. apply (step_flag _ s s1 Hflag Hstep).
Qed.

Lemma done_count_all ts :
  (forall i t, ts !! i = Some t -> pc (worker t) = PDone) ->
  done_count ts = Z.of_nat (length ts).
Proof.
  induction ts as [|t ts IH]; intros Hall; [reflexivity|].
  cbn [done_count length]. rewrite IH by (intros i t' Ht'; apply (Hall (S i) t' Ht')).
  unfold returned. rewrite (Hall 0%nat t eq_refl). lia.
Qed.

Lemma div_batch cBatchSize k b :
  0 < cBatchSize -> k / cBatchSize = b <-> b * cBatchSize <= k < (b + 1) * cBatchSize.
Proof.
  intros Hb. pose proof (Z.div_mod k cBatchSize ltac:(lia)).
  pose proof (Z.mod_pos_bound k cBatchSize Hb). split.
  - intros <-. lia.
  - intros Hk. symmetry. apply (Z.div_unique k cBatchSize b (k - b * cBatchSize)); lia.
Qed.

Section MoreRuns.

Variables cBatchSize mWidth mHeight : Z.

Hypothesis width_pos : 0 < mWidth.
Hypothesis height_nonneg : 0 <= mHeight.
Hypothesis area_int : mWidth * mHeight <= INT_MAX.
Hypothesis batch_pos : 0 < cBatchSize.
Hypothesis batch_fits : cBatchSize <= cBufferSize.

Local Abbreviation batches := (batches cBatchSize mWidth mHeight).
Local Abbreviation inv := (inv cBatchSize mWidth mHeight).

Lemma reachable_inv iterator0 saving0 numThreads s :
  reachable cBatchSize iterator0 saving0 mWidth mHeight numThreads s ->
  batches + numThreads <= INT_MAX ->
  inv s /\ once_inv cBatchSize s /\
  0 <= numThreads /\ length (mThreads (this s)) = Z.to_nat numThreads /\
  (1 <= numThreads -> flag_inv s) /\
  width (mResults (this s)) = mWidth /\ height (mResults (this s)) = mHeight.
Proof.
  intros (o & Hstart & Hsteps) Hint.
  destruct (started_inv _ _ _ width_pos height_nonneg batch_pos _ _ _ _ Hstart Hint)
    as (Hn & Hts & Hinv0).
  assert (Honce0 : once_inv cBatchSize {| this := o; processed := [] |}).
  { split; [constructor|]. split; [intros k []|]. split; [intros i t b k _ _ []|].
    cbn [this]. rewrite Hts. intros i j ti tj b Hi _ Ho.
    apply lookup_replicate in Hi as [-> _]. destruct Ho as [_ Ho]. cbn in Ho. lia. }
  split; [apply (steps_inv _ _ _ width_pos height_nonneg area_int batch_pos batch_fits
                   _ _ Hinv0 Hsteps)|].
  split; [apply (steps_once _ _ _ width_pos height_nonneg area_int batch_pos batch_fits
                   _ _ Hinv0 Honce0 Hsteps)|].
  split; [exact Hn|].
  split; [rewrite (steps_length _ _ _ Hsteps); cbn [this]; rewrite Hts;
          apply length_replicate|].
  split.
  - intros Hone. refine (steps_flag _ _ _ _ Hsteps).
    intros _. exists 0%nat, spawned. cbn [this]. rewrite Hts.
    split; [apply lookup_replicate_2; lia|]. split; discriminate.
  - destruct (steps_bitmap_size _ _ _ Hsteps) as [-> ->]. cbn [this].
    unfold startThreads in Hstart. cbn in Hstart.
    destruct (numThreads <? 0); [discriminate|]. injection Hstart as <-. split; reflexivity.
Qed.

(** A worker that has not returned holds at most a batch in its buffer. *)
Lemma worker_inv_occupancy s w :
  worker_inv cBatchSize mWidth mHeight s w -> pc w <> PDone ->
  0 <= Stack.lastPos (threadStack w) <= cBatchSize.
Proof.
  unfold worker_inv. cbv zeta. destruct (pc w); intros H Hrun; try lia. congruence.
Qed.

Lemma step_batch_workers s s' :
  inv s -> once_inv cBatchSize s -> batch_workers cBatchSize s ->
  step cBatchSize s s' -> batch_workers cBatchSize s'.
Proof.
  intros Hinv (_ & Hclaimed & _ & Huniq) [Hsame Hown] [i Hstep].
  destruct (thread_step_form _ _ _ _ Hstep) as (t & o' & w' & ev & Ht & Hl & _ & ->).
  assert (Hlook : forall j tj,
            <[i := {| joinable := joinable t; worker := w' |}]> (mThreads (this s)) !! j
            = Some tj ->
            (j = i /\ worker tj = w') \/ (j <> i /\ mThreads (this s) !! j = Some tj)).
  { intros j tj Hj. apply list_lookup_insert_Some in Hj as [(-> & <- & _)|(Hne & Hj)].
    - left. split; reflexivity.
    - right. split; [congruence|exact Hj]. }
  assert (Hidx : forall j k, In (j, k) (processed s) -> In k (indices (processed s))).
  { intros j k Hin. unfold indices. apply (in_map snd _ _ Hin). }
  unfold batch_workers. cbn [this processed mThreads set_mThreads].
  destruct (loop_step_summary _ _ _ width_pos height_nonneg batch_pos s i t o' w' ev Hinv Ht Hl)
    as [(-> & Hc & Ho)|[(-> & Hc & Ho)|(-> & Hc & Hob & Hlp & Hlp' & Ho)]].
  - split; [exact Hsame|].
    intros j tj b j0 k Hj Hoj Hin Hk.
    destruct (Hlook j tj Hj) as [[-> Ew]|[Hne Hj']].
    + rewrite Ew in Hoj. apply (Hown i t b j0 k Ht (proj1 (Ho b Hoj)) Hin Hk).
    + apply (Hown j tj b j0 k Hj' Hoj Hin Hk).
  - split; [exact Hsame|].
    intros j tj b j0 k Hj Hoj Hin Hk.
    destruct (Hlook j tj Hj) as [[-> Ew]|[Hne Hj']].
    + rewrite Ew in Hoj. destruct (Ho b Hoj) as [-> _].
      pose proof (Hclaimed k (Hidx _ _ Hin)). lia.
    + apply (Hown j tj b j0 k Hj' Hoj Hin Hk).
  - destruct (owns_holds _ _ _ s (worker t) _
                (inv_workers _ _ _ _ Hinv i t Ht) Hob) as (Hb0 & _).
    set (b0 := currentBatch (worker t)) in *.
    set (lp := Stack.lastPos (threadStack (worker t))) in *.
    assert (Hnew : forall j k, In (j, k) (processed s ++ [(i, b0 * cBatchSize + lp)]) ->
              In (j, k) (processed s) \/ (j = i /\ k = b0 * cBatchSize + lp)).
    { intros j k Hin. apply in_app_or in Hin as [Hin|[[= <- <-]|[]]]; auto. }
    assert (Hmine : forall j k, In (j, k) (processed s) ->
              k / cBatchSize = (b0 * cBatchSize + lp) / cBatchSize -> j = i).
    { intros j k Hin Hk. apply (Hown i t b0 j k Ht Hob Hin).
      apply (div_batch _ _ _ batch_pos). rewrite Hk.
      apply (div_batch _ _ _ batch_pos). lia. }
    split.
    + intros j1 j2 k1 k2 H1 H2 Hk.
      destruct (Hnew _ _ H1) as [H1'|[-> ->]], (Hnew _ _ H2) as [H2'|[-> ->]].
      * apply (Hsame j1 j2 k1 k2 H1' H2' Hk).
      * apply (Hmine j1 k1 H1' Hk).
      * symmetry. apply (Hmine j2 k2 H2'). symmetry. exact Hk.
      * reflexivity.
    + intros j tj b j0 k Hj Hoj Hin Hk.
      destruct (Hlook j tj Hj) as [[-> Ew]|[Hne Hj']].
      * rewrite Ew in Hoj. rewrite (Ho b Hoj) in Hk.
        destruct (Hnew _ _ Hin) as [Hin'|[-> _]]; [|reflexivity].
        apply (Hown i t b0 j0 k Ht Hob Hin' Hk).
      * destruct (Hnew _ _ Hin) as [Hin'|[-> ->]];
          [apply (Hown j tj b j0 k Hj' Hoj Hin' Hk)|].
        assert (b = b0) as -> by nia.
        apply (Huniq i j t tj b0 Ht Hj' Hob Hoj).
Qed.

Lemma steps_batch_workers s s' :
  inv s -> once_inv cBatchSize s -> batch_workers cBatchSize s ->
  rtc (step cBatchSize) s s' -> batch_workers cBatchSize s'.
Proof.
  intros Hinv Honce Hbw Hsteps.
  induction Hsteps as [|s s1 s' Hstep _ IH]; [exact Hbw|].
  apply IH.
  - apply (step_inv _ _ _ width_pos height_nonneg area_int batch_pos batch_fits s s1 Hinv Hstep).
  - apply (step_once _ _ _ width_pos height_nonneg batch_pos s s1 Hinv Honce Hstep).
  - apply (step_batch_workers s s1 Hinv Honce Hbw Hstep).
Qed.

Lemma step_counter s s' :
  inv s -> counter_inv cBatchSize mWidth mHeight s -> step cBatchSize s s' ->
  counter_inv cBatchSize mWidth mHeight s'.
Proof.
  intros Hinv Hcount [i Hstep].
  destruct (thread_step_form _ _ _ _ Hstep) as (t & o' & w' & ev & Ht & Hl & _ & ->).
  unfold counter_inv in *. cbn [this mThreads set_mThreads mMandelbrotIterator].
  rewrite (done_count_insert _ _ _ _ Ht). cbn [worker].
  pose proof (inv_counter _ _ _ _ Hinv) as Hcnt.
  pose proof (done_count_bounds (mThreads (this s))) as Hdc.
  pose proof (inv_threads_int _ _ _ _ Hinv) as Hint.
  pose proof (batches_nonneg _ _ _ width_pos height_nonneg batch_pos) as Hbn.
  unfold loop_step in Hl.
  rewrite (inv_width _ _ _ _ Hinv), (inv_height _ _ _ _ Hinv) in Hl.
  unfold returned.
  destruct (pc (worker t)) eqn:Hpc;
    try (repeat match type of Hl with
           | (if ?c then _ else _) = _ => destruct c
           | match ?c with Some _ => _ | None => _ end = _ => destruct c
           end;
         try discriminate; injection Hl as <- <- <-;
         cbn [pc set_pc mMandelbrotIterator set_map set_mIsSavingResults]; lia).
  rewrite (batches_quot _ _ _ width_pos height_nonneg batch_pos) in Hl.
  rewrite (to_int_small (mMandelbrotIterator (this s))) in Hl by (unfold INT_MAX in *; lia).
  rewrite (to_u64_small (mMandelbrotIterator (this s) + 1)) in Hl
    by (unfold INT_MAX in *; lia).
  destruct (Z.leb_spec batches (mMandelbrotIterator (this s)));
    injection Hl as <- <- <-; cbn [pc mMandelbrotIterator set_mMandelbrotIterator]; lia.
Qed.

Lemma steps_counter s s' :
  inv s -> counter_inv cBatchSize mWidth mHeight s -> rtc (step cBatchSize) s s' ->
  counter_inv cBatchSize mWidth mHeight s'.
Proof.
  intros Hinv Hcount Hsteps.
  induction Hsteps as [|s s1 s' Hstep _ IH]; [exact Hcount|].
  apply IH.
  - apply (step_inv _ _ _ width_pos height_nonneg area_int batch_pos batch_fits s s1 Hinv Hstep).
  - apply (step_counter s s1 Hinv Hcount Hstep).
Qed.

Lemma reachable_more iterator0 saving0 numThreads s :
  reachable cBatchSize iterator0 saving0 mWidth mHeight numThreads s ->
  batches + numThreads <= INT_MAX ->
  batch_workers cBatchSize s /\ counter_inv cBatchSize mWidth mHeight s.
Proof.
  intros (o & Hstart & Hsteps) Hint.
  destruct (started_inv _ _ _ width_pos height_nonneg batch_pos _ _ _ _ Hstart Hint)
    as (Hn & Hts & Hinv0).
  assert (Honce0 : once_inv cBatchSize {| this := o; processed := [] |}).
  { split; [constructor|]. split; [intros k []|]. split; [intros i t b k _ _ []|].
    cbn [this]. rewrite Hts. intros i j ti tj b Hi _ Ho.
    apply lookup_replicate in Hi as [-> _]. destruct Ho as [_ Ho]. cbn in Ho. lia. }
  split.
  - apply (steps_batch_workers _ s Hinv0 Honce0); [|exact Hsteps].
    split; [intros i j k k' []|intros i t b j k _ _ []].
  - apply (steps_counter _ s Hinv0); [|exact Hsteps].
    unfold counter_inv. cbn [this]. rewrite Hts, done_count_spawned.
    unfold startThreads in Hstart. cbn in Hstart.
    destruct (numThreads <? 0); [discriminate|]. injection Hstart as <-.
    cbn [mMandelbrotIterator set_mThreads set_mIsStarted set_mMandelbrotIterator].
    pose proof (batches_nonneg _ _ _ width_pos height_nonneg batch_pos). lia.
Qed.

End MoreRuns.

(** The threads of a state reached after [startThreads]: as many as were
    started, all joinable, and the object is marked as started. *)
Lemma reachable_threads cBatchSize iterator0 saving0 width height numThreads s :
  reachable cBatchSize iterator0 saving0 width height numThreads s ->
  0 <= numThreads /\ length (mThreads (this s)) = Z.to_nat numThreads /\
  mIsStarted (this s) = true /\
  forall i t, mThreads (this s) !! i = Some t -> joinable t = true.
Proof.
  intros (o & Hstart & Hsteps).
  unfold startThreads in Hstart. cbn in Hstart.
  destruct (Z.ltb_spec numThreads 0); [discriminate|]. injection Hstart as <-.
  split; [assumption|].
  remember {| this := _; processed := [] |} as s0 eqn:Es0.
  assert (H0 : length (mThreads (this s0)) = Z.to_nat numThreads /\
               mIsStarted (this s0) = true /\
               forall i t, mThreads (this s0) !! i = Some t -> joinable t = true).
  { subst s0. cbn. split; [apply length_replicate|]. split; [reflexivity|].
    intros i t Ht. apply lookup_replicate in Ht as [-> _]. reflexivity. }
  clear Es0. induction Hsteps as [|s0 s1 s2 [i Hstep] _ IH]; [exact H0|].
  apply IH. destruct H0 as (Hlen & Hst & Hjoin).
  destruct (thread_step_form _ _ _ _ Hstep) as (t & o' & w' & ev & Ht & Hl & _ & ->).
  destruct (loop_step_frame _ _ _ _ _ _ Hl) as (_ & _ & _ & Hstarted).
  cbn [this mThreads set_mThreads mIsStarted].
  split; [rewrite length_insert; exact Hlen|]. split; [congruence|].
  intros j tj Hj. apply list_lookup_insert_Some in Hj as [(_ & <- & _)|(_ & Hj)].
  - apply (Hjoin i t Ht).
  - apply (Hjoin j tj Hj).
Qed.

Lemma complete_run_reachable cBatchSize iterator0 saving0 width height numThreads
    final history :
  complete_run cBatchSize iterator0 saving0 width height numThreads final history ->
  exists s joined,
    reachable cBatchSize iterator0 saving0 width height numThreads s /\
    waitToFinish (this s) = Some (final, joined) /\ history = processed s.
Proof.
  intros (o & s & joined & Hstart & Hsteps & Hwait & Hhist).
  exists s, joined. split; [exists o; auto|auto].
Qed.

(** [join_all] on joinable threads: all of them are joined, in order. *)
Lemma join_all_joinable ts : forall k ts' joined,
  join_all k ts = Some (ts', joined) ->
  (forall i t, ts !! i = Some t -> joinable t = true) ->
  joined = seq k (length ts) /\
  ts' = (fun t => {| joinable := false; worker := worker t |}) <$> ts /\
  forall i t, ts !! i = Some t -> pc (worker t) = PDone.
Proof.
  induction ts as [|t0 ts IH]; intros k ts' joined H Hjoin.
  - injection H as <- <-. split; [reflexivity|]. split; [reflexivity|]. intros i t [=].
  - cbn [join_all] in H. rewrite (Hjoin 0%nat t0 eq_refl) in H.
    unfold join in H. destruct (pc (worker t0)) eqn:Hpc; try discriminate.
    destruct (join_all (S k) ts) as [[ts1 js]|] eqn:Hrest; [|discriminate].
    injection H as <- <-.
    destruct (IH (S k) ts1 js Hrest) as (-> & -> & Hdone).
    { intros i t Ht. apply (Hjoin (S i) t Ht). }
    split; [reflexivity|]. split; [reflexivity|].
    intros [|i] t Ht; [injection Ht as <-; exact Hpc|apply (Hdone i t Ht)].
Qed.

(** What [waitToFinish] does to an object that is started and whose
    threads are joinable. *)
Lemma waitToFinish_started o final joined :
  mIsStarted o = true ->
  (forall i t, mThreads o !! i = Some t -> joinable t = true) ->
  waitToFinish o = Some (final, joined) ->
  joined = seq 0 (length (mThreads o)) /\
  final = set_mThreads ((fun t => {| joinable := false; worker := worker t |}) <$> mThreads o)
            (set_mIsStarted false o) /\
  forall i t, mThreads o !! i = Some t -> pc (worker t) = PDone.
Proof.
  intros Hst Hjoin H. unfold waitToFinish in H. rewrite Hst in H. cbn in H.
  destruct (join_all 0 (mThreads o)) as [[ts js]|] eqn:Hj; [|discriminate].
  injection H as <- <-.
  destruct (join_all_joinable _ _ _ _ Hj Hjoin) as (-> & -> & Hdone). auto.
Qed.

Lemma pair_midway_reachable : reachable 2 5 true 3 2 2 pair_midway.
Proof.
  exists (this pair_started). split; [reflexivity|].
  apply (run_rounds_rtc 2 8 2 pair_started).
Qed.

Lemma pair_all_done_reachable : reachable 2 5 true 3 2 2 pair_all_done.
Proof.
  exists (this pair_started). split; [reflexivity|].
  apply (run_rounds_rtc 2 40 2 pair_started).
Qed.

Lemma pair_run_complete :
  complete_run 2 5 true 3 2 2 pair_joined (processed pair_all_done).
Proof.
  exists (this pair_started), pair_all_done, [0; 1]%nat.
  split; [reflexivity|]. split; [|split; [vm_compute; reflexivity|reflexivity]].
  apply (run_rounds_rtc 2 40 2 pair_started).
Qed.

(** ** The workers never leave defined behaviour *)

(** X7: for a bitmap of positive width whose area fits an [int], a batch
    size from 1 to [cBufferSize] and a thread count that leaves the counter
    within an [int], no state the workers reach after [startThreads] has a
    worker whose next step is undefined (no [push] beyond the buffer, no
    write outside the vectors, no division by zero); a worker that has
    not returned holds at most a batch in its buffer, and every index
    computed so far is an index of the bitmap. *)
Theorem X7_workers_stay_defined cBatchSize mWidth mHeight iterator0 saving0 numThreads s :
  0 < mWidth -> 0 <= mHeight -> mWidth * mHeight <= INT_MAX ->
  0 < cBatchSize <= cBufferSize ->
  batches cBatchSize mWidth mHeight + numThreads <= INT_MAX ->
  reachable cBatchSize iterator0 saving0 mWidth mHeight numThreads s ->
  ~ undefined cBatchSize s /\
  (forall i t, mThreads (this s) !! i = Some t -> pc (worker t) <> PDone ->
     is_Some (thread_step cBatchSize i s) /\
     0 <= Stack.lastPos (threadStack (worker t)) <= cBatchSize) /\
  (forall i k, In (i, k) (processed s) ->
     (i < Z.to_nat numThreads)%nat /\ 0 <= k < mWidth * mHeight).
Proof.
  intros Hw Hh Ha [Hb Hbuf] Hint Hreach.
  destruct (reachable_inv _ _ _ Hw Hh Ha Hb Hbuf _ _ _ _ Hreach Hint)
    as (Hinv & _ & _ & Hlen & _).
  split; [apply (inv_defined _ _ _ Hw Hb Hbuf s Hinv)|]. split.
  - intros i t Ht Hrun. split.
    + apply (inv_can_step _ _ _ Hw Hb Hbuf s i t Hinv Ht Hrun).
    + eapply worker_inv_occupancy; [exact Hb|exact (inv_workers _ _ _ _ Hinv i t Ht)|exact Hrun].
  - intros i k Hin. split.
    + destruct Hreach as (o & Hstart & Hsteps).
      destruct (started_inv _ _ _ Hw Hh Hb _ _ _ _ Hstart Hint) as (_ & _ & Hinv0).
      clear Hinv. revert i k Hin.
      remember {| this := o; processed := [] |} as s0 eqn:Es0.
      assert (H0 : forall i k, In (i, k) (processed s0) ->
                     (i < length (mThreads (this s0)))%nat) by (subst s0; intros i k []).
      rewrite <- Hlen. clear Es0 Hlen Hinv0 Hstart.
      induction Hsteps as [|s0 s1 s2 [j Hstep] Hrest IH]; [exact H0|].
      apply IH. intros i k Hin.
      destruct (thread_step_form _ _ _ _ Hstep) as (t & o' & w' & ev & Ht & _ & _ & ->).
      cbn [this processed mThreads set_mThreads] in *. rewrite length_insert.
      destruct ev as [k0|]; [|apply (H0 i k Hin)].
      apply in_app_or in Hin as [Hin|[[= <- <-]|[]]]; [apply (H0 i k Hin)|].
      apply (lookup_lt_Some _ _ _ Ht).
    + pose proof (inv_history _ _ _ _ Hinv k (in_map snd _ _ Hin)) as Hk.
      pose proof (batches_area _ mWidth mHeight Hb). cbn [snd] in Hk. lia.
Qed.

Lemma X7_workers_stay_defined_witness :
  ~ undefined 2 pair_midway /\
  (forall i t, mThreads (this pair_midway) !! i = Some t -> pc (worker t) <> PDone ->
     is_Some (thread_step 2 i pair_midway) /\
     0 <= Stack.lastPos (threadStack (worker t)) <= 2) /\
  (forall i k, In (i, k) (processed pair_midway) ->
     (i < Z.to_nat 2)%nat /\ 0 <= k < 3 * 2).
Proof.
  apply (X7_workers_stay_defined 2 3 2 5 true 2 pair_midway).
  - lia.
  - lia.
  - vm_compute. discriminate.
  - split; [lia|vm_compute; discriminate].
  - vm_compute. discriminate.
  - exact pair_midway_reachable.
Defined.

(** ** The workers can always finish *)

(** X8: under the same conditions, from every state the workers reach
    there are further steps after which every worker has returned, and
    [waitToFinish] then returns: whatever the flag and the counter hold,
    no worker is left spinning with no way out. *)
Theorem X8_workers_can_finish cBatchSize mWidth mHeight iterator0 saving0 numThreads s :
  0 < mWidth -> 0 <= mHeight -> mWidth * mHeight <= INT_MAX ->
  0 < cBatchSize <= cBufferSize ->
  batches cBatchSize mWidth mHeight + numThreads <= INT_MAX ->
  reachable cBatchSize iterator0 saving0 mWidth mHeight numThreads s ->
  exists s' final,
    rtc (step cBatchSize) s s' /\ all_returned s' /\
    waitToFinish (this s') = Some (final, seq 0 (Z.to_nat numThreads)) /\
    complete_run cBatchSize iterator0 saving0 mWidth mHeight numThreads final (processed s').
Proof.
  intros Hw Hh Ha [Hb Hbuf] Hint Hreach.
  destruct (reachable_inv _ _ _ Hw Hh Ha Hb Hbuf _ _ _ _ Hreach Hint)
    as (Hinv & _ & _ & Hlen & _).
  destruct (threads_return _ _ _ Hw Hh Ha Hb Hbuf _ s Hinv (le_n _))
    as (s' & Hsteps & Hdone).
  assert (Hall : all_returned s').
  { intros i t Ht. apply (Hdone i t); [|exact Ht].
    rewrite <- (steps_length _ _ _ Hsteps). eapply lookup_lt_Some. exact Ht. }
  destruct (waitToFinish_defined s' Hall) as [[final joined] Hwait].
  assert (Hreach' : reachable cBatchSize iterator0 saving0 mWidth mHeight numThreads s').
  { destruct Hreach as (o & Hstart & Hsteps0). exists o. split; [exact Hstart|].
    eapply rtc_trans; [exact Hsteps0|exact Hsteps]. }
  destruct (reachable_threads _ _ _ _ _ _ _ Hreach') as (_ & Hlen' & Hst & Hjoin).
  destruct (waitToFinish_started _ _ _ Hst Hjoin Hwait) as (Hjoined & _).
  rewrite Hlen' in Hjoined. subst joined.
  exists s', final. split; [exact Hsteps|]. split; [exact Hall|]. split; [exact Hwait|].
  destruct Hreach' as (o & Hstart & Hsteps').
  exists o, s', (seq 0 (Z.to_nat numThreads)). auto.
Qed.

Lemma X8_workers_can_finish_witness :
  exists s' final,
    rtc (step 2) pair_midway s' /\ all_returned s' /\
    waitToFinish (this s') = Some (final, seq 0 (Z.to_nat 2)) /\
    complete_run 2 5 true 3 2 2 final (processed s').
Proof.
  apply (X8_workers_can_finish 2 3 2 5 true 2 pair_midway).
  - lia.
  - lia.
  - vm_compute. discriminate.
  - split; [lia|vm_compute; discriminate].
  - vm_compute. discriminate.
  - exact pair_midway_reachable.
Defined.

(** ** One worker for each batch *)



(** ** The flag after a run *)

(** X10: after a complete run with at least one thread the flag
    [mIsSavingResults] is false, whatever it held when the object was
    constructed and whatever the size of the bitmap and of the batches:
    the worker that leaves the critical section last stores [false], and
    every worker passes through the critical section before it returns. *)
Theorem X10_flag_released cBatchSize mWidth mHeight iterator0 saving0 numThreads
    final history :
  1 <= numThreads ->
  complete_run cBatchSize iterator0 saving0 mWidth mHeight numThreads final history ->
  mIsSavingResults final = false.
Proof.
  intros Hone Hrun.
  destruct (complete_run_reachable _ _ _ _ _ _ _ _ Hrun) as (s & joined & Hreach & Hwait & _).
  destruct (reachable_threads _ _ _ _ _ _ _ Hreach) as (_ & _ & Hst & Hjoin).
  destruct (waitToFinish_started _ _ _ Hst Hjoin Hwait) as (_ & -> & Hdone).
  cbn [mIsSavingResults set_mThreads set_mIsStarted].
  assert (Hflag : flag_inv s).
  { destruct Hreach as (o & Hstart & Hsteps). refine (steps_flag _ _ _ _ Hsteps).
    intros _. exists 0%nat, spawned. cbn [this].
    unfold startThreads in Hstart. cbn in Hstart.
    destruct (numThreads <? 0); [discriminate|]. injection Hstart as <-.
    cbn [mThreads set_mThreads app].
    split; [apply lookup_replicate_2; lia|]. split; discriminate. }
  destruct (mIsSavingResults (this s)) eqn:E; [|reflexivity].
  destruct (Hflag E) as (i & t & Ht & _ & Hrun'). destruct (Hrun' (Hdone i t Ht)).
Qed.

Lemma X10_flag_released_witness : mIsSavingResults pair_joined = false.
Proof.
  apply (X10_flag_released 2 3 2 5 true 2 pair_joined (processed pair_all_done)).
  - lia.
  - exact pair_run_complete.
Defined.

(** ** The object after [waitToFinish] *)

(** X11: when [waitToFinish] returns in a state the workers reached after
    [startThreads(numThreads)], it has joined every thread, in the order of
    the vector; every worker had returned; the object is no longer marked
    as started and none of its threads is joinable, while the bitmap, the
    counter and the flag are as the workers left them.  A later
    [startThreads(m)] then succeeds: it appends [m] new threads to the
    [numThreads] finished ones and resets the counter to 0. *)
Theorem X11_waitToFinish_then_restart cBatchSize mWidth mHeight iterator0 saving0
    numThreads s final joined m :
  reachable cBatchSize iterator0 saving0 mWidth mHeight numThreads s ->
  waitToFinish (this s) = Some (final, joined) ->
  0 <= m ->
  joined = seq 0 (Z.to_nat numThreads) /\
  all_returned s /\
  mIsStarted final = false /\
  mThreads final = (fun t => {| joinable := false; worker := worker t |}) <$> mThreads (this s) /\
  getMap final = getMap (this s) /\
  mMandelbrotIterator final = mMandelbrotIterator (this s) /\
  mIsSavingResults final = mIsSavingResults (this s) /\
  exists o',
    startThreads m final = Some (true, o') /\
    mThreads o' = mThreads final ++ replicate (Z.to_nat m) spawned /\
    length (mThreads o') = Z.to_nat (numThreads + m) /\
    mMandelbrotIterator o' = 0 /\ getMap o' = getMap (this s).
Proof.
  intros Hreach Hwait Hm.
  destruct (reachable_threads _ _ _ _ _ _ _ Hreach) as (Hn & Hlen & Hst & Hjoin).
  destruct (waitToFinish_started _ _ _ Hst Hjoin Hwait) as (-> & -> & Hdone).
  rewrite Hlen. split; [reflexivity|]. split; [exact Hdone|].
  split; [reflexivity|]. split; [reflexivity|]. split; [reflexivity|].
  split; [reflexivity|]. split; [reflexivity|].
  eexists. split; [apply startThreads_fresh; [reflexivity|exact Hm]|].
  cbn [mThreads set_mThreads set_mIsStarted set_mMandelbrotIterator mMandelbrotIterator
       getMap mResults].
  split; [reflexivity|]. split; [|split; reflexivity].
  rewrite length_app, length_fmap, length_replicate, Hlen. lia.
Qed.

Lemma X11_waitToFinish_then_restart_witness :
  [0; 1]%nat = seq 0 (Z.to_nat 2) /\
  all_returned pair_all_done /\
  mIsStarted pair_joined = false /\
  mThreads pair_joined
  = (fun t => {| joinable := false; worker := worker t |}) <$> mThreads (this pair_all_done) /\
  getMap pair_joined = getMap (this pair_all_done) /\
  mMandelbrotIterator pair_joined = mMandelbrotIterator (this pair_all_done) /\
  mIsSavingResults pair_joined = mIsSavingResults (this pair_all_done) /\
  exists o',
    startThreads 1 pair_joined = Some (true, o') /\
    mThreads o' = mThreads pair_joined ++ replicate (Z.to_nat 1) spawned /\
    length (mThreads o') = Z.to_nat (2 + 1) /\
    mMandelbrotIterator o' = 0 /\ getMap o' = getMap (this pair_all_done).
Proof.
  apply (X11_waitToFinish_then_restart 2 3 2 5 true 2 pair_all_done pair_joined [0; 1]%nat 1).
  - exact pair_all_done_reachable.
  - vm_compute. reflexivity.
  - lia.
Defined.

(** ** The counter after a run *)

(** X12: under the conditions of X7 the counter counts the calls of
    [fetch_add]: in every state the workers reach, the number of workers
    that have returned is the number of calls that found no batch left,
    [max 0 (counter - batches)], and the counter is at most the number of
    batches plus the number of threads; when there is at least one thread
    and [waitToFinish] returns in that state, the counter holds exactly
    that sum. *)
Theorem X12_counter_counts_fetches cBatchSize mWidth mHeight iterator0 saving0 numThreads s :
  0 < mWidth -> 0 <= mHeight -> mWidth * mHeight <= INT_MAX ->
  0 < cBatchSize <= cBufferSize ->
  batches cBatchSize mWidth mHeight + numThreads <= INT_MAX ->
  1 <= numThreads ->
  reachable cBatchSize iterator0 saving0 mWidth mHeight numThreads s ->
  done_count (mThreads (this s))
  = Z.max 0 (mMandelbrotIterator (this s) - batches cBatchSize mWidth mHeight) /\
  0 <= mMandelbrotIterator (this s) <= batches cBatchSize mWidth mHeight + numThreads /\
  match waitToFinish (this s) with
  | Some (final, _) =>
      mMandelbrotIterator final = batches cBatchSize mWidth mHeight + numThreads
  | None => True
  end.
Proof.
  intros Hw Hh Ha [Hb Hbuf] Hint Hone Hreach.
  destruct (reachable_more _ _ _ Hw Hh Ha Hb Hbuf _ _ _ _ Hreach Hint) as (_ & Hcount).
  destruct (reachable_inv _ _ _ Hw Hh Ha Hb Hbuf _ _ _ _ Hreach Hint)
    as (Hinv & _ & Hn & Hlen & _).
  split; [exact Hcount|]. split.
  - pose proof (inv_counter _ _ _ _ Hinv) as Hc.
    pose proof (done_count_bounds (mThreads (this s))) as Hd.
    rewrite Hlen in Hd. lia.
  - destruct (waitToFinish (this s)) as [[final joined]|] eqn:Hwait; [|exact I].
    destruct (reachable_threads _ _ _ _ _ _ _ Hreach) as (_ & _ & Hst & Hjoin).
    destruct (waitToFinish_started _ _ _ Hst Hjoin Hwait) as (_ & -> & Hdone).
    cbn [mMandelbrotIterator set_mThreads set_mIsStarted].
    unfold counter_inv in Hcount.
    rewrite (done_count_all _ Hdone), Hlen in Hcount. lia.
Qed.

Lemma X12_counter_counts_fetches_witness :
  done_count (mThreads (this pair_all_done))
  = Z.max 0 (mMandelbrotIterator (this pair_all_done) - batches 2 3 2) /\
  0 <= mMandelbrotIterator (this pair_all_done) <= batches 2 3 2 + 2 /\
  match waitToFinish (this pair_all_done) with
  | Some (final, _) => mMandelbrotIterator final = batches 2 3 2 + 2
  | None => True
  end.
Proof.
  apply (X12_counter_counts_fetches 2 3 2 5 true 2 pair_all_done).
  - lia.
  - lia.
  - vm_compute. discriminate.
  - split; [lia|vm_compute; discriminate].
  - vm_compute. discriminate.
  - lia.
  - exact pair_all_done_reachable.
Defined.

(** ** The picture [main] prints *)

(** The picture of a bitmap whose cell [(x, y)] holds [f x y]. *)
Lemma drawFromResults_cells (bitmap : MandelbrotBitmap) (f : Z -> Z -> Z) :
  0 <= width bitmap -> 0 <= height bitmap ->
  (forall x y, 0 <= x < width bitmap -> 0 <= y < height bitmap ->
     Stack.at_xy (map bitmap) x y = Some (f x y) /\ 0 <= f x y <= 1000) ->
  exists out,
    drawFromResults bitmap = Some out /\
    length out = Z.to_nat (height bitmap * (width bitmap + 1)) /\
    (forall x y, 0 <= x < width bitmap -> 0 <= y < height bitmap ->
       out !! Z.to_nat (y * (width bitmap + 1) + x) = draw_char (f x y)) /\
    (forall y, 0 <= y < height bitmap ->
       out !! Z.to_nat (y * (width bitmap + 1) + width bitmap) = Some newline).
Proof.
  intros Hw Hh Hcells.
  destruct (drawFromResults_defined bitmap Hw Hh) as (out & Hout & Hlen & Hchars & Hnl).
  { intros x y Hx Hy. exists (f x y). apply (Hcells x y Hx Hy). }
  exists out. split; [exact Hout|]. split; [exact Hlen|]. split; [|exact Hnl].
  intros x y Hx Hy. destruct (Hchars x y Hx Hy) as (r & c & Hr & Hc & Hl).
  rewrite (proj1 (Hcells x y Hx Hy)) in Hr. injection Hr as <-. congruence.
Qed.

Lemma exact_bitmap_cell mWidth mHeight x y :
  0 <= x < mWidth -> 0 <= y < mHeight ->
  Stack.at_xy (map (exact_bitmap mWidth mHeight)) x y = Some (value_at mWidth mHeight x y).
Proof.
  intros Hx Hy. unfold Stack.at_xy, exact_bitmap. cbn [map].
  destruct (Z.leb_spec 0 x), (Z.leb_spec 0 y); try lia. cbn [andb].
  rewrite list_lookup_fmap, lookup_seq_lt by lia. cbn [fmap option_fmap option_map].
  rewrite list_lookup_fmap, lookup_seq_lt by lia. cbn [fmap option_fmap option_map plus].
  rewrite !Z2Nat.id by lia. reflexivity.
Qed.

Lemma value_after_run_range cBatchSize mWidth mHeight x y :
  0 <= value_after_run cBatchSize mWidth mHeight x y <= 1000.
Proof.
  unfold value_after_run. destruct (_ <? _); [apply render_range|lia].
Qed.

(** The bitmap a complete run leaves. *)
Lemma complete_run_bitmap cBatchSize mWidth mHeight iterator0 saving0 numThreads
    final history :
  0 < mWidth -> 0 <= mHeight -> mWidth * mHeight <= INT_MAX ->
  0 < cBatchSize <= cBufferSize ->
  batches cBatchSize mWidth mHeight + numThreads <= INT_MAX ->
  1 <= numThreads ->
  complete_run cBatchSize iterator0 saving0 mWidth mHeight numThreads final history ->
  width (getMap final) = mWidth /\ height (getMap final) = mHeight /\
  forall x y, 0 <= x < mWidth -> 0 <= y < mHeight ->
    Stack.at_xy (map (getMap final)) x y
    = Some (value_after_run cBatchSize mWidth mHeight x y).
Proof.
  intros Hw Hh Ha [Hb Hbuf] Hint Hone Hrun.
  destruct (complete_run_result _ _ _ Hw Hh Ha Hb Hbuf _ _ _ _ _ Hrun Hint)
    as (_ & _ & Hcells).
  destruct (Hcells Hone) as [Hcells' _].
  destruct (complete_run_reachable _ _ _ _ _ _ _ _ Hrun) as (s & joined & Hreach & Hwait & _).
  destruct (reachable_inv _ _ _ Hw Hh Ha Hb Hbuf _ _ _ _ Hreach Hint)
    as (_ & _ & _ & _ & _ & Hwd & Hht).
  destruct (reachable_threads _ _ _ _ _ _ _ Hreach) as (_ & _ & Hst & Hjoin).
  destruct (waitToFinish_started _ _ _ Hst Hjoin Hwait) as (_ & Hfinal & _).
  split; [rewrite Hfinal; exact Hwd|]. split; [rewrite Hfinal; exact Hht|].
  exact Hcells'.
Qed.

(** X13: [main]'s sequence of calls, for any sizes that satisfy the
    conditions of X7 and at least one thread: after a complete run
    [drawFromResults(getMap())] is defined and prints [height] rows of
    [width] characters and a newline each; the character at column [x] of
    row [y] is the one the thresholds give the result of the pixel
    [(x, y)] if the index [y * width + x] lies in a batch the workers
    accept, and a blank otherwise. *)
Theorem X13_picture_of_a_run cBatchSize mWidth mHeight iterator0 saving0 numThreads
    final history :
  0 < mWidth -> 0 <= mHeight -> mWidth * mHeight <= INT_MAX ->
  0 < cBatchSize <= cBufferSize ->
  batches cBatchSize mWidth mHeight + numThreads <= INT_MAX ->
  1 <= numThreads ->
  complete_run cBatchSize iterator0 saving0 mWidth mHeight numThreads final history ->
  exists out,
    drawFromResults (getMap final) = Some out /\
    length out = Z.to_nat (mHeight * (mWidth + 1)) /\
    (forall x y, 0 <= x < mWidth -> 0 <= y < mHeight ->
       out !! Z.to_nat (y * (mWidth + 1) + x)
       = if y * mWidth + x <? batches cBatchSize mWidth mHeight * cBatchSize
         then draw_char (value_at mWidth mHeight x y)
         else Some " "%char) /\
    (forall y, 0 <= y < mHeight ->
       out !! Z.to_nat (y * (mWidth + 1) + mWidth) = Some newline).
Proof.
  intros Hw Hh Ha Hb Hint Hone Hrun.
  destruct (complete_run_bitmap _ _ _ _ _ _ _ _ Hw Hh Ha Hb Hint Hone Hrun)
    as (Hwd & Hht & Hcells).
  destruct (drawFromResults_cells (getMap final) (value_after_run cBatchSize mWidth mHeight))
    as (out & Hout & Hlen & Hchars & Hnl).
  - lia.
  - lia.
  - rewrite Hwd, Hht. intros x y Hx Hy.
    split; [apply (Hcells x y Hx Hy)|apply value_after_run_range].
  - rewrite Hwd, Hht in *. exists out.
    split; [exact Hout|]. split; [exact Hlen|]. split; [|exact Hnl].
    intros x y Hx Hy. rewrite (Hchars x y Hx Hy). unfold value_after_run.
    destruct (_ <? _); reflexivity.
Qed.

Lemma X13_picture_of_a_run_witness :
  exists out,
    drawFromResults (getMap tiny_joined) = Some out /\
    length out = Z.to_nat (2 * (3 + 1)) /\
    (forall x y, 0 <= x < 3 -> 0 <= y < 2 ->
       out !! Z.to_nat (y * (3 + 1) + x)
       = if y * 3 + x <? batches 4 3 2 * 4
         then draw_char (value_at 3 2 x y)
         else Some " "%char) /\
    (forall y, 0 <= y < 2 -> out !! Z.to_nat (y * (3 + 1) + 3) = Some newline).
Proof.
  apply (X13_picture_of_a_run 4 3 2 0 false 2 tiny_joined (processed tiny_all_done)).
  - lia.
  - lia.
  - vm_compute. discriminate.
  - split; [lia|vm_compute; discriminate].
  - vm_compute. discriminate.
  - lia.
  - exact tiny_run_complete.
Defined.

Lemma draw_char_blank r : draw_char r = Some " "%char <-> r <= 10.
Proof.
  unfold draw_char, branch1, branch2, branch3, branch4.
  destruct (Z.leb_spec r 10); [split; [lia|reflexivity]|].
  split; [|lia]. intros Hc.
  destruct (_ && _); [discriminate|].
  destruct (_ && _); [discriminate|].
  destruct (_ && _); discriminate.
Qed.

(** The picture printed after a complete run beside the picture of the
    bitmap in which every cell holds the result of its pixel. *)
Lemma pictures_compared cBatchSize mWidth mHeight iterator0 saving0 numThreads
    final history :
  0 < mWidth -> 0 <= mHeight -> mWidth * mHeight <= INT_MAX ->
  0 < cBatchSize <= cBufferSize ->
  batches cBatchSize mWidth mHeight + numThreads <= INT_MAX ->
  1 <= numThreads ->
  complete_run cBatchSize iterator0 saving0 mWidth mHeight numThreads final history ->
  exists out exact,
    drawFromResults (getMap final) = Some out /\
    drawFromResults (exact_bitmap mWidth mHeight) = Some exact /\
    length out = Z.to_nat (mHeight * (mWidth + 1)) /\
    length exact = Z.to_nat (mHeight * (mWidth + 1)) /\
    (forall x y, 0 <= x < mWidth -> 0 <= y < mHeight ->
       out !! Z.to_nat (y * (mWidth + 1) + x)
       = draw_char (value_after_run cBatchSize mWidth mHeight x y) /\
       exact !! Z.to_nat (y * (mWidth + 1) + x) = draw_char (value_at mWidth mHeight x y)) /\
    forall i : nat,
      out !! i <> exact !! i <->
      exists x y, 0 <= x < mWidth /\ 0 <= y < mHeight /\
        i = Z.to_nat (y * (mWidth + 1) + x) /\
        batches cBatchSize mWidth mHeight * cBatchSize <= y * mWidth + x /\
        10 < value_at mWidth mHeight x y /\
        out !! i = Some " "%char.
Proof.
  intros Hw Hh Ha Hb Hint Hone Hrun.
  destruct (complete_run_bitmap _ _ _ _ _ _ _ _ Hw Hh Ha Hb Hint Hone Hrun)
    as (Hwd & Hht & Hcells).
  destruct (drawFromResults_cells (getMap final) (value_after_run cBatchSize mWidth mHeight))
    as (out & Hout & Hlen & Hchars & Hnl);
    [lia|lia|rewrite Hwd, Hht; intros x y Hx Hy;
             split; [apply (Hcells x y Hx Hy)|apply value_after_run_range]|].
  destruct (drawFromResults_cells (exact_bitmap mWidth mHeight) (value_at mWidth mHeight))
    as (out' & Hout' & Hlen' & Hchars' & Hnl');
    [cbn; lia|cbn; lia|cbn [width height exact_bitmap]; intros x y Hx Hy;
                       split; [apply (exact_bitmap_cell _ _ x y Hx Hy)|apply render_range]|].
  rewrite Hwd, Hht in *. cbn [width height exact_bitmap] in Hlen', Hchars', Hnl'.
  exists out, out'. split; [exact Hout|]. split; [exact Hout'|].
  split; [exact Hlen|]. split; [exact Hlen'|].
  split; [intros x y Hx Hy; split; [apply (Hchars x y Hx Hy)|apply (Hchars' x y Hx Hy)]|].
  intros i. split.
  - intros Hdiff.
    destruct (Nat.lt_ge_cases i (Z.to_nat (mHeight * (mWidth + 1)))) as [Hi|Hi].
    2:{ destruct Hdiff. rewrite !(proj2 (lookup_ge_None _ _)) by lia. reflexivity. }
    set (y := Z.of_nat i / (mWidth + 1)). set (x := Z.of_nat i mod (mWidth + 1)).
    assert (Hxy : Z.of_nat i = y * (mWidth + 1) + x)
      by (unfold x, y; pose proof (Z.div_mod (Z.of_nat i) (mWidth + 1) ltac:(lia)); lia).
    assert (Hx : 0 <= x < mWidth + 1) by (apply Z.mod_pos_bound; lia).
    assert (Hy : 0 <= y < mHeight).
    { split; [apply Z.div_pos; lia|]. apply Z.div_lt_upper_bound; lia. }
    assert (Ei : i = Z.to_nat (y * (mWidth + 1) + x)) by lia.
    destruct (Z.eq_dec x mWidth) as [Ex|Ex].
    { destruct Hdiff. rewrite Ex in Ei. rewrite Ei, (Hnl y Hy), (Hnl' y Hy). reflexivity. }
    assert (Hx' : 0 <= x < mWidth) by lia.
    pose proof (Hchars x y Hx' Hy) as Hc. pose proof (Hchars' x y Hx' Hy) as Hc'.
    rewrite <- Ei in Hc, Hc'. unfold value_after_run in Hc.
    destruct (Z.ltb_spec (y * mWidth + x) (batches cBatchSize mWidth mHeight * cBatchSize)).
    { destruct Hdiff. congruence. }
    change (draw_char 0) with (Some " "%char) in Hc.
    exists x, y. split; [exact Hx'|]. split; [exact Hy|]. split; [exact Ei|].
    split; [assumption|]. split; [|exact Hc].
    destruct (Z.lt_ge_cases 10 (value_at mWidth mHeight x y)) as [Hv|Hv]; [exact Hv|].
    destruct Hdiff. rewrite Hc, Hc'. symmetry. apply draw_char_blank. exact Hv.
  - intros (x & y & Hx & Hy & -> & Hskip & Hv & Hblank) Heq.
    rewrite Hblank, (Hchars' x y Hx Hy) in Heq. symmetry in Heq.
    apply draw_char_blank in Heq. lia.
Qed.

(** X14: under the same conditions, the picture printed after a complete
    run and the picture of the bitmap in which every cell holds the result
    of its pixel have the same length, and they differ exactly at the
    characters of the pixels whose index lies in no batch the workers
    accept and whose result is above 10: there the run prints a blank. *)
Theorem X14_picture_differences cBatchSize mWidth mHeight iterator0 saving0 numThreads
    final history :
  0 < mWidth -> 0 <= mHeight -> mWidth * mHeight <= INT_MAX ->
  0 < cBatchSize <= cBufferSize ->
  batches cBatchSize mWidth mHeight + numThreads <= INT_MAX ->
  1 <= numThreads ->
  complete_run cBatchSize iterator0 saving0 mWidth mHeight numThreads final history ->
  exists out exact,
    drawFromResults (getMap final) = Some out /\
    drawFromResults (exact_bitmap mWidth mHeight) = Some exact /\
    length out = length exact /\
    forall i : nat,
      out !! i <> exact !! i <->
      exists x y, 0 <= x < mWidth /\ 0 <= y < mHeight /\
        i = Z.to_nat (y * (mWidth + 1) + x) /\
        batches cBatchSize mWidth mHeight * cBatchSize <= y * mWidth + x /\
        10 < value_at mWidth mHeight x y /\
        out !! i = Some " "%char.
Proof.
  intros Hw Hh Ha Hb Hint Hone Hrun.
  destruct (pictures_compared _ _ _ _ _ _ _ _ Hw Hh Ha Hb Hint Hone Hrun)
    as (out & exact & Hout & Hexact & Hlen & Hlen' & _ & Hdiff).
  exists out, exact. split; [exact Hout|]. split; [exact Hexact|].
  split; [congruence|exact Hdiff].
Qed.

(** The results of the last 60 pixels of the bitmap of [main]: one of
    them is above 10. *)
Lemma main_tail_values x :
  110 <= x < 170 -> (10 <? value_at cWidthPixels cHeightPixels x 117) = (x =? 124).
Proof.
  intros Hx.
  assert (H : forallb (fun n => Bool.eqb
                         (10 <? value_at cWidthPixels cHeightPixels (110 + Z.of_nat n) 117)
                         (110 + Z.of_nat n =? 124))
                (seq 0 60) = true) by (vm_compute; reflexivity).
  rewrite forallb_forall in H.
  specialize (H (Z.to_nat (x - 110))). rewrite in_seq in H.
  replace (110 + Z.of_nat (Z.to_nat (x - 110))) with x in H by lia.
  apply Bool.eqb_prop, H. lia.
Qed.

Lemma X14_picture_differences_witness :
  exists final history,
    complete_run cBatchSize_main 0 false cWidthPixels cHeightPixels 24 final history /\
    exists out exact,
      drawFromResults (getMap final) = Some out /\
      drawFromResults (exact_bitmap cWidthPixels cHeightPixels) = Some exact /\
      length out = length exact /\
      forall i : nat,
        out !! i <> exact !! i <->
        exists x y, 0 <= x < cWidthPixels /\ 0 <= y < cHeightPixels /\
          i = Z.to_nat (y * (cWidthPixels + 1) + x) /\
          batches cBatchSize_main cWidthPixels cHeightPixels * cBatchSize_main
            <= y * cWidthPixels + x /\
          10 < value_at cWidthPixels cHeightPixels x y /\
          out !! i = Some " "%char.
Proof.
  destruct (complete_run_exists cBatchSize_main cWidthPixels cHeightPixels
              eq_refl ltac:(discriminate) ltac:(discriminate) eq_refl ltac:(discriminate)
              0 false 24 ltac:(discriminate) ltac:(discriminate))
    as (final & history & Hrun).
  exists final, history. split; [exact Hrun|].
  apply (X14_picture_differences cBatchSize_main cWidthPixels cHeightPixels 0 false 24
           final history).
  - reflexivity.
  - discriminate.
  - discriminate.
  - split; [reflexivity|discriminate].
  - discriminate.
  - discriminate.
  - exact Hrun.
Defined.

(** X15: the program of [main] (170 by 118 pixels, batches of 20000, 24
    threads) has complete runs, and in every one of them, whatever the
    schedule and whatever the flag and the counter held at first, the
    picture printed has 118 rows of 170 characters and a newline each and
    differs from the picture of the exact bitmap in one character: at
    column 124 of the last row it has a blank where the result 31 of that
    pixel gives a dot. *)
Theorem X15_main_prints_one_wrong_character :
  (exists final history,
     complete_run cBatchSize_main 0 false cWidthPixels cHeightPixels 24 final history) /\
  forall iterator0 saving0 final history,
    complete_run cBatchSize_main iterator0 saving0 cWidthPixels cHeightPixels 24
      final history ->
    exists out exact,
      drawFromResults (getMap final) = Some out /\
      drawFromResults (exact_bitmap cWidthPixels cHeightPixels) = Some exact /\
      length out = (118 * 171)%nat /\ length exact = (118 * 171)%nat /\
      (forall i : nat, out !! i <> exact !! i <-> i = (117 * 171 + 124)%nat) /\
      out !! (117 * 171 + 124)%nat = Some " "%char /\
      exact !! (117 * 171 + 124)%nat = Some "."%char.
Proof.
  assert (Hw : 0 < cWidthPixels) by reflexivity.
  assert (Hh : 0 <= cHeightPixels) by discriminate.
  assert (Ha : cWidthPixels * cHeightPixels <= INT_MAX) by discriminate.
  assert (Hb : 0 < cBatchSize_main <= cBufferSize) by (split; [reflexivity|discriminate]).
  assert (Hint : batches cBatchSize_main cWidthPixels cHeightPixels + 24 <= INT_MAX)
    by discriminate.
  split.
  { apply (complete_run_exists _ _ _ Hw Hh Ha (proj1 Hb) (proj2 Hb) 0 false 24);
      [discriminate|exact Hint]. }
  intros iterator0 saving0 final history Hrun.
  destruct (pictures_compared _ _ _ _ _ _ _ _ Hw Hh Ha Hb Hint ltac:(discriminate) Hrun)
    as (out & exact & Hout & Hexact & Hlen & Hlen' & Hchars & Hdiff).
  assert (Hpos : Z.to_nat (117 * (cWidthPixels + 1) + 124) = (117 * 171 + 124)%nat)
    by reflexivity.
  assert (Hv : 10 < value_at cWidthPixels cHeightPixels 124 117).
  { apply Z.ltb_lt. rewrite main_tail_values by lia. reflexivity. }
  destruct (Hchars 124 117) as [Hblank Hdot];
    [unfold cWidthPixels; lia|unfold cHeightPixels; lia|].
  rewrite Hpos in Hblank, Hdot.
  assert (E0 : value_after_run cBatchSize_main cWidthPixels cHeightPixels 124 117 = 0).
  { unfold value_after_run. rewrite main_batches.
    destruct (Z.ltb_spec (117 * cWidthPixels + 124) (1 * cBatchSize_main)) as [Hlt|_];
      [|reflexivity].
    unfold cWidthPixels, cBatchSize_main in Hlt. lia. }
  rewrite E0 in Hblank. change (draw_char 0) with (Some " "%char) in Hblank.
  assert (Edot : draw_char (value_at cWidthPixels cHeightPixels 124 117) = Some "."%char)
    by (vm_compute; reflexivity).
  rewrite Edot in Hdot.
  exists out, exact. split; [exact Hout|]. split; [exact Hexact|].
  split; [rewrite Hlen; reflexivity|]. split; [rewrite Hlen'; reflexivity|].
  split; [|split; [exact Hblank|exact Hdot]].
  intros i. split.
  - intros Hi. apply Hdiff in Hi as (x & y & Hx & Hy & -> & Hskip & Hval & _).
    rewrite main_batches in Hskip.
    unfold cWidthPixels, cHeightPixels, cBatchSize_main in Hx, Hy, Hskip |- *.
    assert (y = 117) as -> by lia.
    apply Z.ltb_lt in Hval. rewrite main_tail_values in Hval by lia.
    apply Z.eqb_eq in Hval. subst x. reflexivity.
  - intros ->. rewrite Hblank, Hdot. discriminate.
Qed.

(** ** Every execution ends *)

Section StepBound.

Variables cBatchSize mWidth mHeight : Z.

Hypothesis width_pos : 0 < mWidth.
Hypothesis height_nonneg : 0 <= mHeight.
Hypothesis area_int : mWidth * mHeight <= INT_MAX.
Hypothesis batch_pos : 0 < cBatchSize.
Hypothesis batch_fits : cBatchSize <= cBufferSize.

Local Abbreviation batches := (batches cBatchSize mWidth mHeight).
Local Abbreviation inv := (inv cBatchSize mWidth mHeight).
Local Abbreviation wt := (weight cBatchSize mWidth mHeight).
Local Abbreviation total := (total_weight cBatchSize mWidth mHeight).

Ltac record_simpl :=
  cbn [this processed mThreads mMandelbrotIterator mIsSavingResults mResults
       mIsStarted mWidthPixels mHeightPixels map width height
       set_mThreads set_mMandelbrotIterator set_mIsSavingResults set_map
       set_mIsStarted set_pc pc currentIndex currentBatch dummy threadStack
       worker joinable Stack.lastPos Stack.arr] in *.

(** The step of a worker takes at least 1 off its own weight, and the
    number of threads if it changes the flag. *)
Lemma weight_own_step K s i t o' w' ev :
  1 <= K -> inv s -> mThreads (this s) !! i = Some t ->
  loop_step cBatchSize (this s) (worker t) = Some (o', w', ev) ->
  mMandelbrotIterator (this s) <= mMandelbrotIterator o' /\
  wt K o' w'
  + (if Bool.eqb (mIsSavingResults o') (mIsSavingResults (this s)) then 1 else K)
  <= wt K (this s) (worker t).
Proof.
  intros HK Hinv Ht Hl.
  pose proof (inv_workers _ _ _ _ Hinv i t Ht) as Hwi.
  pose proof (inv_counter _ _ _ _ Hinv) as Hcnt.
  pose proof (done_count_bounds (mThreads (this s))) as Hdc.
  pose proof (inv_threads_int _ _ _ _ Hinv) as Hint.
  pose proof (batches_nonneg _ _ _ width_pos height_nonneg batch_pos) as Hbn.
  unfold loop_step in Hl. unfold worker_inv in Hwi. cbv zeta in Hwi.
  rewrite (inv_width _ _ _ _ Hinv), (inv_height _ _ _ _ Hinv) in Hl.
  unfold weight, round_weight, round_cost.
  destruct (pc (worker t)) eqn:Hpc.
  - destruct (cBatchSize =? 0); [discriminate|].
    destruct (_ || _); injection Hl as <- <- <-; record_simpl;
      rewrite Bool.eqb_reflx; split; try lia.
    destruct (Bool.eqb _ _); destruct Hwi as [[_ ->]|(_ & Hlp & _)]; lia.
  - destruct (Bool.eqb (mIsSavingResults (this s)) (dummy (worker t))) eqn:Eflag;
      injection Hl as <- <- <-; record_simpl; split; try lia.
    + destruct (Bool.eqb true _); lia.
    + rewrite !Bool.eqb_reflx. lia.
  - destruct (Z.eqb_spec i0 (Stack.lastPos (threadStack (worker t)))).
    + injection Hl as <- <- <-; record_simpl. rewrite Bool.eqb_reflx. lia.
    + destruct (_ && _); [|discriminate].
      destruct (Stack.assign _ _); [|discriminate].
      injection Hl as <- <- <-; record_simpl. rewrite Bool.eqb_reflx. lia.
  - injection Hl as <- <- <-; record_simpl. split; [lia|].
    destruct (Bool.eqb false _); lia.
  - rewrite (batches_quot _ _ _ width_pos height_nonneg batch_pos) in Hl.
    rewrite (to_int_small (mMandelbrotIterator (this s))) in Hl by (unfold INT_MAX in *; lia).
    rewrite (to_u64_small (mMandelbrotIterator (this s) + 1)) in Hl
      by (unfold INT_MAX in *; lia).
    destruct (Z.leb_spec batches (mMandelbrotIterator (this s)));
      injection Hl as <- <- <-; record_simpl; rewrite Bool.eqb_reflx; (split; [lia|]).
    + rewrite !Z.max_l by lia. lia.
    + rewrite Hwi. rewrite !Z.max_r by lia. nia.
  - destruct (Stack.push _ _) as [st|] eqn:Hpush; [|discriminate].
    injection Hl as <- <- <-; record_simpl. rewrite Bool.eqb_reflx.
    unfold Stack.push in Hpush. destruct (_ && _); [|discriminate].
    injection Hpush as <-. cbn [Stack.lastPos]. lia.
  - discriminate.
Qed.

(** The step of another worker adds at most 1 to a worker's weight, and
    nothing unless it changes the flag. *)
Lemma weight_other_step K o o' w :
  0 <= K -> mMandelbrotIterator o <= mMandelbrotIterator o' ->
  wt K o' w
  <= wt K o w + (if Bool.eqb (mIsSavingResults o') (mIsSavingResults o) then 0 else 1).
Proof.
  intros HK Hc. unfold weight, round_weight, round_cost.
  assert (Z.max 0 (batches - mMandelbrotIterator o') * (3 * cBatchSize + 2 * K + 4)
          <= Z.max 0 (batches - mMandelbrotIterator o) * (3 * cBatchSize + 2 * K + 4))
    by (apply Z.mul_le_mono_nonneg_r; lia).
  destruct (pc w); try (destruct (Bool.eqb (mIsSavingResults o') _); lia).
  destruct (mIsSavingResults o'), (mIsSavingResults o), (dummy w); cbn; lia.
Qed.

Lemma total_weight_others K o o' c ts :
  (forall w, wt K o' w <= wt K o w + c) ->
  total K o' ts <= total K o ts + Z.of_nat (length ts) * c.
Proof.
  intros Hw. induction ts as [|t ts IH]; [cbn; lia|].
  cbn [total_weight length]. pose proof (Hw (worker t)). lia.
Qed.

Lemma total_weight_insert K o o' c t' ts : forall i t,
  0 <= c -> (forall w, wt K o' w <= wt K o w + c) ->
  ts !! i = Some t ->
  total K o' (<[i := t']> ts)
  <= total K o ts + (wt K o' (worker t') - wt K o (worker t))
     + (Z.of_nat (length ts) - 1) * c.
Proof.
  intros i t Hc Hw. revert i. induction ts as [|t0 ts IH]; intros i Ht; [discriminate|].
  destruct i as [|i].
  - injection Ht as ->. cbn [insert list_insert total_weight length].
    pose proof (total_weight_others K o o' c ts Hw). lia.
  - change (<[S i := t']> (t0 :: ts)) with (t0 :: <[i := t']> ts).
    cbn [total_weight length]. pose proof (IH i Ht). pose proof (Hw (worker t0)). lia.
Qed.

Lemma total_weight_nonneg K s :
  0 <= K -> inv s ->
  forall ts, (forall i t, ts !! i = Some t -> worker_inv cBatchSize mWidth mHeight s (worker t)) ->
  0 <= total K (this s) ts.
Proof.
  intros HK Hinv ts. induction ts as [|t ts IH]; intros Hws; [cbn; lia|].
  cbn [total_weight].
  assert (0 <= wt K (this s) (worker t)).
  { pose proof (Hws 0%nat t eq_refl) as Hwi.
    unfold weight, round_weight, round_cost. unfold worker_inv in Hwi. cbv zeta in Hwi.
    assert (0 <= Z.max 0 (batches - mMandelbrotIterator (this s))
                 * (3 * cBatchSize + 2 * K + 4)) by nia.
    destruct (pc (worker t)); try lia.
    destruct (Bool.eqb _ _); lia. }
  pose proof (IH (fun i t' Ht' => Hws (S i) t' Ht')). lia.
Qed.

(** Every step takes at least 1 off the potential. *)
Lemma step_potential s s' :
  inv s -> step cBatchSize s s' ->
  potential cBatchSize mWidth mHeight s' + 1 <= potential cBatchSize mWidth mHeight s.
Proof.
  intros Hinv [i Hstep].
  destruct (thread_step_form _ _ _ _ Hstep) as (t & o' & w' & ev & Ht & Hl & _ & ->).
  pose proof (lookup_lt_Some _ _ _ Ht) as Hi.
  unfold potential. cbn [this mThreads set_mThreads]. rewrite length_insert.
  set (K := Z.of_nat (length (mThreads (this s)))).
  assert (HK : 1 <= K) by lia.
  destruct (weight_own_step K s i t o' w' ev HK Hinv Ht Hl) as (Hc & Hown).
  pose proof (weight_other_step K (this s) o') as Hother.
  set (c := if Bool.eqb (mIsSavingResults o') (mIsSavingResults (this s)) then 0 else 1)
    in *.
  assert (Hc0 : 0 <= c) by (unfold c; destruct (Bool.eqb _ _); lia).
  pose proof (total_weight_insert K (this s) o' c {| joinable := joinable t; worker := w' |}
                (mThreads (this s)) i t Hc0
                (fun w => Hother w ltac:(lia) Hc) Ht) as Hsum.
  cbn [worker] in Hsum. fold K in Hsum.
  assert (Hsame : forall ts, total K (set_mThreads ts o') ts = total K o' ts).
  { intros ts. generalize ts at 1. intros ts0.
    induction ts as [|t0 ts IH]; [reflexivity|]. cbn [total_weight]. rewrite IH.
    reflexivity. }
  rewrite Hsame. unfold c in *. destruct (Bool.eqb _ _); nia.
Qed.

Lemma potential_nonneg s : inv s -> 0 <= potential cBatchSize mWidth mHeight s.
Proof.
  intros Hinv. unfold potential.
  apply (total_weight_nonneg (Z.of_nat (length (mThreads (this s)))) s ltac:(lia) Hinv).
  apply (inv_workers _ _ _ _ Hinv).
Qed.

Lemma nsteps_potential k : forall s s',
  inv s -> nsteps (step cBatchSize) k s s' ->
  Z.of_nat k <= potential cBatchSize mWidth mHeight s.
Proof.
  induction k as [|k IH]; intros s s' Hinv Hsteps.
  - apply (potential_nonneg s Hinv).
  - inversion Hsteps as [|? ? s1 ? Hstep Hrest]; subst.
    pose proof (step_potential s s1 Hinv Hstep).
    pose proof (IH s1 s'
      (step_inv _ _ _ width_pos height_nonneg area_int batch_pos batch_fits s s1 Hinv Hstep)
      Hrest).
    lia.
Qed.

Lemma total_weight_replicate K o t n :
  total K o (replicate n t) = Z.of_nat n * wt K o (worker t).
Proof.
  induction n as [|n IH]; [reflexivity|].
  cbn [replicate total_weight]. rewrite IH. lia.
Qed.

Lemma started_potential iterator0 saving0 numThreads o :
  startThreads numThreads (LockfreeMandelbrot_new iterator0 saving0 mWidth mHeight)
    = Some (true, o) ->
  potential cBatchSize mWidth mHeight {| this := o; processed := [] |}
  = step_bound cBatchSize mWidth mHeight numThreads.
Proof.
  intros Hstart. unfold startThreads in Hstart. cbn in Hstart.
  destruct (Z.ltb_spec numThreads 0); [discriminate|]. injection Hstart as <-.
  unfold potential, step_bound. cbn [this mThreads set_mThreads app].
  rewrite total_weight_replicate, length_replicate, Z2Nat.id by lia.
  unfold weight, round_weight, round_cost. cbn.
  pose proof (batches_nonneg _ _ _ width_pos height_nonneg batch_pos).
  rewrite Z.sub_0_r, Z.max_r by lia. lia.
Qed.

End StepBound.

(** X16: under the conditions of X7, every execution of the workers after
    [startThreads(numThreads)] is finite, whatever the schedule: it takes
    at most [numThreads * ((batches + 1) * (3 * cBatchSize + 2 * numThreads
    + 4) + 1)] steps (accesses to shared memory and pixels computed, the
    spurious failures of [compare_exchange_weak] apart), so the workers
    cannot keep one another spinning on the flag for ever; and when no
    worker has a step left, every worker has returned. *)
Theorem X16_executions_are_bounded cBatchSize mWidth mHeight iterator0 saving0 numThreads o :
  0 < mWidth -> 0 <= mHeight -> mWidth * mHeight <= INT_MAX ->
  0 < cBatchSize <= cBufferSize ->
  batches cBatchSize mWidth mHeight + numThreads <= INT_MAX ->
  startThreads numThreads (LockfreeMandelbrot_new iterator0 saving0 mWidth mHeight)
    = Some (true, o) ->
  forall k s,
    nsteps (step cBatchSize) k {| this := o; processed := [] |} s ->
    Z.of_nat k <= step_bound cBatchSize mWidth mHeight numThreads /\
    ((forall s', ~ step cBatchSize s s') -> all_returned s).
Proof.
  intros Hw Hh Ha [Hb Hbuf] Hint Hstart k s Hsteps.
  destruct (started_inv _ _ _ Hw Hh Hb _ _ _ _ Hstart Hint) as (_ & _ & Hinv0).
  split.
  - rewrite <- (started_potential _ _ _ Hw Hh Hb _ _ _ _ Hstart).
    apply (nsteps_potential _ _ _ Hw Hh Ha Hb Hbuf k _ s Hinv0 Hsteps).
  - intros Hstuck i t Ht.
    pose proof (steps_inv _ _ _ Hw Hh Ha Hb Hbuf _ _ Hinv0 (rtc_nsteps_2 _ _ _ Hsteps))
      as Hinv.
    destruct (returned_or_running (worker t)) as [Hdone|Hrun]; [exact Hdone|].
    destruct (inv_can_step _ _ _ Hw Hb Hbuf s i t Hinv Ht Hrun) as [s' Hs'].
    destruct (Hstuck s'). exists i. exact Hs'.
Qed.

Lemma X16_executions_are_bounded_witness :
  step_bound 2 3 2 2 = 114 /\
  forall k s,
    nsteps (step 2) k pair_started s ->
    Z.of_nat k <= step_bound 2 3 2 2 /\
    ((forall s', ~ step 2 s s') -> all_returned s).
Proof.
  split; [reflexivity|].
  apply (X16_executions_are_bounded 2 3 2 5 true 2 (this pair_started)).
  - lia.
  - lia.
  - vm_compute. discriminate.
  - split; [lia|vm_compute; discriminate].
  - vm_compute. discriminate.
  - reflexivity.
Defined.

(** ** When the batch size divides the area *)

Lemma exact_bitmap_inv cBatchSize mWidth mHeight :
  0 < mWidth -> 0 <= mHeight -> 0 < cBatchSize ->
  (mWidth * mHeight) mod cBatchSize = 0 ->
  map_inv cBatchSize mWidth mHeight (map (exact_bitmap mWidth mHeight)).
Proof.
  intros Hw Hh Hb Hdiv. unfold exact_bitmap. cbn [map].
  split; [rewrite length_fmap, length_seq; reflexivity|]. split.
  - apply Forall_fmap, Forall_forall. intros x _. cbn.
    rewrite length_fmap, length_seq. reflexivity.
  - intros x y Hx Hy. right. split.
    + unfold batches. pose proof (Z.div_mod (mWidth * mHeight) cBatchSize ltac:(lia)). nia.
    + apply (exact_bitmap_cell mWidth mHeight x y Hx Hy).
Qed.

(** X17: when the batch size divides the area, under the conditions of X7
    and with at least one thread, a complete run computes the pixel of
    every index of the bitmap exactly once and leaves the bitmap in which
    every cell holds the result of its pixel. *)
Theorem X17_exact_when_batches_fill_the_area cBatchSize mWidth mHeight
    iterator0 saving0 numThreads final history :
  0 < mWidth -> 0 <= mHeight -> mWidth * mHeight <= INT_MAX ->
  0 < cBatchSize <= cBufferSize ->
  batches cBatchSize mWidth mHeight + numThreads <= INT_MAX ->
  1 <= numThreads ->
  (mWidth * mHeight) mod cBatchSize = 0 ->
  complete_run cBatchSize iterator0 saving0 mWidth mHeight numThreads final history ->
  getMap final = exact_bitmap mWidth mHeight /\
  indices history ≡ₚ Z.of_nat <$> seq 0 (Z.to_nat (mWidth * mHeight)).
Proof.
  intros Hw Hh Ha [Hb Hbuf] Hint Hone Hdiv Hrun.
  assert (Hfull : batches cBatchSize mWidth mHeight * cBatchSize = mWidth * mHeight).
  { unfold batches. pose proof (Z.div_mod (mWidth * mHeight) cBatchSize ltac:(lia)). lia. }
  destruct (complete_run_bitmap _ _ _ _ _ _ _ _ Hw Hh Ha (conj Hb Hbuf) Hint Hone Hrun)
    as (Hwd & Hht & Hcells).
  destruct (complete_run_result _ _ _ Hw Hh Ha Hb Hbuf _ _ _ _ _ Hrun Hint)
    as (Hminv & _ & Hres).
  destruct (Hres Hone) as [_ Hhist].
  split.
  - assert (Hmap : map (getMap final) = map (exact_bitmap mWidth mHeight)).
    { apply (map_inv_ext _ _ _ _ _ Hminv (exact_bitmap_inv _ _ _ Hw Hh Hb Hdiv)).
      intros x y Hx Hy. rewrite (Hcells x y Hx Hy), (exact_bitmap_cell _ _ x y Hx Hy).
      unfold value_after_run. rewrite Hfull.
      destruct (Z.ltb_spec (y * mWidth + x) (mWidth * mHeight)); [reflexivity|nia]. }
    destruct (getMap final) as [m wd ht]. cbn [map width height] in *.
    unfold exact_bitmap in *. cbn [map] in Hmap. subst. reflexivity.
  - apply NoDup_Permutation.
    + apply NoDup_ListNoDup.
      apply (complete_run_once _ _ _ Hw Hh Ha Hb Hbuf _ _ _ _ _ Hrun Hint).
    + apply NoDup_fmap_2; [intros a b; lia|apply NoDup_seq].
    + intros k. rewrite list_elem_of_In, Hhist, Hfull, list_elem_of_fmap.
      setoid_rewrite elem_of_seq. split.
      * intros Hk. exists (Z.to_nat k). lia.
      * intros (j & -> & Hj). lia.
Qed.

Lemma X17_exact_when_batches_fill_the_area_witness :
  getMap pair_joined = exact_bitmap 3 2 /\
  indices (processed pair_all_done) ≡ₚ Z.of_nat <$> seq 0 (Z.to_nat (3 * 2)).
Proof.
  apply (X17_exact_when_batches_fill_the_area 2 3 2 5 true 2
           pair_joined (processed pair_all_done)).
  - lia.
  - lia.
  - vm_compute. discriminate.
  - split; [lia|vm_compute; discriminate].
  - vm_compute. discriminate.
  - lia.
  - reflexivity.
  - exact pair_run_complete.
Defined.

(** ** What the flag fails to protect *)

Lemma pair_dumping_reachable : reachable 2 5 true 3 2 2 pair_dumping.
Proof.
  exists (this pair_started). split; [reflexivity|].
  apply (run_rounds_rtc 2 12 2 pair_started).
Qed.

(** X18: under the conditions of X7, two different workers that are both
    in [dumpToMap], each about to assign an entry of its buffer, never
    assign to the same cell; each entry lies inside the bitmap and holds
    the result of the pixel of its cell.  Two workers can be in the
    critical section together, but their writes go to different
    cells. *)
Theorem X18_writers_use_different_cells cBatchSize mWidth mHeight iterator0 saving0
    numThreads s i j ti tj a a' :
  0 < mWidth -> 0 <= mHeight -> mWidth * mHeight <= INT_MAX ->
  0 < cBatchSize <= cBufferSize ->
  batches cBatchSize mWidth mHeight + numThreads <= INT_MAX ->
  reachable cBatchSize iterator0 saving0 mWidth mHeight numThreads s ->
  i <> j ->
  mThreads (this s) !! i = Some ti -> mThreads (this s) !! j = Some tj ->
  pc (worker ti) = PDump a -> a <> Stack.lastPos (threadStack (worker ti)) ->
  pc (worker tj) = PDump a' -> a' <> Stack.lastPos (threadStack (worker tj)) ->
  (Stack.x (Stack.arr (threadStack (worker ti)) a),
   Stack.y (Stack.arr (threadStack (worker ti)) a))
  <> (Stack.x (Stack.arr (threadStack (worker tj)) a'),
      Stack.y (Stack.arr (threadStack (worker tj)) a')) /\
  0 <= Stack.x (Stack.arr (threadStack (worker ti)) a) < mWidth /\
  0 <= Stack.y (Stack.arr (threadStack (worker ti)) a) < mHeight /\
  Stack.res (Stack.arr (threadStack (worker ti)) a)
  = value_at mWidth mHeight (Stack.x (Stack.arr (threadStack (worker ti)) a))
      (Stack.y (Stack.arr (threadStack (worker ti)) a)).
Proof.
  intros Hw Hh Ha [Hb Hbuf] Hint Hreach Hij Hi Hj Hpi Hai Hpj Haj.
  destruct (reachable_inv _ _ _ Hw Hh Ha Hb Hbuf _ _ _ _ Hreach Hint)
    as (Hinv & (_ & _ & _ & Huniq) & _).
  pose proof (inv_workers _ _ _ _ Hinv i ti Hi) as Hwi.
  pose proof (inv_workers _ _ _ _ Hinv j tj Hj) as Hwj.
  unfold worker_inv in Hwi, Hwj. cbv zeta in Hwi, Hwj. rewrite Hpi in Hwi. rewrite Hpj in Hwj.
  destruct Hwi as [[? ?]|((Hbi & _ & Hai') & Hlpi & Hri & _)]; [lia|].
  destruct Hwj as [[? ?]|((Hbj & _ & Haj') & Hlpj & Hrj & _)]; [lia|].
  destruct (Hai' a ltac:(lia)) as [Ei _]. destruct (Haj' a' ltac:(lia)) as [Ej _].
  assert (Hne : currentBatch (worker ti) <> currentBatch (worker tj)).
  { intros Heq. apply Hij.
    apply (Huniq i j ti tj (currentBatch (worker ti)) Hi Hj).
    - split; [reflexivity|]. rewrite Hpi. lia.
    - split; [symmetry; exact Heq|]. rewrite Hpj. lia. }
  set (k := currentBatch (worker ti) * cBatchSize + a) in *.
  set (k' := currentBatch (worker tj) * cBatchSize + a') in *.
  assert (Hk : 0 <= k < mWidth * mHeight).
  { pose proof (batches_area _ mWidth mHeight Hb). unfold k. nia. }
  assert (Hkk : k <> k') by (unfold k, k'; nia).
  rewrite Ei, Ej. unfold expected. cbn [Stack.x Stack.y Stack.res].
  destruct (index_coordinates _ _ Hw k Hk) as (Hx & Hy & _).
  split; [|auto].
  intros [= Hxe Hye]. apply Hkk.
  rewrite (Z.div_mod k mWidth), (Z.div_mod k' mWidth) by lia. congruence.
Qed.

Lemma X18_writers_use_different_cells_witness :
  in_critical_section (worker (thread_of 0 pair_dumping)) = true /\
  in_critical_section (worker (thread_of 1 pair_dumping)) = true /\
  (Stack.x (Stack.arr (threadStack (worker (thread_of 0 pair_dumping))) 1),
   Stack.y (Stack.arr (threadStack (worker (thread_of 0 pair_dumping))) 1))
  <> (Stack.x (Stack.arr (threadStack (worker (thread_of 1 pair_dumping))) 0),
      Stack.y (Stack.arr (threadStack (worker (thread_of 1 pair_dumping))) 0)) /\
  0 <= Stack.x (Stack.arr (threadStack (worker (thread_of 0 pair_dumping))) 1) < 3 /\
  0 <= Stack.y (Stack.arr (threadStack (worker (thread_of 0 pair_dumping))) 1) < 2 /\
  Stack.res (Stack.arr (threadStack (worker (thread_of 0 pair_dumping))) 1)
  = value_at 3 2 (Stack.x (Stack.arr (threadStack (worker (thread_of 0 pair_dumping))) 1))
      (Stack.y (Stack.arr (threadStack (worker (thread_of 0 pair_dumping))) 1)).
Proof.
  split; [vm_compute; reflexivity|]. split; [vm_compute; reflexivity|].
  apply (X18_writers_use_different_cells 2 3 2 5 true 2 pair_dumping 0 1
           (thread_of 0 pair_dumping) (thread_of 1 pair_dumping) 1 0).
  - lia.
  - lia.
  - vm_compute. discriminate.
  - split; [lia|vm_compute; discriminate].
  - vm_compute. discriminate.
  - exact pair_dumping_reachable.
  - discriminate.
  - vm_compute. reflexivity.
  - vm_compute. reflexivity.
  - vm_compute. reflexivity.
  - vm_compute. discriminate.
  - vm_compute. reflexivity.
  - vm_compute. discriminate.
Defined.
